(** * sshm: the encrypted connection registry and its terminal state machine

    A shallow embedding of [main.py]: the [SSHConfig] dataclass, the
    [SSHManager] registry (load, save, add, remove and the group queries) and
    the key handlers of [SSHManagerUI], followed by the properties of the
    specification that concern them.

    Conventions.
    - A Python [str] is a Rocq [string], read as its UTF-8 bytes.  The
      string operations the program uses ([split('/')], [startswith],
      ['/' in g], slicing past a prefix, comparison) give the same result
      on UTF-8 bytes as on code points; [s[:-1]] removes the bytes of the
      last character.
    - A Python [int] is a [Z].
    - [Optional[str]] is [option string]; truthiness ([if not c.group]) is
      false for [None] and for the empty string.
    - Exceptions are values of [exn]; statements run in a state-and-exception
      monad whose state survives a raise, as the mutated Python objects do.
    - The terminal is outside the embedding.  The calls into [curses] are
      taken to succeed, so a drawing routine is what it does to the object.
      (On a window too small for a line, [addstr] raises [curses.error] and
      the program ends with exit code 1; the embedding has no such window.) *)

From Stdlib Require Import List String Ascii ZArith Lia Bool Arith.
From Stdlib Require Import Permutation Sorted DecimalString OrdersEx.
From Stdlib Require Import RelationClasses.
From Stdlib Require DecimalPos.
Import ListNotations.

Local Open Scope string_scope.
Local Open Scope list_scope.
Local Open Scope Z_scope.

(** ** Python builtins used by the program *)

Module Py.

(** [bool(x)] for an [Optional[str]]. *)
Definition truthy (o : option string) : bool :=
  match o with
  | Some (String _ _) => true
  | _ => false
  end.

(** [x or None] for a [str]. *)
Definition or_none (s : string) : option string :=
  match s with
  | EmptyString => None
  | _ => Some s
  end.

(** [x or empty-string] for an [Optional[str]]. *)
Definition or_empty (o : option string) : string :=
  match o with
  | Some s => s
  | None => EmptyString
  end.

(** [s.split(c)] for a one-character separator: never empty. *)
Fixpoint split (sep : ascii) (s : string) : list string :=
  match s with
  | EmptyString => [EmptyString]
  | String c s' =>
      if Ascii.eqb c sep then EmptyString :: split sep s'
      else match split sep s' with
           | [] => [String c EmptyString]
           | p :: ps => String c p :: ps
           end
  end.

(** [l[-1]] of a list of strings known to be non-empty ([split] results). *)
Definition last_part (l : list string) : string := List.last l EmptyString.

(** [l[:-1]]. *)
Definition but_last {A} (l : list A) : list A := List.removelast l.

(** [sep.join(l)]. *)
Definition join (sep : string) (l : list string) : string := String.concat sep l.

(** [s.startswith(p)]. *)
Definition startswith (p s : string) : bool := String.prefix p s.

(** [c in s] for a one-character string [c]. *)
Fixpoint contains (c : ascii) (s : string) : bool :=
  match s with
  | EmptyString => false
  | String d s' => Ascii.eqb d c || contains c s'
  end.

(** [s[n:]]; past the end it is the empty string. *)
Fixpoint drop (n : nat) (s : string) : string :=
  match n, s with
  | O, _ => s
  | S n', String _ s' => drop n' s'
  | S _, EmptyString => EmptyString
  end.

(** [s[:-1]]: the text without its last character.  In UTF-8 a character
    is one byte outside 128..191 followed by bytes inside that range, so
    the bytes to remove are the trailing bytes of that range and the one
    before them. *)
Definition is_continuation (c : ascii) : bool :=
  let n := nat_of_ascii c in ((128 <=? n) && (n <=? 191))%nat.

Fixpoint drop_last_char (reversed : list ascii) : list ascii :=
  match reversed with
  | [] => []
  | c :: l => if is_continuation c then drop_last_char l else l
  end.

Definition chop (s : string) : string :=
  string_of_list_ascii
    (List.rev (drop_last_char (List.rev (list_ascii_of_string s)))).

(** [s.split(sep)[0]] for a non-empty separator: the text before the first
    occurrence of [sep], or all of [s]. *)
Fixpoint before (sep : string) (s : string) : string :=
  if String.prefix sep s then EmptyString
  else match s with
       | EmptyString => EmptyString
       | String c s' => String c (before sep s')
       end.

(** [str(n)] for an [int].  (The conversion has the same limit of 4300
    digits as [int(s)]; no [int] the program holds is that long, since
    [int] and [json.loads] refuse the texts of such numbers.) *)
Definition str_of_int (n : Z) : string := NilZero.string_of_int (Z.to_int n).

(** [len(l)]. *)
Definition len {A} (l : list A) : Z := Z.of_nat (List.length l).

(** [l[i]]: negative indices count from the end, anything else out of range
    is an [IndexError] ([None]). *)
Definition index {A} (l : list A) (i : Z) : option A :=
  if (0 <=? i) && (i <? len l) then nth_error l (Z.to_nat i)
  else if (- len l <=? i) && (i <? 0) then nth_error l (Z.to_nat (len l + i))
  else None.

(** *** [int(s)] on a string, base 10

    On ASCII text: the blanks around the literal are dropped (tab, line
    feed, vertical tab, form feed, carriage return and space: the bytes
    9..13 and 32), then comes an optional sign, then digits in which single
    underscores may separate digits.  A literal of more than 4300 digits is
    refused with a [ValueError] as well: that is the interpreter's default
    limit for the conversion.  Outside ASCII [int] also reads the decimal
    digits and the blanks of other scripts; the embedding does not follow
    it there and says so ([NonAscii]). *)

Definition is_space (c : ascii) : bool :=
  let n := nat_of_ascii c in
  ((9 <=? n) && (n <=? 13) || (n =? 32))%nat.

Definition is_digit (c : ascii) : bool :=
  let n := nat_of_ascii c in ((48 <=? n) && (n <=? 57))%nat.

Definition digit_value (c : ascii) : Z := Z.of_nat (nat_of_ascii c - 48).

Fixpoint lstrip (l : list ascii) : list ascii :=
  match l with
  | c :: l' => if is_space c then lstrip l' else l
  | [] => []
  end.

Definition strip (l : list ascii) : list ascii :=
  List.rev (lstrip (List.rev (lstrip l))).

Fixpoint digits (after_digit : bool) (acc : Z) (l : list ascii) : option Z :=
  match l with
  | [] => if after_digit then Some acc else None
  | c :: l' =>
      if is_digit c then digits true (10 * acc + digit_value c) l'
      else if Ascii.eqb c "_" then
             if after_digit then digits false acc l' else None
           else None
  end.

(** The value of a literal, blanks already dropped. *)
Definition literal (l : list ascii) : option Z :=
  match l with
  | "-"%char :: l => option_map Z.opp (digits false 0 l)
  | "+"%char :: l => digits false 0 l
  | l => digits false 0 l
  end.

Definition max_str_digits : nat := 4300.

Definition count_digits (l : list ascii) : nat :=
  List.length (List.filter is_digit l).

Definition is_ascii (c : ascii) : bool := (nat_of_ascii c <? 128)%nat.

(** What [int(s)] does. *)
Inductive int_result : Type :=
| Int (n : Z)      (* it returns [n] *)
| NotInt           (* it raises [ValueError] *)
| NonAscii.        (* [s] is not ASCII text: not followed *)

Definition int_of_str (s : string) : int_result :=
  let l := list_ascii_of_string s in
  if forallb is_ascii l then
    match literal (strip l) with
    | Some n =>
        if (count_digits l <=? max_str_digits)%nat then Int n else NotInt
    | None => NotInt
    end
  else NonAscii.

(** *** [sorted(l, key=...)]

    Python's sort is stable and compares keys with [<] only.  An insertion
    from the right that moves an element past the strictly smaller ones is
    the stable sort. *)

Section Sorted.
Context {A : Type} (key : A -> string).

Fixpoint insert (x : A) (l : list A) : list A :=
  match l with
  | [] => [x]
  | y :: l' =>
      if String.ltb (key y) (key x) then y :: insert x l' else x :: l
  end.

Definition sorted (l : list A) : list A := List.fold_right insert [] l.

End Sorted.

(** [set(l)] followed by [sorted(...)]: the iteration order of the set is
    irrelevant once its distinct elements are sorted. *)
Definition sorted_set (l : list string) : list string :=
  sorted (fun s => s) (List.nodup string_dec l).

End Py.

(** ** Data model *)

(** The [SSHConfig] dataclass. *)
Record SSHConfig : Type := mkSSHConfig {
  name : string;
  host : string;
  port : Z;
  username : string;
  password : option string;
  key_path : option string;
  group : option string
}.

(** [config.group_parts] and [config.group_name]. *)
Definition group_parts (c : SSHConfig) : list string :=
  match group c with
  | Some g => if Py.truthy (Some g) then Py.split "/" g else []
  | None => []
  end.

Definition group_name (c : SSHConfig) : string :=
  match group c with
  | Some g => if Py.truthy (Some g) then Py.last_part (Py.split "/" g) else EmptyString
  | None => EmptyString
  end.

(** Values decoded by [json.loads] and accepted by [json.dumps].  Floats do
    not occur in what the program writes and are not represented. *)
#[warnings="-register-all"]
Inductive json : Type :=
| JNull
| JBool (b : bool)
| JInt (n : Z)
| JStr (s : string)
| JArr (l : list json)
| JObj (kv : list (string * json)).

(** Exceptions the program can meet.  [JSONDecodeError] is a subclass of
    [ValueError] in Python.

    [Unmodelled] is no exception of the program.  It marks the two places
    where the program goes on with values that this embedding does not
    represent: a registry entry read with a field of another type than the
    dataclass declares, and a port text outside ASCII given to [int].
    Nothing is said of the program from there on. *)
Inductive exn : Type :=
| ValueError (msg : string)
| JSONDecodeError
| TypeError
| KeyError
| IndexError
| AttributeError
| OSError
| InvalidToken
| Unmodelled.

Definition is_ValueError (e : exn) : bool :=
  match e with
  | ValueError _ | JSONDecodeError => true
  | _ => false
  end.

(** ** The libraries outside the repository

    [cryptography.fernet], the [json] module, [repr] and the message text of
    library exceptions (that of the [ValueError] of [int(s)] among them) are
    taken as an interface.  [bytes] stands for
    Python's [bytes]: keys, plaintexts and tokens.  Encryption and key
    generation draw on a nonce (time and random IV) supplied by the
    environment; [decrypt] and [loads] return [None] where the library
    raises [InvalidToken] and [JSONDecodeError]. *)
Class Runtime : Type := {
  bytes : Type;
  generate_key : nat -> bytes;
  valid_key : bytes -> bool;
  encrypt : bytes -> nat -> bytes -> bytes;
  decrypt : bytes -> bytes -> option bytes;
  dumps : json -> bytes;
  loads : bytes -> option json;
  repr : json -> string;
  int_error : string -> string;
  exn_text : exn -> string
}.

(** [dataclasses.asdict(config)]. *)
Definition json_of_opt (o : option string) : json :=
  match o with
  | Some s => JStr s
  | None => JNull
  end.

Definition asdict (c : SSHConfig) : json :=
  JObj [ ("name", JStr (name c));
         ("host", JStr (host c));
         ("port", JInt (port c));
         ("username", JStr (username c));
         ("password", json_of_opt (password c));
         ("key_path", json_of_opt (key_path c));
         ("group", json_of_opt (group c)) ].

(** The document [_save_config] serializes. *)
Definition document (cs : list SSHConfig) : json := JArr (map asdict cs).

(** [d.get(k)] on a decoded object. *)
Fixpoint dict_get (k : string) (kv : list (string * json)) : option json :=
  match kv with
  | [] => None
  | (k', v) :: rest => if String.eqb k' k then Some v else dict_get k rest
  end.

Definition field_names : list string :=
  ["name"; "host"; "port"; "username"; "password"; "key_path"; "group"].

Definition as_str (v : json) : option string :=
  match v with JStr s => Some s | _ => None end.

Definition as_int (v : json) : option Z :=
  match v with JInt n => Some n | _ => None end.

Definition as_opt_str (v : option json) : option (option string) :=
  match v with
  | None | Some JNull => Some None
  | Some (JStr s) => Some (Some s)
  | _ => None
  end.

(** [SSHConfig] called with the keywords of [config].  The call raises a
    [TypeError] unless [config] is a mapping whose keys are field names and
    include the four required ones.  Otherwise it returns an object: the
    dataclass checks no types and stores whatever values it is given.  The
    record of this embedding has the declared field types, so it holds the
    object when every value is of its declared type ([Built]); an object
    with a value of another type exists in the program but not here
    ([Untyped]).  ([_save_config] writes none: what it writes reads back as
    [Built].) *)
Inductive construction : Type :=
| Built (c : SSHConfig)
| Untyped
| BadCall.

Definition from_kwargs (v : json) : construction :=
  match v with
  | JObj kv =>
      if forallb (fun p => existsb (String.eqb (fst p)) field_names) kv then
        match dict_get "name" kv, dict_get "host" kv,
              dict_get "port" kv, dict_get "username" kv with
        | Some n, Some h, Some p, Some u =>
            match as_str n, as_str h, as_int p, as_str u,
                  as_opt_str (dict_get "password" kv),
                  as_opt_str (dict_get "key_path" kv),
                  as_opt_str (dict_get "group" kv) with
            | Some n, Some h, Some p, Some u, Some pw, Some kp, Some g =>
                Built (mkSSHConfig n h p u pw kp g)
            | _, _, _, _, _, _, _ => Untyped
            end
        | _, _, _, _ => BadCall
        end
      else BadCall
  | _ => BadCall
  end.

(** The objects of a list, when all of them are within the declared
    types. *)
Fixpoint all_typed {A} (l : list (option A)) : option (list A) :=
  match l with
  | [] => Some []
  | Some a :: l' => option_map (cons a) (all_typed l')
  | None :: _ => None
  end.

(** Iterating a decoded value ([for config in config_data]); [None] is the
    [TypeError] of a value that is not iterable. *)
Definition iterate (v : json) : option (list json) :=
  match v with
  | JArr l => Some l
  | JObj kv => Some (map (fun p => JStr (fst p)) kv)
  | JStr s => Some (map (fun c => JStr (String c EmptyString)) (list_ascii_of_string s))
  | _ => None
  end.

(** ** State and exceptions *)

Inductive Res (S A : Type) : Type :=
| Ok (a : A) (s : S)
| Raise (e : exn) (s : S).
Arguments Ok {S A} a s.
Arguments Raise {S A} e s.

Definition M (S A : Type) : Type := S -> Res S A.

Definition ret {S A} (a : A) : M S A := fun s => Ok a s.

Definition bind {S A B} (m : M S A) (k : A -> M S B) : M S B :=
  fun s => match m s with
           | Ok a s' => k a s'
           | Raise e s' => Raise e s'
           end.

Definition raise {S A} (e : exn) : M S A := fun s => Raise e s.

Definition gets {S A} (f : S -> A) : M S A := fun s => Ok (f s) s.

Definition modify {S} (f : S -> S) : M S unit := fun s => Ok tt (f s).

(** [try: m  except E as e: h e] where [handles] says which exceptions [E]
    covers. *)
Definition try_except {S A} (m : M S A) (handles : exn -> bool)
    (h : exn -> M S A) : M S A :=
  fun s => match m s with
           | Ok a s' => Ok a s'
           | Raise e s' => if handles e then h e s' else Raise e s'
           end.

(** Running a computation on a component of the state. *)
Definition zoom {S T A} (get : S -> T) (set : T -> S -> S) (m : M T A) : M S A :=
  fun s => match m (get s) with
           | Ok a t => Ok a (set t s)
           | Raise e t => Raise e (set t s)
           end.

Definition final_state {S A} (r : Res S A) : S :=
  match r with
  | Ok _ s => s
  | Raise _ s => s
  end.

(** ** The environment: files, and what the next system calls will do *)

Section Model.
Context {R : Runtime}.

Inductive file : Type :=
| Absent
| Unreadable
| Contents (b : bytes).

(** What a [write_bytes] call does: complete, fail before the file is opened
    (file untouched), or fail after the file was truncated, leaving [remains]. *)
Inductive write_outcome : Type :=
| Written
| Refused
| Torn (remains : bytes).

(** What [subprocess.Popen(...).wait()] does. *)
Inductive proc_outcome : Type :=
| Exited (code : Z)
| LaunchFailed (why : string).

Record Env : Type := mkEnv {
  dir_ok : bool;                      (* can [~/.ssh-manager] be created *)
  key_file : file;                    (* [~/.ssh-manager/.key] *)
  config_file : file;                 (* [~/.ssh-manager/config.json] *)
  nonces : list nat;                  (* consumed by key generation and encryption *)
  writes : list write_outcome;        (* consumed by [write_bytes]; then [Written] *)
  procs : list proc_outcome;          (* consumed by [Popen]; then [Exited 0] *)
  launched : list (list string * option string);  (* commands run, with SSHPASS *)
  stdout : list string                (* lines printed *)
}.

End Model.

Notation "x <- m ;; k" := (bind m (fun x => k))
  (at level 61, m at next level, right associativity).
Notation "m ;;; k" := (bind m (fun _ => k))
  (at level 61, right associativity).

(** ** SSHManager *)

Section Manager.
Context {R : Runtime}.

Record SSHManager : Type := mkSSHManager {
  key : bytes;
  configs : list SSHConfig
}.

(** A manager together with the environment it runs in. *)
Record World : Type := mkWorld {
  manager : SSHManager;
  env : Env
}.

Definition set_configs (cs : list SSHConfig) (w : World) : World :=
  mkWorld (mkSSHManager (key (manager w)) cs) (env w).

Definition set_env (e : Env) (w : World) : World := mkWorld (manager w) e.

Definition set_key_file (f : file) (e : Env) : Env :=
  mkEnv (dir_ok e) f (config_file e) (nonces e) (writes e) (procs e)
        (launched e) (stdout e).

Definition set_config_file (f : file) (e : Env) : Env :=
  mkEnv (dir_ok e) (key_file e) f (nonces e) (writes e) (procs e)
        (launched e) (stdout e).

Definition set_nonces (l : list nat) (e : Env) : Env :=
  mkEnv (dir_ok e) (key_file e) (config_file e) l (writes e) (procs e)
        (launched e) (stdout e).

Definition set_writes (l : list write_outcome) (e : Env) : Env :=
  mkEnv (dir_ok e) (key_file e) (config_file e) (nonces e) l (procs e)
        (launched e) (stdout e).

Definition set_procs (l : list proc_outcome) (e : Env) : Env :=
  mkEnv (dir_ok e) (key_file e) (config_file e) (nonces e) (writes e) l
        (launched e) (stdout e).

Definition add_launched (c : list string * option string) (e : Env) : Env :=
  mkEnv (dir_ok e) (key_file e) (config_file e) (nonces e) (writes e) (procs e)
        (launched e ++ [c]) (stdout e).

(** [print(line)]. *)
Definition print (line : string) : M Env unit :=
  modify (fun e =>
    mkEnv (dir_ok e) (key_file e) (config_file e) (nonces e) (writes e)
          (procs e) (launched e) (stdout e ++ [line])).

(** *** System calls *)

Definition next_nonce : M Env nat :=
  fun e => match nonces e with
           | [] => Ok 0%nat e
           | n :: rest => Ok n (set_nonces rest e)
           end.

(** [path.exists()]. *)
Definition file_exists (f : file) : bool :=
  match f with
  | Absent => false
  | _ => true
  end.

(** [path.read_bytes()]. *)
Definition read_bytes (sel : Env -> file) : M Env bytes :=
  fun e => match sel e with
           | Contents b => Ok b e
           | _ => Raise OSError e
           end.

(** [path.write_bytes(data)]: the file is opened for writing, which empties
    it, and the data is written; nothing makes the replacement atomic. *)
Definition write_bytes (set : file -> Env -> Env) (data : bytes) : M Env unit :=
  fun e => match writes e with
           | [] => Ok tt (set (Contents data) e)
           | Written :: rest => Ok tt (set (Contents data) (set_writes rest e))
           | Refused :: rest => Raise OSError (set_writes rest e)
           | Torn b :: rest => Raise OSError (set (Contents b) (set_writes rest e))
           end.

(** [config_dir.mkdir(parents=True, exist_ok=True)]. *)
Definition mkdir : M Env unit :=
  fun e => if dir_ok e then Ok tt e else Raise OSError e.

(** Lifting a library call that signals failure by [None]. *)
Definition or_raise {S A} (e : exn) (o : option A) : M S A :=
  match o with
  | Some a => ret a
  | None => raise e
  end.

Fixpoint mapM {S A B} (f : A -> M S B) (l : list A) : M S (list B) :=
  match l with
  | [] => ret []
  | a :: l' => b <- f a ;; bs <- mapM f l' ;; ret (b :: bs)
  end.

(** *** Key and registry files *)

(** [Fernet(key)] raises [ValueError] on a malformed key. *)
Definition _load_or_create_key : M Env bytes :=
  exists_ <- gets (fun e => file_exists (key_file e)) ;;
  k <- (if exists_ : bool then read_bytes key_file
        else n <- next_nonce ;;
             write_bytes set_key_file (generate_key n) ;;;
             ret (generate_key n)) ;;
  if valid_key k then ret k
  else raise (ValueError "Fernet key must be 32 url-safe base64-encoded bytes.").

(** The keyword call of [SSHConfig] in the comprehension of
    [_load_config]: the object when the record holds it, [None] for an
    object it does not hold. *)
Definition construct {S} (config : json) : M S (option SSHConfig) :=
  match from_kwargs config with
  | Built c => ret (Some c)
  | Untyped => ret None
  | BadCall => raise TypeError
  end.

(** The comprehension runs to its end or to the first [TypeError]; the
    embedding goes on from there only with objects it holds. *)
Definition _load_config (k : bytes) : M Env (list SSHConfig) :=
  exists_ <- gets (fun e => file_exists (config_file e)) ;;
  if exists_ : bool then
    encrypted_data <- read_bytes config_file ;;
    decrypted_data <- or_raise InvalidToken (decrypt k encrypted_data) ;;
    config_data <- or_raise JSONDecodeError (loads decrypted_data) ;;
    items <- or_raise TypeError (iterate config_data) ;;
    objects <- mapM construct items ;;
    or_raise Unmodelled (all_typed objects)
  else ret [].

(** [SSHManager()]. *)
Definition SSHManager_init : M Env SSHManager :=
  mkdir ;;;
  k <- _load_or_create_key ;;
  cs <- _load_config k ;;
  ret (mkSSHManager k cs).

Definition _save_config : M World unit :=
  cs <- gets (fun w => configs (manager w)) ;;
  k <- gets (fun w => key (manager w)) ;;
  n <- zoom env set_env next_nonce ;;
  zoom env set_env
    (write_bytes set_config_file (encrypt k n (dumps (document cs)))).

Definition remove_config (nm : string) : M World unit :=
  modify (fun w =>
    set_configs (filter (fun c => negb (String.eqb (name c) nm))
                        (configs (manager w))) w) ;;;
  _save_config.

Definition add_config (config : SSHConfig) : M World unit :=
  remove_config (name config) ;;;
  modify (fun w => set_configs (configs (manager w) ++ [config]) w) ;;;
  _save_config.

Definition get_config (cs : list SSHConfig) (nm : string) : option SSHConfig :=
  find (fun c => String.eqb (name c) nm) cs.

(** *** Group queries *)

Definition get_all_groups (cs : list SSHConfig) : list string :=
  Py.sorted_set
    (flat_map (fun c => if Py.truthy (group c)
                        then match group c with Some g => [g] | None => [] end
                        else []) cs).

Definition get_group_configs (cs : list SSHConfig) (group_path : option string)
    : list SSHConfig :=
  if negb (Py.truthy group_path) then
    filter (fun c => negb (Py.truthy (group c))) cs
  else
    filter (fun c => match group c, group_path with
                     | Some g, Some p => String.eqb g p
                     | _, _ => false
                     end) cs.

Definition get_parent_groups (group_path : option string) : list string :=
  match group_path with
  | Some p =>
      if Py.truthy group_path then
        snd (fold_left
               (fun (acc : string * list string) part =>
                  let current :=
                    match fst acc with
                    | EmptyString => part
                    | cur => cur ++ "/" ++ part
                    end%string in
                  (current, snd acc ++ [current]))
               (Py.but_last (Py.split "/" p)) (EmptyString, []))
      else []
  | None => []
  end.

Definition get_child_groups (cs : list SSHConfig) (group_path : option string)
    : list string :=
  match group_path with
  | Some p =>
      if Py.truthy group_path then
        filter (fun g =>
                  Py.startswith (p ++ "/")%string g
                  && negb (Py.contains "/" (Py.drop (String.length p + 1) g)))
               (get_all_groups cs)
      else filter (fun g => negb (Py.contains "/" g)) (get_all_groups cs)
  | None => filter (fun g => negb (Py.contains "/" g)) (get_all_groups cs)
  end.

Definition count_group_items (cs : list SSHConfig) (group_path : option string) : Z :=
  Py.len (get_group_configs cs group_path) + Py.len (get_child_groups cs group_path).

(** [get_group_tree]: nested dicts keyed by path segment, with the list of
    profiles of a group at the leaves.  A dict is kept in insertion order.
    [None] stands for the [TypeError] or [AttributeError] met when a path
    runs through a list, or ends on a dict. *)
#[warnings="-register-all"]
Inductive tree : Type :=
| Leaf (members : list SSHConfig)
| Node (children : list (string * tree)).

Fixpoint tree_get (k : string) (kv : list (string * tree)) : option tree :=
  match kv with
  | [] => None
  | (k', v) :: rest => if String.eqb k' k then Some v else tree_get k rest
  end.

Fixpoint tree_set (k : string) (v : tree) (kv : list (string * tree))
    : list (string * tree) :=
  match kv with
  | [] => [(k, v)]
  | (k', v') :: rest =>
      if String.eqb k' k then (k, v) :: rest else (k', v') :: tree_set k v rest
  end.

(** Appending [config] to the list stored under [k] of a dict. *)
Definition tree_append (k : string) (config : SSHConfig)
    (kv : list (string * tree)) : option (list (string * tree)) :=
  match tree_get k kv with
  | None => Some (tree_set k (Leaf [config]) kv)
  | Some (Leaf members) => Some (tree_set k (Leaf (members ++ [config])) kv)
  | Some (Node _) => None
  end.

Fixpoint tree_add (parts : list string) (config : SSHConfig) (current : tree)
    : option tree :=
  match current with
  | Leaf _ => None
  | Node kv =>
      match parts with
      | [] => None
      | [part] => option_map Node (tree_append part config kv)
      | part :: rest =>
          let sub := match tree_get part kv with
                     | None => Node []
                     | Some t => t
                     end in
          match tree_add rest config sub with
          | Some sub' => Some (Node (tree_set part sub' kv))
          | None => None
          end
      end
  end.

Definition get_group_tree (cs : list SSHConfig) : option tree :=
  fold_left
    (fun acc config =>
       match acc with
       | None => None
       | Some t =>
           match group config with
           | Some g =>
               if Py.truthy (group config)
               then tree_add (Py.split "/" g) config t
               else tree_add ["Ungrouped"] config t
           | None => tree_add ["Ungrouped"] config t
           end
       end)
    cs (Some (Node [])).

End Manager.

(** ** [decrypt_config]: the rendering printed by [--show-config] *)

Section Rendering.
Context {R : Runtime}.

Definition nl : string := String (ascii_of_nat 10) EmptyString.

(** [str(e)]. *)
Definition str_of_exn (e : exn) : string :=
  match e with
  | ValueError msg => msg
  | _ => exn_text e
  end.

(** The text an f-string inserts for a decoded value. *)
Definition py_str (v : json) : string :=
  match v with
  | JStr s => s
  | JInt n => Py.str_of_int n
  | JNull => "None"
  | JBool true => "True"
  | JBool false => "False"
  | _ => repr v
  end.

(** [bool(v)] for the result of [config.get(k)]. *)
Definition json_truthy (v : option json) : bool :=
  match v with
  | None | Some JNull | Some (JBool false) | Some (JInt 0)
  | Some (JStr EmptyString) | Some (JArr []) | Some (JObj []) => false
  | _ => true
  end.

(** [config[k]]. *)
Definition subscript {S} (config : json) (k : string) : M S json :=
  match config with
  | JObj kv => or_raise KeyError (dict_get k kv)
  | _ => raise TypeError
  end.

(** [config.get(k)]. *)
Definition get_method {S} (config : json) (k : string) : M S (option json) :=
  match config with
  | JObj kv => ret (dict_get k kv)
  | _ => raise AttributeError
  end.

Definition format_config {S} (config : json) : M S string :=
  n <- subscript config "name" ;;
  h <- subscript config "host" ;;
  p <- subscript config "port" ;;
  u <- subscript config "username" ;;
  pw <- get_method config "password" ;;
  kp <- get_method config "key_path" ;;
  g <- get_method config "group" ;;
  ret (Py.join nl
         ([ "Name: " ++ py_str n; "Host: " ++ py_str h;
            "Port: " ++ py_str p; "Username: " ++ py_str u ]%string
          ++ (if json_truthy pw then ["Password: [encrypted]"] else [])
          ++ (if json_truthy kp
              then match kp with
                   | Some v => ["Key Path: " ++ py_str v]%string
                   | None => []
                   end
              else [])
          ++ (if json_truthy g
              then match g with
                   | Some v => ["Group: " ++ py_str v]%string
                   | None => []
                   end
              else []))).

Definition decrypt_config : M World string :=
  exists_ <- gets (fun w => file_exists (config_file (env w))) ;;
  if negb exists_ then ret "No config file found."
  else
    try_except
      (encrypted_data <- zoom env set_env (read_bytes config_file) ;;
       k <- gets (fun w => key (manager w)) ;;
       decrypted_data <- or_raise InvalidToken (decrypt k encrypted_data) ;;
       config_data <- or_raise JSONDecodeError (loads decrypted_data) ;;
       items <- or_raise TypeError (iterate config_data) ;;
       formatted_data <- mapM format_config items ;;
       ret (Py.join (nl ++ nl) formatted_data))
      (fun _ => true)
      (fun e => ret ("Error decrypting config: " ++ str_of_exn e)%string).

End Rendering.

(** ** SSHManagerUI *)

(** [self.mode]: the strings "list", "add", "edit" and "confirm_delete". *)
Inductive Mode : Type :=
| mode_list
| mode_add
| mode_edit
| mode_confirm_delete.

(** The keys of [self.input_values], in the order of [self.input_fields]. *)
Inductive field : Type :=
| f_name | f_host | f_port | f_username | f_password | f_key_path | f_group.

Definition input_fields : list field :=
  [f_name; f_host; f_port; f_username; f_password; f_key_path; f_group].

(** [self.input_values]: a dict that always has exactly the seven keys. *)
Record Form : Type := mkForm {
  v_name : string;
  v_host : string;
  v_port : string;
  v_username : string;
  v_password : string;
  v_key_path : string;
  v_group : string
}.

Definition empty_form : Form :=
  mkForm EmptyString EmptyString EmptyString EmptyString EmptyString
         EmptyString EmptyString.

Definition get_value (f : field) (v : Form) : string :=
  match f with
  | f_name => v_name v | f_host => v_host v | f_port => v_port v
  | f_username => v_username v | f_password => v_password v
  | f_key_path => v_key_path v | f_group => v_group v
  end.

Definition set_value (f : field) (s : string) (v : Form) : Form :=
  match f with
  | f_name => mkForm s (v_host v) (v_port v) (v_username v) (v_password v) (v_key_path v) (v_group v)
  | f_host => mkForm (v_name v) s (v_port v) (v_username v) (v_password v) (v_key_path v) (v_group v)
  | f_port => mkForm (v_name v) (v_host v) s (v_username v) (v_password v) (v_key_path v) (v_group v)
  | f_username => mkForm (v_name v) (v_host v) (v_port v) s (v_password v) (v_key_path v) (v_group v)
  | f_password => mkForm (v_name v) (v_host v) (v_port v) (v_username v) s (v_key_path v) (v_group v)
  | f_key_path => mkForm (v_name v) (v_host v) (v_port v) (v_username v) (v_password v) s (v_group v)
  | f_group => mkForm (v_name v) (v_host v) (v_port v) (v_username v) (v_password v) (v_key_path v) s
  end.

(** The form filled from an existing profile (Enter or [e] on a profile). *)
Definition form_of_config (data : SSHConfig) : Form :=
  mkForm (name data) (host data) (Py.str_of_int (port data)) (username data)
         (Py.or_empty (password data)) (Py.or_empty (key_path data))
         (Py.or_empty (group data)).

(** Entries of [self.display_items]: [(label, item_type, data)]. *)
Inductive item_type : Type := type_dir | type_config.

Inductive item_data : Type :=
| data_none
| data_group (g : string)
| data_config (c : SSHConfig).

Definition item : Type := (string * item_type * item_data)%type.

(** Key codes: [curses.KEY_UP], [curses.KEY_DOWN], [curses.KEY_BACKSPACE]
    and [ord] of the command letters. *)
Definition KEY_UP : Z := 259.
Definition KEY_DOWN : Z := 258.
Definition KEY_BACKSPACE : Z := 263.
Definition KEY_ENTER : Z := 10.
Definition KEY_ESC : Z := 27.
Definition KEY_CTRL_T : Z := 20.
Definition KEY_DEL : Z := 127.
Definition ord (c : ascii) : Z := Z.of_nat (nat_of_ascii c).
Definition chr (k : Z) : string := String (ascii_of_nat (Z.to_nat k)) EmptyString.

(** What the loop reads: a key from [getch], or the interrupt signal that
    arrives while it waits. *)
Inductive input : Type :=
| Key (k : Z)
| Interrupt.

Section UI.
Context {R : Runtime}.

Record SSHManagerUI : Type := mkUI {
  ssh_manager : SSHManager;
  current_index : Z;
  mode : Mode;
  editing_config : option SSHConfig;
  current_field : Z;
  input_values : Form;
  message : string;
  message_timeout : Z;
  delete_confirm : option SSHConfig;
  current_path : list string;
  display_items : list item;
  password_visible : bool
}.

(** The interface object together with the environment it runs in. *)
Record Session : Type := mkSession {
  ui : SSHManagerUI;
  senv : Env
}.

Definition on_ui (f : SSHManagerUI -> SSHManagerUI) : M Session unit :=
  modify (fun s => mkSession (f (ui s)) (senv s)).

Definition set_ssh_manager (x : SSHManager) (u : SSHManagerUI) :=
  mkUI x (current_index u) (mode u) (editing_config u) (current_field u)
       (input_values u) (message u) (message_timeout u) (delete_confirm u)
       (current_path u) (display_items u) (password_visible u).
Definition set_current_index (x : Z) (u : SSHManagerUI) :=
  mkUI (ssh_manager u) x (mode u) (editing_config u) (current_field u)
       (input_values u) (message u) (message_timeout u) (delete_confirm u)
       (current_path u) (display_items u) (password_visible u).
Definition set_mode (x : Mode) (u : SSHManagerUI) :=
  mkUI (ssh_manager u) (current_index u) x (editing_config u) (current_field u)
       (input_values u) (message u) (message_timeout u) (delete_confirm u)
       (current_path u) (display_items u) (password_visible u).
Definition set_editing_config (x : option SSHConfig) (u : SSHManagerUI) :=
  mkUI (ssh_manager u) (current_index u) (mode u) x (current_field u)
       (input_values u) (message u) (message_timeout u) (delete_confirm u)
       (current_path u) (display_items u) (password_visible u).
Definition set_current_field (x : Z) (u : SSHManagerUI) :=
  mkUI (ssh_manager u) (current_index u) (mode u) (editing_config u) x
       (input_values u) (message u) (message_timeout u) (delete_confirm u)
       (current_path u) (display_items u) (password_visible u).
Definition set_input_values (x : Form) (u : SSHManagerUI) :=
  mkUI (ssh_manager u) (current_index u) (mode u) (editing_config u)
       (current_field u) x (message u) (message_timeout u) (delete_confirm u)
       (current_path u) (display_items u) (password_visible u).
Definition set_message (x : string) (u : SSHManagerUI) :=
  mkUI (ssh_manager u) (current_index u) (mode u) (editing_config u)
       (current_field u) (input_values u) x (message_timeout u)
       (delete_confirm u) (current_path u) (display_items u)
       (password_visible u).
Definition set_message_timeout (x : Z) (u : SSHManagerUI) :=
  mkUI (ssh_manager u) (current_index u) (mode u) (editing_config u)
       (current_field u) (input_values u) (message u) x (delete_confirm u)
       (current_path u) (display_items u) (password_visible u).
Definition set_delete_confirm (x : option SSHConfig) (u : SSHManagerUI) :=
  mkUI (ssh_manager u) (current_index u) (mode u) (editing_config u)
       (current_field u) (input_values u) (message u) (message_timeout u) x
       (current_path u) (display_items u) (password_visible u).
Definition set_current_path (x : list string) (u : SSHManagerUI) :=
  mkUI (ssh_manager u) (current_index u) (mode u) (editing_config u)
       (current_field u) (input_values u) (message u) (message_timeout u)
       (delete_confirm u) x (display_items u) (password_visible u).
Definition set_display_items (x : list item) (u : SSHManagerUI) :=
  mkUI (ssh_manager u) (current_index u) (mode u) (editing_config u)
       (current_field u) (input_values u) (message u) (message_timeout u)
       (delete_confirm u) (current_path u) x (password_visible u).
Definition set_password_visible (x : bool) (u : SSHManagerUI) :=
  mkUI (ssh_manager u) (current_index u) (mode u) (editing_config u)
       (current_field u) (input_values u) (message u) (message_timeout u)
       (delete_confirm u) (current_path u) (display_items u) x.

(** Calls on [self.ssh_manager] and on the environment. *)
Definition world_of (s : Session) : World := mkWorld (ssh_manager (ui s)) (senv s).
Definition set_world (w : World) (s : Session) : Session :=
  mkSession (set_ssh_manager (manager w) (ui s)) (env w).
Definition on_manager {A} (m : M World A) : M Session A := zoom world_of set_world m.
Definition on_env {A} (m : M Env A) : M Session A :=
  zoom senv (fun e s => mkSession (ui s) e) m.

(** [SSHManagerUI()]. *)
Definition SSHManagerUI_init : M Env SSHManagerUI :=
  m <- SSHManager_init ;;
  ret (mkUI m 0 mode_list None 0 empty_form EmptyString 0 None [] [] false).

Definition show_message (msg : string) : M Session unit :=
  on_ui (fun u => set_message_timeout 3 (set_message msg u)).

(** [_build_display_items], as a function of the registry and the path. *)
Definition current_group (path : list string) : option string :=
  match path with
  | [] => None
  | _ => Some (Py.join "/" path)
  end.

Definition up_item : item := ("..", type_dir, data_none).

Definition group_item (cs : list SSHConfig) (g : string) : item :=
  (Py.last_part (Py.split "/" g) ++ " ("
     ++ Py.str_of_int (count_group_items cs (Some g)) ++ ")",
   type_dir, data_group g)%string.

Definition config_item (c : SSHConfig) : item :=
  (name c ++ " (" ++ host c ++ ")", type_config, data_config c)%string.

Definition build_items (cs : list SSHConfig) (path : list string) : list item :=
  (match path with
   | [] => []
   | _ => [up_item]
   end)
  ++ map (group_item cs)
         (Py.sorted (fun g => g) (get_child_groups cs (current_group path)))
  ++ map config_item
         (Py.sorted name (get_group_configs cs (current_group path))).

Definition _build_display_items : M Session unit :=
  on_ui (fun u =>
    set_display_items (build_items (configs (ssh_manager u)) (current_path u)) u).

(** The footer of [draw_list] and [draw_confirm_delete]: a shown message
    counts down and is cleared at zero. *)
Definition tick_message : M Session unit :=
  on_ui (fun u =>
    match message u with
    | EmptyString => u
    | _ =>
        if 0 <? message_timeout u then
          let u' := set_message_timeout (message_timeout u - 1) u in
          if message_timeout u' =? 0 then set_message EmptyString u' else u'
        else u
    end).

(** What the drawing routines do to the object.  The writes to the window
    are left out and taken to succeed: [curses.error] is not raised here. *)
Definition draw_list : M Session unit :=
  _build_display_items ;;; tick_message.

Definition draw_add_form : M Session unit := ret tt.

Definition draw_confirm_delete : M Session unit :=
  dc <- gets (fun s => delete_confirm (ui s)) ;;
  match dc with
  | None => raise AttributeError
  | Some _ => tick_message
  end.

(** *** Launching the external client *)

Definition pop_proc : M Env proc_outcome :=
  fun e => match procs e with
           | [] => Ok (Exited 0) e
           | p :: rest => Ok p (set_procs rest e)
           end.

Definition client_command (prog port_flag : string) (config : SSHConfig)
    : list string * option string :=
  let cmd :=
    [prog; "-o"; "StrictHostKeyChecking=no"]
    ++ (if port config =? 22 then [] else [port_flag; Py.str_of_int (port config)])
    ++ (if Py.truthy (key_path config)
        then ["-i"; Py.or_empty (key_path config)] else [])
    ++ [(username config ++ "@" ++ host config)%string] in
  if Py.truthy (password config)
  then (["sshpass"; "-e"] ++ cmd, password config)
  else (cmd, None).

Definition connect (prog port_flag failed closed : string) (config : SSHConfig)
    : M Session unit :=
  on_env (modify (add_launched (client_command prog port_flag config))) ;;;
  p <- on_env pop_proc ;;
  match p with
  | Exited code =>
      if code =? 0 then show_message closed
      else if code =? 6
           then show_message "Authentication failed - check username and password"
           else show_message (failed ++ " failed with exit code " ++ Py.str_of_int code)%string
  | LaunchFailed why =>
      on_env (print (failed ++ " failed: " ++ why)%string) ;;;
      if Py.truthy (password config) then
        on_env (print "Note: Make sure 'sshpass' is installed on your system.") ;;;
        on_env (print "On Ubuntu/Debian: sudo apt-get install sshpass") ;;;
        on_env (print "On Fedora: sudo dnf install sshpass") ;;;
        on_env (print "On Arch: sudo pacman -S sshpass")
      else ret tt
  end.

Definition connect_to_ssh : SSHConfig -> M Session unit :=
  connect "ssh" "-p" "Connection" "Connection closed".

Definition connect_to_sftp : SSHConfig -> M Session unit :=
  connect "sftp" "-P" "SFTP connection" "SFTP connection closed".

(** *** The key handlers *)

(** [data.name] and the like need [data] to be a profile. *)
Definition as_config {S} (d : item_data) : M S SSHConfig :=
  match d with
  | data_config c => ret c
  | _ => raise AttributeError
  end.

Definition selected_item : M Session item :=
  items <- gets (fun s => display_items (ui s)) ;;
  i <- gets (fun s => current_index (ui s)) ;;
  or_raise IndexError (Py.index items i).

Definition start_edit (d : item_data) : M Session unit :=
  data <- as_config d ;;
  on_ui (fun u =>
    set_current_field 0
      (set_input_values (form_of_config data)
         (set_mode mode_edit (set_editing_config (Some data) u)))).

Definition handle_list_input (k : Z) : M Session bool :=
  i <- gets (fun s => current_index (ui s)) ;;
  items <- gets (fun s => display_items (ui s)) ;;
  path <- gets (fun s => current_path (ui s)) ;;
  let nonempty := negb (Py.len items =? 0) in
  if (k =? KEY_UP) && (0 <? i) then
    on_ui (set_current_index (i - 1)) ;;; ret true
  else if (k =? KEY_DOWN) && (i <? Py.len items - 1) then
    on_ui (set_current_index (i + 1)) ;;; ret true
  else if k =? KEY_ENTER then
    (if nonempty then
       it <- selected_item ;;
       match it with
       | (label, type_dir, _) =>
           if String.eqb label ".." then
             match path with
             | [] => ret tt
             | _ => on_ui (fun u => set_current_index 0
                                      (set_current_path (Py.but_last path) u))
             end
           else
             on_ui (fun u => set_current_index 0
                               (set_current_path (path ++ [Py.before " (" label]) u))
       | (_, type_config, data) => start_edit data
       end
     else ret tt) ;;; ret true
  else if k =? ord "a" then
    on_ui (fun u =>
      set_current_field 0
        (set_input_values
           (match path with
            | [] => empty_form
            | _ => set_value f_group (Py.join "/" path) empty_form
            end)
           (set_mode mode_add u))) ;;; ret true
  else if (k =? ord "e") && nonempty then
    it <- selected_item ;;
    match it with
    | (_, type_config, data) => start_edit data
    | _ => ret tt
    end ;;; ret true
  else if (k =? ord "d") && nonempty then
    it <- selected_item ;;
    match it with
    | (_, type_config, data) =>
        on_ui (fun u => set_delete_confirm
                          (match data with data_config c => Some c | _ => None end)
                          (set_mode mode_confirm_delete u))
    | _ => ret tt
    end ;;; ret true
  else if k =? ord "q" then ret false
  else if (k =? ord "c") && nonempty then
    it <- selected_item ;;
    match it with
    | (_, type_config, d) =>
        data <- as_config d ;;
        show_message ("Connecting to " ++ host data ++ "...")%string ;;;
        connect_to_ssh data
    | _ => ret tt
    end ;;; ret true
  else if (k =? ord "s") && nonempty then
    it <- selected_item ;;
    match it with
    | (_, type_config, d) =>
        data <- as_config d ;;
        show_message ("Starting SFTP session with " ++ host data ++ "...")%string ;;;
        connect_to_sftp data
    | _ => ret tt
    end ;;; ret true
  else ret true.

(** [int(self.input_values["port"])]. *)
Definition parse_port {S} (s : string) : M S Z :=
  match Py.int_of_str s with
  | Py.Int n => ret n
  | Py.NotInt => raise (ValueError (int_error s))
  | Py.NonAscii => raise Unmodelled
  end.

(** The profile the Enter branch builds from the form, once the port is
    parsed: empty optional fields become [None]. *)
Definition profile_of_form (v : Form) (p : Z) : SSHConfig :=
  mkSSHConfig (v_name v) (v_host v) p (v_username v)
              (Py.or_none (v_password v)) (Py.or_none (v_key_path v))
              (Py.or_none (v_group v)).

(** The body of the [try] of the Enter branch. *)
Definition submit : M Session unit :=
  v <- gets (fun s => input_values (ui s)) ;;
  p <- parse_port (v_port v) ;;
  let config := profile_of_form v p in
  m <- gets (fun s => mode (ui s)) ;;
  match m with
  | mode_edit =>
      ec <- gets (fun s => editing_config (ui s)) ;;
      old <- or_raise AttributeError ec ;;
      on_manager (remove_config (name old)) ;;;
      on_manager (add_config config) ;;;
      show_message ("Updated connection: " ++ name config)%string
  | _ =>
      on_manager (add_config config) ;;;
      show_message ("Added connection: " ++ name config)%string
  end ;;;
  on_ui (fun u => set_editing_config None (set_mode mode_list u)).

Definition current_input_field : M Session field :=
  cf <- gets (fun s => current_field (ui s)) ;;
  or_raise IndexError (Py.index input_fields cf).

Definition handle_add_input (k : Z) : M Session bool :=
  cf <- gets (fun s => current_field (ui s)) ;;
  (if (k =? KEY_UP) && (0 <? cf) then
     on_ui (set_current_field (cf - 1))
   else if (k =? KEY_DOWN) && (cf <? Py.len input_fields - 1) then
     on_ui (set_current_field (cf + 1))
   else if k =? KEY_ESC then
     on_ui (fun u => set_editing_config None (set_mode mode_list u))
   else if k =? KEY_CTRL_T then
     f <- current_input_field ;;
     match f with
     | f_password =>
         on_ui (fun u => set_password_visible (negb (password_visible u)) u)
     | _ => ret tt
     end
   else if k =? KEY_ENTER then
     try_except submit is_ValueError
       (fun e => show_message ("Error: " ++ str_of_exn e)%string)
   else if (32 <=? k) && (k <=? 126) then
     f <- current_input_field ;;
     on_ui (fun u =>
       set_input_values
         (set_value f (get_value f (input_values u) ++ chr k)%string
                    (input_values u)) u)
   else if (k =? KEY_BACKSPACE) || (k =? KEY_DEL) then
     f <- current_input_field ;;
     on_ui (fun u =>
       set_input_values
         (set_value f (Py.chop (get_value f (input_values u)))
                    (input_values u)) u)
   else ret tt) ;;;
  ret true.

Definition handle_confirm_delete (k : Z) : M Session bool :=
  if k =? ord "y" then
    dc <- gets (fun s => delete_confirm (ui s)) ;;
    config <- or_raise AttributeError dc ;;
    on_manager (remove_config (name config)) ;;;
    on_ui (fun u =>
      if Py.len (display_items u) <=? current_index u
      then set_current_index (Z.max 0 (Py.len (display_items u) - 1)) u
      else u) ;;;
    show_message ("Deleted connection: " ++ name config)%string ;;;
    on_ui (fun u => set_delete_confirm None (set_mode mode_list u)) ;;;
    ret true
  else if (k =? ord "n") || (k =? KEY_ESC) then
    show_message "Deletion cancelled" ;;;
    on_ui (fun u => set_delete_confirm None (set_mode mode_list u)) ;;;
    ret true
  else ret true.

(** *** The loop and the entry point *)

(** The drawing routine and the handler that [run] picks for a mode. *)
Definition draw (m : Mode) : M Session unit :=
  match m with
  | mode_list => draw_list
  | mode_add | mode_edit => draw_add_form
  | mode_confirm_delete => draw_confirm_delete
  end.

Definition handle (m : Mode) (k : Z) : M Session bool :=
  match m with
  | mode_list => handle_list_input k
  | mode_add | mode_edit => handle_add_input k
  | mode_confirm_delete => handle_confirm_delete k
  end.

(** One turn of the loop of [run]: draw, read, handle.  The result says
    whether the loop goes on. *)
Definition turn (i : input) : M Session bool :=
  m <- gets (fun s => mode (ui s)) ;;
  draw m ;;;
  match i with
  | Key k => handle m k
  | Interrupt =>
      on_ui (set_mode mode_list) ;;;
      show_message "Operation cancelled" ;;;
      ret true
  end.

(** [run] on the inputs that arrive; [true] when it has consumed them all
    and waits for more, [false] when it has returned. *)
Fixpoint run (inputs : list input) : M Session bool :=
  match inputs with
  | [] => ret true
  | i :: rest =>
      running <- turn i ;;
      if running : bool then run rest else ret false
  end.

(** How the process ends: an exit code, or still reading input; [Unknown]
    where the embedding has stopped at [Unmodelled]. *)
Inductive ending : Type :=
| Exit (code : Z)
| Waiting
| Unknown.

(** An exception that nothing catches ends the interpreter with exit code
    1. *)
Definition uncaught (x : exn) (e : Env) : ending * Env :=
  match x with
  | Unmodelled => (Unknown, e)
  | _ => (Exit 1, e)
  end.

(** [except Exception as e] around [curses.wrapper(ui.run)]. *)
Definition report (x : exn) (e : Env) : ending * Env :=
  match x with
  | Unmodelled => (Unknown, e)
  | _ => (Exit 1, final_state (print ("Error: " ++ str_of_exn x)%string e))
  end.

(** [main()], given whether [--show-config] was passed. *)
Definition main (show_config : bool) (inputs : list input) (e : Env)
    : ending * Env :=
  if show_config then
    match SSHManager_init e with
    | Raise x e1 => uncaught x e1
    | Ok m e1 =>
        match decrypt_config (mkWorld m e1) with
        | Raise x w => uncaught x (env w)
        | Ok text w => (Exit 0, final_state (print text (env w)))
        end
    end
  else
    match SSHManagerUI_init e with
    | Raise x e1 => uncaught x e1
    | Ok u e1 =>
        match run inputs (mkSession u e1) with
        | Ok true s => (Waiting, senv s)
        | Ok false s => (Exit 0, senv s)
        | Raise x s => report x (senv s)
        end
    end.

End UI.

(** ** The events of the specification and the keys bound to them *)

Inductive event : Type :=
| MoveUp | MoveDown | Activate | StartCreate | StartEdit | StartDelete
| Connect | ConnectSftp | Quit
| AppendChar (k : Z) | Backspace | ToggleSecretVisibility | Cancel | Submit
| Confirm | Deny.

(** The key table of each mode, as the handlers and the help lines have it.
    [None]: the key is bound to nothing in that mode. *)
Definition event_of_key (m : Mode) (k : Z) : option event :=
  match m with
  | mode_list =>
      if k =? KEY_UP then Some MoveUp
      else if k =? KEY_DOWN then Some MoveDown
      else if k =? KEY_ENTER then Some Activate
      else if k =? ord "a" then Some StartCreate
      else if k =? ord "e" then Some StartEdit
      else if k =? ord "d" then Some StartDelete
      else if k =? ord "q" then Some Quit
      else if k =? ord "c" then Some Connect
      else if k =? ord "s" then Some ConnectSftp
      else None
  | mode_add | mode_edit =>
      if k =? KEY_UP then Some MoveUp
      else if k =? KEY_DOWN then Some MoveDown
      else if k =? KEY_ESC then Some Cancel
      else if k =? KEY_CTRL_T then Some ToggleSecretVisibility
      else if k =? KEY_ENTER then Some Submit
      else if (32 <=? k) && (k <=? 126) then Some (AppendChar k)
      else if (k =? KEY_BACKSPACE) || (k =? KEY_DEL) then Some Backspace
      else None
  | mode_confirm_delete =>
      if k =? ord "y" then Some Confirm
      else if k =? ord "n" then Some Deny
      else if k =? KEY_ESC then Some Cancel
      else None
  end.

(** ** A runtime to compute with

    Keys are eight-character strings, a plaintext is the document itself and
    a token records the key and nonce it was made with. *)
Inductive sample_bytes : Type :=
| Raw (s : string)
| Plain (v : json)
| Sealed (k : string) (nonce : nat) (m : sample_bytes).

Definition sample_runtime : Runtime := {|
  bytes := sample_bytes;
  generate_key := fun n => Raw (String (ascii_of_nat (65 + n)) "-secret");
  valid_key := fun b => match b with
                        | Raw s => Nat.eqb (String.length s) 8
                        | _ => false
                        end;
  encrypt := fun k n m => match k with
                          | Raw s => Sealed s n m
                          | _ => Raw "malformed"
                          end;
  decrypt := fun k t => match k, t with
                        | Raw s, Sealed s' _ m =>
                            if String.eqb s s' then Some m else None
                        | _, _ => None
                        end;
  dumps := Plain;
  loads := fun b => match b with Plain v => Some v | _ => None end;
  repr := fun v => match v with
                   | JStr s => ("'" ++ s ++ "'")%string
                   | _ => "..."
                   end;
  int_error := fun s =>
    ("invalid literal for int() with base 10: '" ++ s ++ "'")%string;
  exn_text := fun _ => "error"
|}.

(** ** What is assumed of the libraries

    A token made with a valid key decrypts, under that key, to what was
    encrypted; the documents [_save_config] serializes parse back to
    themselves. *)
Class RuntimeLaws (R : Runtime) : Prop := {
  decrypt_encrypt :
    forall k n m, valid_key k = true -> decrypt k (encrypt k n m) = Some m;
  loads_dumps :
    forall cs, loads (dumps (document cs)) = Some (document cs)
}.

(** Every [write_bytes] the environment still has in store completes. *)
Definition writes_succeed {R : Runtime} (e : Env) : Prop :=
  Forall (fun o => o = Written) (writes e).

(** The profiles named [nm], and the rest. *)
Definition named (nm : string) (c : SSHConfig) : bool := String.eqb (name c) nm.
Definition others (nm : string) (cs : list SSHConfig) : list SSHConfig :=
  filter (fun c => negb (String.eqb (name c) nm)) cs.

(** ** Sample data *)

Definition sample_key : @bytes sample_runtime := Raw "A-secret".

Definition web : SSHConfig :=
  mkSSHConfig "web" "10.0.0.5" 22 "deploy" None None None.
Definition db : SSHConfig :=
  mkSSHConfig "db" "10.0.0.9" 5432 "admin" (Some "hunter2") None None.
Definition web2 : SSHConfig :=
  mkSSHConfig "web" "10.0.0.6" 2222 "root" None (Some "~/.ssh/id_web") None.

(** The token [_save_config] writes for [cs] under [sample_key]. *)
Definition sample_token (cs : list SSHConfig) : @bytes sample_runtime :=
  Sealed "A-secret" 0 (Plain (document cs)).

(** An environment whose registry file holds [cs], with the given script of
    write outcomes. *)
Definition sample_env (cs : list SSHConfig)
    (ws : list (@write_outcome sample_runtime)) : @Env sample_runtime :=
  mkEnv true (Contents sample_key) (Contents (sample_token cs)) [] ws [] [] [].

(** A write that breaks off, leaving a fragment in the file. *)
Definition sample_fragment : @bytes sample_runtime := Raw "A-se".
Definition sample_torn : @write_outcome sample_runtime :=
  @Torn sample_runtime sample_fragment.

(** The manager that has loaded [cs] from that environment. *)
Definition sample_world (cs : list SSHConfig)
    (ws : list (@write_outcome sample_runtime)) : @World sample_runtime :=
  mkWorld (mkSSHManager sample_key cs) (sample_env cs ws).

(** An environment whose registry file was written under another key. *)
Definition other_key : @bytes sample_runtime := Raw "B-secret".
Definition foreign_env : @Env sample_runtime :=
  mkEnv true (Contents other_key) (Contents (sample_token [web; db]))
        [] [] [] [] [].

(** The interface as [SSHManagerUI()] leaves it after loading [cs]. *)
Definition sample_session (cs : list SSHConfig)
    (ws : list (@write_outcome sample_runtime)) : @Session sample_runtime :=
  mkSession
    (mkUI (mkSSHManager sample_key cs) 0 mode_list None 0 empty_form
          EmptyString 0 None [] [] false)
    (sample_env cs ws).

(** The keys of a typed text. *)
Definition typed (s : string) : list input :=
  map (fun c => Key (ord c)) (list_ascii_of_string s).

(** The session after a successful submit: the message aside, it is back in
    list mode with nothing being edited, and holds the world [w]. *)
Definition submitted {R : Runtime} (msg : string) (w : World) (s : Session)
    : Session :=
  mkSession
    (set_editing_config None
       (set_mode mode_list
          (set_message_timeout 3
             (set_message msg (set_ssh_manager (manager w) (ui s))))))
    (env w).

(** The form of a new connection in which the port field reads [text] and
    every other field is empty. *)
Definition sample_form (text : string) (cs : list SSHConfig) : @Session sample_runtime :=
  mkSession
    (set_input_values (set_value f_port text empty_form)
       (set_current_field 2 (set_mode mode_add (ui (sample_session cs [])))))
    (sample_env cs []).

(** Two profiles in sibling groups under a group that holds no profile. *)
Definition api : SSHConfig :=
  mkSSHConfig "api" "10.1.0.1" 22 "ops" None None (Some "a/b").
Definition cache : SSHConfig :=
  mkSSHConfig "cache" "10.1.0.2" 22 "ops" None None (Some "a/c").

(** The sample session once the list has been drawn. *)
Definition drawn_session (cs : list SSHConfig) : @Session sample_runtime :=
  final_state (draw_list (sample_session cs [])).

(** Keys in ascending order. *)
Definition ascending {A : Type} (key : A -> string) : list A -> Prop :=
  StronglySorted (fun a b => String.leb (key a) (key b) = true).

(** What an entry of the listing is ordered by: its kind, and the group
    path or the profile name. *)
Definition sort_key (it : item) : item_type * string :=
  match it with
  | (label, ty, data_none) => (ty, label)
  | (_, ty, data_group g) => (ty, g)
  | (_, ty, data_config c) => (ty, name c)
  end.






(** [m] takes every state to a state related to it by [P], whether it
    returns or raises. *)
Definition keeps {S A : Type} (P : S -> S -> Prop) (m : M S A) : Prop :=
  forall s, P s (final_state (m s)).

(** An entry of kind "config" carries a profile. *)
Definition well_formed_item (it : item) : Prop :=
  match it with
  | (_, type_config, data_config _) => True
  | (_, type_config, _) => False
  | (_, type_dir, _) => True
  end.

(** What holds of the interface between two turns of the loop: names are
    unique, the field cursor is on one of the seven fields, the selection is
    not negative, a profile is being edited in edit mode and one is awaiting
    deletion in confirm mode, and the listing is well formed. *)
Definition session_ok {R : Runtime} (s : Session) : Prop :=
  NoDup (map name (configs (ssh_manager (ui s))))
  /\ 0 <= current_field (ui s) <= 6
  /\ 0 <= current_index (ui s)
  /\ (mode (ui s) = mode_edit -> editing_config (ui s) <> None)
  /\ (mode (ui s) = mode_confirm_delete -> delete_confirm (ui s) <> None)
  /\ Forall well_formed_item (display_items (ui s)).

(** Two interface objects that differ at most in the message and its
    timeout. *)
Definition same_but_message {R : Runtime} (u u' : SSHManagerUI) : Prop :=
  set_message EmptyString (set_message_timeout 0 u')
  = set_message EmptyString (set_message_timeout 0 u).

(** Two sessions with the same navigation state, the mode apart: path,
    selection, form and its cursor, profile being edited, profile awaiting
    deletion; and with the same registry in memory and the same
    environment. *)
Definition same_position {R : Runtime} (s s' : Session) : Prop :=
  current_path (ui s') = current_path (ui s)
  /\ current_index (ui s') = current_index (ui s)
  /\ input_values (ui s') = input_values (ui s)
  /\ current_field (ui s') = current_field (ui s)
  /\ editing_config (ui s') = editing_config (ui s)
  /\ delete_confirm (ui s') = delete_confirm (ui s)
  /\ ssh_manager (ui s') = ssh_manager (ui s)
  /\ senv s' = senv s.

(** A turn of the loop on input [i] leaves the navigation state, the
    registry and the environment as they were. *)
Definition ignored {R : Runtime} (i : input) (s : Session) : Prop :=
  mode (ui (final_state (turn i s))) = mode (ui s)
  /\ same_position s (final_state (turn i s)).

(** [g] is one segment below [parent]; the empty [parent] is the root. *)
Definition direct_child (parent g : string) : Prop :=
  match parent with
  | EmptyString => Py.contains "/" g = false
  | _ => exists seg, g = (parent ++ "/" ++ seg)%string
                     /\ Py.contains "/" seg = false
  end.

(** The exception of a result, if it is one, satisfies [E]. *)
Definition raises_only {S A : Type} (E : exn -> Prop) (r : Res S A) : Prop :=
  match r with
  | Raise x _ => E x
  | Ok _ _ => True
  end.

(** "If the session was in order, it still is." *)
Definition stays_ok {R : Runtime} (s s' : Session) : Prop :=
  session_ok s -> session_ok s'.

(** An [int] that [int] reads back from its text: one of at most 4300
    digits.  The program holds no other: its ports come from [int] or from
    [json.loads], which has the same limit. *)
Definition convertible (n : Z) : Prop :=
  (Py.count_digits (list_ascii_of_string (Py.str_of_int n))
   <= Py.max_str_digits)%nat.

(** The characters of a decimal numeral. *)
Definition uint_chars (d : Decimal.uint) : list ascii :=
  list_ascii_of_string (NilEmpty.string_of_uint d).

(** A text made of the characters the form accepts as typed keys. *)
Definition printable (t : string) : Prop :=
  Forall (fun c => 32 <= ord c <= 126) (list_ascii_of_string t).

(** A profile in a group of one segment. *)
Definition vpn : SSHConfig :=
  mkSSHConfig "vpn" "10.2.0.1" 22 "ops" None None (Some "office").

(** The form opened on [web] with a character typed after its name. *)
Definition renaming_session : @Session sample_runtime :=
  final_state (run (Key KEY_DOWN :: Key (ord "e") :: typed "2")
                   (sample_session [web; db] [])).

(** The path under which [get_group_tree] files a profile. *)
Definition tree_path (c : SSHConfig) : list string :=
  match group c with
  | Some g => if Py.truthy (group c) then Py.split "/" g else ["Ungrouped"%string]
  | None => ["Ungrouped"%string]
  end.

(** One round of the loop of [get_group_tree]. *)
Definition tree_step (acc : option tree) (config : SSHConfig) : option tree :=
  match acc with
  | None => None
  | Some t => tree_add (tree_path config) config t
  end.

(** [tree[p1][p2]...]: what is found along a path, if the path exists. *)
Fixpoint subtree (parts : list string) (t : tree) : option tree :=
  match parts with
  | [] => Some t
  | p :: rest =>
      match t with
      | Node kv =>
          match tree_get p kv with
          | Some t' => subtree rest t'
          | None => None
          end
      | Leaf _ => None
      end
  end.

(** The profiles listed at a path; none when the path does not end on a
    list. *)
Definition members (parts : list string) (t : tree) : list SSHConfig :=
  match subtree parts t with
  | Some (Leaf m) => m
  | _ => []
  end.

Fixpoint same_path (P Q : list string) : bool :=
  match P, Q with
  | [], [] => true
  | p :: P', q :: Q' => String.eqb p q && same_path P' Q'
  | _, _ => false
  end.

(** Two profiles of which one's path goes through the end of the other's. *)
Definition proper_prefix (P Q : list string) : Prop :=
  exists R, R <> [] /\ Q = P ++ R.

Definition conflict (cs : list SSHConfig) : Prop :=
  exists c1 c2,
    In c1 cs /\ In c2 cs /\ proper_prefix (tree_path c1) (tree_path c2).

(** What [get_group_tree] has built after the profiles [done]: a dict whose
    lists hold the profiles of their path, in order, none of them empty,
    and whose inner dicts all lead to a list. *)
Definition tree_inv (done : list SSHConfig) (t : tree) : Prop :=
  (exists kv, t = Node kv)
  /\ (forall P, members P t = filter (fun c => same_path P (tree_path c)) done)
  /\ (forall P m, subtree P t = Some (Leaf m) -> m <> [])
  /\ (forall P kv, P <> [] -> subtree P t = Some (Node kv) ->
        exists R, R <> [] /\ members (P ++ R) t <> []).

(** The registry in memory and the two files are the same in both
    sessions. *)
Definition same_store {R : Runtime} (s s' : Session) : Prop :=
  ssh_manager (ui s') = ssh_manager (ui s)
  /\ key_file (senv s') = key_file (senv s)
  /\ config_file (senv s') = config_file (senv s).

(** The beginnings of a list, shortest first, the empty one left out. *)
Fixpoint prefixes {A : Type} (l : list A) : list (list A) :=
  match l with
  | [] => []
  | x :: l' => [x] :: map (cons x) (prefixes l')
  end.

(** A profile in a group below the group of [vpn]. *)
Definition lab : SSHConfig :=
  mkSSHConfig "lab" "10.2.0.2" 22 "ops" None None (Some "office/lab").

(** Keys of a session that looks around, starts things and leaves them. *)
Definition browsing_keys : list input :=
  [Key KEY_DOWN; Key (ord "d"); Key (ord "n"); Key (ord "a"); Key (ord "x");
   Key KEY_ESC; Key (ord "c"); Interrupt; Key (ord "e"); Key KEY_ESC;
   Key (ord "q")].

(** The sample session with the last entry of its listing selected. *)
Definition last_selected : @Session sample_runtime :=
  final_state (run [Key KEY_DOWN] (sample_session [web; db] [])).

(** The drawn sample session on a machine where the client cannot be
    started. *)
Definition no_sshpass_session : @Session sample_runtime :=
  mkSession (ui (drawn_session [web; db]))
    (mkEnv true (Contents sample_key) (Contents (sample_token [web; db]))
           [] [] [LaunchFailed "[Errno 2] No such file or directory: 'sshpass'"]
           [] []).

(** * Properties *)

Section RegistryFacts.
Context {R : Runtime}.

Lemma save_keeps_manager (w : World) :
  manager (final_state (_save_config w)) = manager w.
Proof.
  unfold _save_config, bind, gets, zoom, next_nonce, write_bytes.
  destruct w as [m e]; simpl.
  destruct (nonces e); simpl;
    (destruct (writes e) as [|[| |b] ws]; simpl; reflexivity).
Qed.

(** A save whose write completes leaves the token of the current profiles
    in the registry file and touches nothing else but the scripts. *)
Lemma save_succeeds (w : World) :
  writes_succeed (env w) ->
  exists n e',
    _save_config w = Ok tt (mkWorld (manager w) e')
    /\ config_file e' =
         Contents (encrypt (key (manager w)) n (dumps (document (configs (manager w)))))
    /\ key_file e' = key_file (env w)
    /\ writes_succeed e'.
Proof.
  unfold writes_succeed, _save_config, bind, gets, zoom, next_nonce, write_bytes.
  destruct w as [m e]; simpl. intros Hw.
  destruct (nonces e) as [|n ns]; simpl.
  - exists 0%nat.
    destruct (writes e) as [|o ws] eqn:E; simpl.
    + eexists; repeat split; simpl; rewrite ?E; auto.
    + inversion Hw; subst. eexists; repeat split; simpl; auto.
  - exists n.
    destruct (writes e) as [|o ws] eqn:E; simpl.
    + eexists; repeat split; simpl; rewrite ?E; auto.
    + inversion Hw; subst. eexists; repeat split; simpl; auto.
Qed.

Lemma remove_config_final (nm : string) (w : World) :
  configs (manager (final_state (remove_config nm w)))
  = others nm (configs (manager w)).
Proof.
  unfold remove_config, bind, modify.
  pose proof (save_keeps_manager
    (set_configs (filter (fun c => negb (name c =? nm)%string)
                         (configs (manager w))) w)) as H.
  destruct (_save_config _); simpl in *; rewrite H; reflexivity.
Qed.

Lemma remove_config_succeeds (nm : string) (w : World) :
  writes_succeed (env w) ->
  exists w',
    remove_config nm w = Ok tt w'
    /\ configs (manager w') = others nm (configs (manager w))
    /\ key (manager w') = key (manager w)
    /\ writes_succeed (env w').
Proof.
  intros Hw. unfold remove_config, bind, modify.
  destruct (save_succeeds
    (set_configs (filter (fun c => negb (name c =? nm)%string)
                         (configs (manager w))) w) Hw)
    as (n & e' & Hs & _ & _ & Hw').
  rewrite Hs. eexists; repeat split; simpl; auto.
Qed.

Lemma add_config_succeeds (p : SSHConfig) (w : World) :
  writes_succeed (env w) ->
  exists w',
    add_config p w = Ok tt w'
    /\ configs (manager w') = others (name p) (configs (manager w)) ++ [p]
    /\ key (manager w') = key (manager w)
    /\ writes_succeed (env w').
Proof.
  intros Hw. unfold add_config, bind at 1.
  destruct (remove_config_succeeds (name p) w Hw) as (w1 & H1 & Hc1 & Hk1 & Hw1).
  rewrite H1. unfold bind, modify.
  destruct (save_succeeds (set_configs (configs (manager w1) ++ [p]) w1) Hw1)
    as (n & e' & Hs & _ & _ & Hw').
  rewrite Hs. eexists; repeat split; simpl; auto.
  now rewrite Hc1.
Qed.

(** Whatever becomes of the two saves, [add_config] leaves the profiles with
    the others intact and at most the new one after them. *)
Lemma add_config_final (p : SSHConfig) (w : World) :
  exists tail,
    configs (manager (final_state (add_config p w)))
    = others (name p) (configs (manager w)) ++ tail
    /\ (tail = [] \/ tail = [p]).
Proof.
  unfold add_config, bind at 1.
  pose proof (remove_config_final (name p) w) as H1.
  destruct (remove_config (name p) w) as [[] w1|e w1]; simpl in *.
  - exists [p]. split; auto. unfold bind, modify.
    pose proof (save_keeps_manager (set_configs (configs (manager w1) ++ [p]) w1)) as H2.
    destruct (_save_config _); simpl in *; rewrite H2; simpl; now rewrite H1.
  - exists []. rewrite app_nil_r. auto.
Qed.

Lemma others_named_nil (nm : string) (cs : list SSHConfig) :
  filter (named nm) (others nm cs) = [].
Proof.
  unfold others, named. induction cs as [|c cs IH]; simpl; auto.
  destruct (name c =? nm)%string eqn:E; simpl; auto.
  now rewrite E.
Qed.

Lemma others_idem (nm : string) (cs : list SSHConfig) :
  others nm (others nm cs) = others nm cs.
Proof.
  unfold others. induction cs as [|c cs IH]; simpl; auto.
  destruct (name c =? nm)%string eqn:E; simpl; auto.
  now rewrite E, IH.
Qed.

Lemma others_app (nm : string) (a b : list SSHConfig) :
  others nm (a ++ b) = others nm a ++ others nm b.
Proof. unfold others. apply filter_app. Qed.

Lemma names_others_NoDup (nm : string) (cs : list SSHConfig) :
  NoDup (map name cs) -> NoDup (map name (others nm cs)).
Proof.
  unfold others. induction cs as [|c cs IH]; simpl; intros H; auto.
  inversion H as [|x l Hn Hd]; subst.
  destruct (name c =? nm)%string; simpl; auto.
  constructor; auto.
  intros Hin. apply Hn. apply in_map_iff in Hin. destruct Hin as (c' & E & Hc').
  apply filter_In in Hc'. apply in_map_iff. exists c'. tauto.
Qed.

Lemma name_not_in_others (nm : string) (cs : list SSHConfig) :
  ~ In nm (map name (others nm cs)).
Proof.
  unfold others. intros Hin. apply in_map_iff in Hin.
  destruct Hin as (c & E & Hc). apply filter_In in Hc. destruct Hc as [_ Hc].
  subst nm. now rewrite String.eqb_refl in Hc.
Qed.

Lemma names_upsert_NoDup (p : SSHConfig) (cs : list SSHConfig) :
  NoDup (map name cs) -> NoDup (map name (others (name p) cs ++ [p])).
Proof.
  intros H. rewrite map_app. simpl.
  apply NoDup_app.
  - now apply names_others_NoDup.
  - repeat constructor. intros [].
  - intros x Hx [E|[]]. subst x. now apply name_not_in_others in Hx.
Qed.

End RegistryFacts.

(** ** Upsert and the uniqueness of names *)

Section Upsert.
Context {R : Runtime}.

(** C5. When its saves go through, [add_config p] succeeds whether or not
    the name is already taken: it drops every profile named like [p] and
    puts [p] last.  Doing it a second time changes nothing, and the
    registry then holds exactly one profile with that name, [p] itself. *)
Theorem add_config_upsert (p : SSHConfig) (w : World) :
  writes_succeed (env w) ->
  exists w1 w2,
    add_config p w = Ok tt w1
    /\ configs (manager w1) = others (name p) (configs (manager w)) ++ [p]
    /\ add_config p w1 = Ok tt w2
    /\ configs (manager w2) = configs (manager w1)
    /\ filter (named (name p)) (configs (manager w2)) = [p].
Proof.
  intros Hw.
  destruct (add_config_succeeds p w Hw) as (w1 & H1 & Hc1 & _ & Hw1).
  destruct (add_config_succeeds p w1 Hw1) as (w2 & H2 & Hc2 & _ & _).
  exists w1, w2. repeat split; auto.
  - rewrite Hc2, Hc1, others_app, others_idem. f_equal.
    unfold others at 2. simpl. rewrite String.eqb_refl. simpl.
    apply app_nil_r.
  - rewrite Hc2, filter_app, others_named_nil. simpl.
    unfold named. now rewrite String.eqb_refl.
Qed.

(** C6. If no two profiles share a name, the same holds after [add_config]
    and after [remove_config], whether their saves succeed or raise. *)
Theorem name_uniqueness_preserved (w : World) :
  NoDup (map name (configs (manager w))) ->
  (forall p, NoDup (map name (configs (manager (final_state (add_config p w))))))
  /\ (forall nm, NoDup (map name (configs (manager (final_state (remove_config nm w)))))).
Proof.
  intros H. split.
  - intros p. destruct (add_config_final p w) as (tail & E & [T|T]);
      rewrite E; subst tail.
    + rewrite app_nil_r. now apply names_others_NoDup.
    + now apply names_upsert_NoDup.
  - intros nm. rewrite remove_config_final. now apply names_others_NoDup.
Qed.

End Upsert.

Lemma add_config_upsert_witness :
  writes_succeed (env (sample_world [web; db; web2] [Written; Written; Written; Written]))
  /\ exists w1 w2,
       add_config web (sample_world [web; db; web2] [Written; Written; Written; Written])
         = Ok tt w1
       /\ configs (manager w1) = [db; web]
       /\ add_config web w1 = Ok tt w2
       /\ configs (manager w2) = configs (manager w1)
       /\ filter (named "web") (configs (manager w2)) = [web].
Proof.
  assert (H : writes_succeed
                (env (sample_world [web; db; web2] [Written; Written; Written; Written])))
    by (repeat constructor).
  split; [exact H|].
  exact (add_config_upsert web _ H).
Defined.

Lemma name_uniqueness_preserved_witness :
  NoDup (map name [web; db])
  /\ NoDup (map name (configs (manager (final_state
        (add_config web2 (sample_world [web; db] [Refused]))))))
  /\ NoDup (map name (configs (manager (final_state
        (remove_config "db" (sample_world [web; db] [])))))).
Proof.
  assert (H : NoDup (map name [web; db])).
  { constructor; [intros [E|[]]; discriminate E|].
    constructor; [intros []|constructor]. }
  split; [exact H|].
  split.
  - exact (proj1 (name_uniqueness_preserved (sample_world [web; db] [Refused]) H) web2).
  - exact (proj2 (name_uniqueness_preserved (sample_world [web; db] []) H) "db").
Defined.

(** ** Persistence *)

Section Persistence.
Context {R : Runtime}.

Lemma from_kwargs_asdict (c : SSHConfig) : from_kwargs (asdict c) = Built c.
Proof.
  destruct c as [n h p u [pw|] [kp|] [g|]]; reflexivity.
Qed.

Lemma all_typed_Some {A} (l : list A) : all_typed (map Some l) = Some l.
Proof. induction l as [|a l IH]; simpl; [|rewrite IH]; reflexivity. Qed.

Lemma decode_document {S} (cs : list SSHConfig) (s : S) :
  mapM construct (map asdict cs) s = Ok (map Some cs) s.
Proof.
  induction cs as [|c cs IH]; [reflexivity|].
  cbn [map mapM]. unfold bind at 1, construct at 1. rewrite from_kwargs_asdict.
  unfold ret at 1, bind at 1. now rewrite IH.
Qed.

(** Reading back a registry file that holds a token of [cs]. *)
Lemma load_token {L : RuntimeLaws R} (k : bytes) (n : nat)
    (cs : list SSHConfig) (e : Env) :
  valid_key k = true ->
  config_file e = Contents (encrypt k n (dumps (document cs))) ->
  _load_config k e = Ok cs e.
Proof.
  intros Hk Hf. unfold _load_config, bind, gets, read_bytes.
  rewrite Hf. simpl. rewrite Hf. simpl.
  rewrite (decrypt_encrypt _ _ _ Hk). simpl.
  rewrite loads_dumps. simpl. rewrite decode_document.
  unfold or_raise. now rewrite all_typed_Some.
Qed.

(** A save that returns has written the token of the current profiles. *)
Lemma save_returns (w w' : World) :
  _save_config w = Ok tt w' ->
  manager w' = manager w
  /\ exists n,
       config_file (env w')
       = Contents (encrypt (key (manager w)) n (dumps (document (configs (manager w))))).
Proof.
  unfold _save_config, bind, gets, zoom, next_nonce, write_bytes.
  destruct w as [m e]; simpl.
  destruct (nonces e) as [|n ns]; simpl;
    (destruct (writes e) as [|[| |b] ws]; simpl; intros H; inversion H; subst;
     simpl; split; auto; eexists; reflexivity).
Qed.

(** The only exception a save can raise is the [OSError] of the write. *)
Lemma save_raises (w w' : World) (x : exn) :
  _save_config w = Raise x w' -> x = OSError.
Proof.
  unfold _save_config, bind, gets, zoom, next_nonce, write_bytes.
  destruct w as [m e]; simpl.
  destruct (nonces e) as [|n ns]; simpl;
    (destruct (writes e) as [|[| |b] ws]; simpl; intros H; inversion H; auto).
Qed.

Lemma remove_config_returns (nm : string) (w w' : World) :
  remove_config nm w = Ok tt w' ->
  _save_config (set_configs (others nm (configs (manager w))) w) = Ok tt w'.
Proof. unfold remove_config, bind, modify. auto. Qed.

Lemma add_config_returns (p : SSHConfig) (w w' : World) :
  add_config p w = Ok tt w' ->
  exists w1,
    remove_config (name p) w = Ok tt w1
    /\ _save_config (set_configs (configs (manager w1) ++ [p]) w1) = Ok tt w'.
Proof.
  unfold add_config, bind at 1.
  destruct (remove_config (name p) w) as [[] w1|x w1]; [|discriminate].
  intros H. exists w1. split; auto.
Qed.

Lemma remove_config_raises (nm : string) (w w' : World) (x : exn) :
  remove_config nm w = Raise x w' -> x = OSError.
Proof. unfold remove_config, bind, modify. apply save_raises. Qed.

Lemma add_config_raises (p : SSHConfig) (w w' : World) (x : exn) :
  add_config p w = Raise x w' -> x = OSError.
Proof.
  unfold add_config, bind at 1.
  destruct (remove_config (name p) w) as [[] w1|x1 w1] eqn:E.
  - unfold bind, modify. apply save_raises.
  - intros H. inversion H; subst. now apply remove_config_raises in E.
Qed.

(** C4. A save whose write completes returns, and after any save that
    returns, loading the registry file with the same key gives back the
    profiles that were in memory, field for field and in the same order. *)
Theorem load_after_save {L : RuntimeLaws R} (w : World) :
  valid_key (key (manager w)) = true ->
  (writes_succeed (env w) -> exists w', _save_config w = Ok tt w')
  /\ (forall w', _save_config w = Ok tt w' ->
        _load_config (key (manager w)) (env w') = Ok (configs (manager w)) (env w')).
Proof.
  intros Hk. split.
  - intros Hw. destruct (save_succeeds w Hw) as (n & e' & Hs & _).
    eexists. exact Hs.
  - intros w' Hs. destruct (save_returns w w' Hs) as (_ & n & Hf).
    now apply (load_token _ n).
Qed.

(** C2, as the code has it.  When [remove_config] or [add_config] returns,
    the change is made in memory and the registry file decrypts to exactly
    the profiles in memory.  When a save fails, the [OSError] reaches the
    caller and the change already made in memory stays: after a failed
    [remove_config] the profiles of that name are gone; after a failed
    [add_config] they are gone, and the new profile is there exactly when
    the first of the two saves went through.  Nothing is undone. *)
Theorem mutation_persisted_or_kept {L : RuntimeLaws R} (w : World) :
  valid_key (key (manager w)) = true ->
  (forall nm w',
     remove_config nm w = Ok tt w' ->
     configs (manager w') = others nm (configs (manager w))
     /\ _load_config (key (manager w')) (env w')
        = Ok (configs (manager w')) (env w'))
  /\ (forall p w',
        add_config p w = Ok tt w' ->
        configs (manager w') = others (name p) (configs (manager w)) ++ [p]
        /\ _load_config (key (manager w')) (env w')
           = Ok (configs (manager w')) (env w'))
  /\ (forall nm x w',
        remove_config nm w = Raise x w' ->
        x = OSError /\ configs (manager w') = others nm (configs (manager w)))
  /\ (forall p x w',
        add_config p w = Raise x w' ->
        x = OSError
        /\ ((remove_config (name p) w = Raise OSError w'
             /\ configs (manager w') = others (name p) (configs (manager w)))
            \/ (exists w1,
                  remove_config (name p) w = Ok tt w1
                  /\ configs (manager w')
                     = others (name p) (configs (manager w)) ++ [p]))).
Proof.
  intros Hk. split; [|split; [|split]].
  - intros nm w' H. apply remove_config_returns in H.
    destruct (save_returns _ _ H) as (Hm & n & Hf).
    rewrite Hm. simpl. split; [reflexivity|]. now apply (load_token _ n).
  - intros p w' H. apply add_config_returns in H.
    destruct H as (w1 & H1 & H2).
    apply remove_config_returns in H1.
    destruct (save_returns _ _ H1) as (Hm1 & _).
    destruct (save_returns _ _ H2) as (Hm & n & Hf).
    rewrite Hm. simpl in *. rewrite Hm1. simpl. split; [reflexivity|].
    apply (load_token _ n); auto. now rewrite Hm1 in Hf.
  - intros nm x w' H. split; [now apply remove_config_raises in H|].
    pose proof (remove_config_final nm w) as E. now rewrite H in E.
  - intros p x w' H. split; [now apply add_config_raises in H|].
    unfold add_config, bind at 1 in H.
    destruct (remove_config (name p) w) as [[] w1|x1 w1] eqn:E.
    + right. exists w1. split; [reflexivity|].
      apply remove_config_returns in E.
      destruct (save_returns _ _ E) as (Hm1 & _).
      unfold bind, modify in H.
      pose proof (save_keeps_manager
                    (set_configs (configs (manager w1) ++ [p]) w1)) as K.
      rewrite H in K. simpl in K. rewrite K, Hm1. reflexivity.
    + inversion H; subst. left.
      pose proof (remove_config_raises _ _ _ _ E) as ->.
      split; [reflexivity|].
      pose proof (remove_config_final (name p) w) as F. now rewrite E in F.
Qed.

End Persistence.

Lemma sample_laws : RuntimeLaws sample_runtime.
Proof.
  split.
  - intros [s|v|k0 n0 m0] n m; simpl; try discriminate.
    intros _. now rewrite String.eqb_refl.
  - reflexivity.
Defined.

Lemma load_after_save_witness :
  valid_key (key (manager (sample_world [web] [Written]))) = true
  /\ (exists w', _save_config (set_configs [db; web2] (sample_world [web] [Written]))
                 = Ok tt w')
  /\ _load_config sample_key
       (env (final_state (_save_config
              (set_configs [db; web2] (sample_world [web] [Written])))))
     = Ok [db; web2]
          (env (final_state (_save_config
                 (set_configs [db; web2] (sample_world [web] [Written]))))).
Proof.
  split; [reflexivity|].
  pose proof (@load_after_save sample_runtime sample_laws
                (set_configs [db; web2] (sample_world [web] [Written]))
                eq_refl) as [H1 H2].
  split.
  - apply H1. repeat constructor.
  - apply H2. reflexivity.
Defined.

(** C2, as stated, fails.  With a write that is refused, [remove_config]
    raises after the profile has left the in-memory list, while the registry
    file still decrypts to both profiles.  With a write that breaks off
    midway, [add_config] raises and the registry file no longer holds what
    it held: it cannot be decrypted any more. *)
Lemma failed_save_diverges :
  (exists w',
     remove_config "db" (sample_world [web; db] [Refused]) = Raise OSError w'
     /\ configs (manager w') = [web]
     /\ configs (manager w') <> configs (manager (sample_world [web; db] [Refused]))
     /\ _load_config sample_key (env w') = Ok [web; db] (env w'))
  /\ (exists w',
        add_config db (sample_world [web] [sample_torn]) = Raise OSError w'
        /\ config_file (env w') = Contents sample_fragment
        /\ config_file (env w') <> config_file (env (sample_world [web] [sample_torn]))
        /\ _load_config sample_key (env w') = Raise InvalidToken (env w')).
Proof.
  split.
  - eexists. split; [reflexivity|]. simpl.
    repeat split; try reflexivity. discriminate.
  - eexists. split; [reflexivity|]. simpl.
    repeat split; try reflexivity. discriminate.
Qed.

Lemma mutation_persisted_or_kept_witness :
  valid_key (key (manager (sample_world [web; db] [Written; Refused]))) = true
  /\ (exists w',
        remove_config "web" (sample_world [web; db] [Written; Refused]) = Ok tt w'
        /\ configs (manager w') = [db]
        /\ _load_config (key (manager w')) (env w') = Ok [db] (env w'))
  /\ (exists w',
        add_config web2 (sample_world [web; db] [Written; Refused]) = Raise OSError w'
        /\ configs (manager w') = [db; web2]
        /\ _load_config (key (manager w')) (env w') = Ok [db] (env w')).
Proof.
  split; [reflexivity|].
  pose proof (@mutation_persisted_or_kept sample_runtime sample_laws
                (sample_world [web; db] [Written; Refused]) eq_refl)
    as (Hr & _ & _ & Ha).
  split.
  - eexists. split; [reflexivity|].
    exact (Hr "web" _ eq_refl).
  - eexists. split; [reflexivity|].
    destruct (Ha web2 OSError _ eq_refl) as (_ & [(Hf & _)|(w1 & _ & Hc)]).
    + discriminate Hf.
    + split; [exact Hc|reflexivity].
Defined.

(** ** Keys that are bound to nothing *)

Section Frame.
Context {R : Runtime}.

Ltac split_key_table H :=
  repeat match type of H with
         | (if ?c then _ else _) = None =>
             let E := fresh "E" in destruct c eqn:E; [discriminate H|]
         end.

Lemma unbound_key_handle (m : Mode) (k : Z) (s : Session) :
  event_of_key m k = None -> handle m k s = Ok true s.
Proof.
  intros H. destruct m; unfold event_of_key in H; split_key_table H;
    unfold handle.
  - unfold handle_list_input, bind, gets. cbn beta.
    rewrite E, E0, E1, E2, E3, E4, E5, E6, E7. reflexivity.
  - unfold handle_add_input, bind, gets. cbn beta.
    rewrite E, E0, E1, E2, E3, E4, E5. reflexivity.
  - unfold handle_add_input, bind, gets. cbn beta.
    rewrite E, E0, E1, E2, E3, E4, E5. reflexivity.
  - unfold handle_confirm_delete. rewrite E, E0, E1. reflexivity.
Qed.

End Frame.

(** ** The edit form *)

Section Submit.
Context {R : Runtime}.

Lemma world_of_set_world (w : World) (s : Session) :
  world_of (set_world w s) = w.
Proof. destruct w as [[k cs] e]. reflexivity. Qed.

Lemma enter_is_submit (s : Session) :
  handle_add_input KEY_ENTER s
  = (try_except submit is_ValueError
       (fun e => show_message ("Error: " ++ str_of_exn e)%string) ;;; ret true) s.
Proof. reflexivity. Qed.

Lemma submit_add (s : Session) (p : Z) :
  Py.int_of_str (v_port (input_values (ui s))) = Py.Int p ->
  mode (ui s) <> mode_edit ->
  writes_succeed (senv s) ->
  exists w,
    submit s
    = Ok tt (submitted ("Added connection: "
                          ++ name (profile_of_form (input_values (ui s)) p)) w s)
    /\ configs (manager w)
       = others (name (profile_of_form (input_values (ui s)) p))
                (configs (ssh_manager (ui s)))
         ++ [profile_of_form (input_values (ui s)) p].
Proof.
  intros Hp Hm Hw.
  destruct (add_config_succeeds (profile_of_form (input_values (ui s)) p)
              (world_of s) Hw) as (w & Ha & Hc & _ & _).
  exists w. split; [|exact Hc].
  unfold submit, bind at 1, gets at 1, bind at 1, parse_port.
  rewrite Hp. unfold ret at 1. cbv zeta. unfold bind at 1, gets at 1.
  destruct (mode (ui s)); try congruence;
    unfold bind at 1 2, on_manager, zoom; rewrite Ha; reflexivity.
Qed.

Lemma submit_edit (s : Session) (p : Z) (old : SSHConfig) :
  Py.int_of_str (v_port (input_values (ui s))) = Py.Int p ->
  mode (ui s) = mode_edit ->
  editing_config (ui s) = Some old ->
  writes_succeed (senv s) ->
  exists w,
    submit s
    = Ok tt (submitted ("Updated connection: "
                          ++ name (profile_of_form (input_values (ui s)) p)) w s)
    /\ configs (manager w)
       = others (name (profile_of_form (input_values (ui s)) p))
                (others (name old) (configs (ssh_manager (ui s))))
         ++ [profile_of_form (input_values (ui s)) p].
Proof.
  intros Hp Hm He Hw.
  destruct (remove_config_succeeds (name old) (world_of s) Hw)
    as (w1 & Hr & Hc1 & _ & Hw1).
  destruct (add_config_succeeds (profile_of_form (input_values (ui s)) p) w1 Hw1)
    as (w & Ha & Hc & _ & _).
  exists w. split; [|now rewrite Hc, Hc1].
  unfold submit, bind at 1, gets at 1, bind at 1, parse_port.
  rewrite Hp. unfold ret at 1. cbv zeta. unfold bind at 1, gets at 1.
  rewrite Hm. unfold bind at 1, gets at 1, bind at 1. rewrite He.
  unfold or_raise, ret at 1.
  unfold bind at 1 2 3, on_manager at 1, zoom at 1. rewrite Hr.
  unfold on_manager, zoom. rewrite world_of_set_world, Ha.
  destruct s as [u e], w as [m e']. reflexivity.
Qed.

(** C3, as the code has it.  Enter in the form checks one thing: that
    [int] accepts the port text.  If [int] refuses it with a [ValueError]
    (no integer literal, or more than 4300 digits), the handler stays in the
    form and only sets the message, which is the error text of [int] after
    "Error: ", and its timeout; the registry, in memory and on disk, is
    untouched.  If [int] accepts it, and the saves go through, the profile
    built from the form replaces any profile of its name (when editing, the
    edited profile is removed first), is put last, and the interface returns
    to the list.  Range and emptiness are not looked at. *)
Theorem submit_checks_port_only (s : Session) :
  (Py.int_of_str (v_port (input_values (ui s))) = Py.NotInt ->
   handle_add_input KEY_ENTER s
   = Ok true
       (mkSession
          (set_message_timeout 3
             (set_message
                ("Error: " ++ int_error (v_port (input_values (ui s))))
                (ui s)))
          (senv s)))
  /\ (forall p,
        Py.int_of_str (v_port (input_values (ui s))) = Py.Int p ->
        writes_succeed (senv s) ->
        (mode (ui s) = mode_edit -> editing_config (ui s) <> None) ->
        exists s',
          handle_add_input KEY_ENTER s = Ok true s'
          /\ mode (ui s') = mode_list
          /\ editing_config (ui s') = None
          /\ configs (ssh_manager (ui s'))
             = others (name (profile_of_form (input_values (ui s)) p))
                 (match mode (ui s), editing_config (ui s) with
                  | mode_edit, Some old =>
                      others (name old) (configs (ssh_manager (ui s)))
                  | _, _ => configs (ssh_manager (ui s))
                  end)
               ++ [profile_of_form (input_values (ui s)) p]).
Proof.
  split.
  - intros Hp. rewrite enter_is_submit.
    unfold bind at 1, try_except, submit, bind at 1, gets at 1, bind at 1,
      parse_port.
    rewrite Hp. reflexivity.
  - intros p Hp Hw He. rewrite enter_is_submit.
    unfold bind at 1, try_except.
    destruct (mode (ui s)) eqn:Hm.
    1, 2, 4:
      (destruct (submit_add s p Hp) as (w & Hs & Hc);
       [congruence | exact Hw | rewrite Hs; eexists; split; [reflexivity|];
                               simpl; repeat split; exact Hc]).
    destruct (editing_config (ui s)) as [old|] eqn:Hold; [|now destruct He].
    destruct (submit_edit s p old Hp Hm Hold Hw) as (w & Hs & Hc).
    rewrite Hs. eexists. split; [reflexivity|].
    simpl. repeat split. exact Hc.
Qed.

End Submit.

Lemma submit_checks_port_only_witness :
  Py.int_of_str (v_port (input_values (ui (sample_form "abc" [web])))) = Py.NotInt
  /\ handle_add_input KEY_ENTER (sample_form "abc" [web])
     = Ok true
         (mkSession
            (set_message_timeout 3
               (set_message
                  "Error: invalid literal for int() with base 10: 'abc'"
                  (ui (sample_form "abc" [web]))))
            (sample_env [web] []))
  /\ exists s',
       handle_add_input KEY_ENTER (sample_form "8022" [web]) = Ok true s'
       /\ mode (ui s') = mode_list
       /\ editing_config (ui s') = None
       /\ configs (ssh_manager (ui s'))
          = [web; mkSSHConfig EmptyString EmptyString 8022 EmptyString None None None].
Proof.
  split; [reflexivity|]. split.
  - exact (proj1 (submit_checks_port_only (sample_form "abc" [web])) eq_refl).
  - apply (proj2 (submit_checks_port_only (sample_form "8022" [web])) 8022).
    + reflexivity.
    + constructor.
    + discriminate.
Defined.

(** C3, as stated, fails.  Starting a new connection, moving to the port
    field, typing 70000 and pressing Enter, with name, host and username
    left empty, leaves the form for the list and stores the profile, in
    memory and in the registry file. *)
Lemma submit_accepts_blank_and_out_of_range :
  exists s',
    run (Key (ord "a") :: Key KEY_DOWN :: Key KEY_DOWN
           :: typed "70000" ++ [Key KEY_ENTER])
        (sample_session [] [])
    = Ok true s'
    /\ mode (ui s') = mode_list
    /\ configs (ssh_manager (ui s'))
       = [mkSSHConfig EmptyString EmptyString 70000 EmptyString None None None]
    /\ config_file (senv s')
       = Contents (sample_token
           [mkSSHConfig EmptyString EmptyString 70000 EmptyString None None None])
    /\ config_file (senv s') <> config_file (senv (sample_session [] [])).
Proof.
  eexists. split; [vm_compute; reflexivity|].
  simpl. repeat split. discriminate.
Qed.

(** ** Sorting *)

Section SortFacts.

Lemma compare_as_OT (a b : string) :
  String_as_OT.compare a b = String.compare a b.
Proof.
  revert b. induction a as [|x a IH]; intros [|y b]; simpl; auto.
Qed.

Lemma ltb_lt (a b : string) : String.ltb a b = true <-> String_as_OT.lt a b.
Proof.
  unfold String.ltb, String_as_OT.lt. rewrite <- compare_as_OT.
  destruct (String_as_OT.compare a b); split; congruence.
Qed.

Lemma ltb_irrefl (a : string) : String.ltb a a = false.
Proof.
  destruct (String.ltb a a) eqn:E; auto.
  apply ltb_lt in E. now apply (StrictOrder_Irreflexive a) in E.
Qed.

Lemma ltb_trans (a b c : string) :
  String.ltb a b = true -> String.ltb b c = true -> String.ltb a c = true.
Proof.
  rewrite !ltb_lt. apply (StrictOrder_Transitive a b c).
Qed.

Lemma leb_ltb (a b : string) : String.leb a b = true <-> String.ltb b a = false.
Proof.
  unfold String.leb, String.ltb. rewrite (String.compare_antisym b a).
  destruct (String.compare a b); simpl; split; congruence.
Qed.

Lemma leb_cases (a b : string) :
  String.leb a b = true <-> String.ltb a b = true \/ a = b.
Proof.
  unfold String.leb, String.ltb.
  destruct (String.compare a b) eqn:E; split; auto; try congruence.
  - intros _. right. now apply String.compare_eq_iff.
  - intros [H|H]; [discriminate|]. subst.
    pose proof (ltb_irrefl b) as Hi. unfold String.ltb in Hi.
    rewrite String.compare_antisym in E. destruct (String.compare b b); discriminate.
Qed.

Lemma leb_refl (a : string) : String.leb a a = true.
Proof. apply leb_cases. now right. Qed.

Lemma leb_trans (a b c : string) :
  String.leb a b = true -> String.leb b c = true -> String.leb a c = true.
Proof.
  rewrite !leb_cases. intros [H1|H1] [H2|H2]; subst; auto.
  left. eapply ltb_trans; eauto.
Qed.

Context {A : Type} (key : A -> string).

Lemma insert_perm (x : A) (l : list A) :
  Permutation (Py.insert key x l) (x :: l).
Proof.
  induction l as [|y l IH]; simpl; auto.
  destruct (String.ltb (key y) (key x)); auto.
  rewrite IH. apply perm_swap.
Qed.

Lemma sorted_perm (l : list A) : Permutation (Py.sorted key l) l.
Proof.
  induction l as [|x l IH]; simpl; auto.
  rewrite insert_perm. now constructor.
Qed.

Lemma insert_ascending (x : A) (l : list A) :
  ascending key l -> ascending key (Py.insert key x l).
Proof.
  unfold ascending. induction l as [|y l IH]; simpl; intros H.
  - repeat constructor.
  - inversion H as [|y' l' Hs Hf]; subst.
    destruct (String.ltb (key y) (key x)) eqn:E.
    + constructor; auto.
      rewrite Forall_forall in *. intros z Hz.
      apply (Permutation_in _ (insert_perm x l)) in Hz.
      destruct Hz as [Hz|Hz]; subst; auto.
      apply leb_cases. now left.
    + constructor; auto. constructor.
      * now apply leb_ltb.
      * rewrite Forall_forall in *. intros z Hz.
        apply leb_trans with (key y); auto. now apply leb_ltb.
Qed.

Lemma sorted_ascending (l : list A) : ascending key (Py.sorted key l).
Proof.
  induction l as [|x l IH]; simpl.
  - constructor.
  - now apply insert_ascending.
Qed.

(** Two ascending arrangements of the same elements coincide when equal keys
    mean equal elements. *)
Lemma ascending_unique (l1 l2 : list A) :
  (forall a b, In a l1 -> In b l1 -> key a = key b -> a = b) ->
  Permutation l1 l2 -> ascending key l1 -> ascending key l2 -> l1 = l2.
Proof.
  unfold ascending. revert l2.
  induction l1 as [|a l1 IH]; intros l2 Hinj Hp H1 H2.
  - apply Permutation_nil in Hp. now subst.
  - destruct l2 as [|b l2].
    { apply Permutation_sym, Permutation_nil in Hp. discriminate. }
    inversion H1 as [|? ? Hs1 Hf1]; subst.
    inversion H2 as [|? ? Hs2 Hf2]; subst.
    rewrite Forall_forall in Hf1, Hf2.
    assert (Hab : a = b).
    { assert (Hb : In b (a :: l1))
        by (apply (Permutation_in _ (Permutation_sym Hp)); now left).
      assert (Ha : In a (b :: l2))
        by (apply (Permutation_in _ Hp); now left).
      destruct Hb as [Hb|Hb]; auto.
      destruct Ha as [Ha|Ha]; auto.
      apply Hinj; [now left | now right |].
      apply String.leb_antisym; auto. }
    subst b. f_equal.
    apply IH; auto.
    + intros x y Hx Hy. apply Hinj; now right.
    + now apply Permutation_cons_inv in Hp.
Qed.

Lemma sorted_unique (l1 l2 : list A) :
  (forall a b, In a l1 -> In b l1 -> key a = key b -> a = b) ->
  Permutation l1 l2 -> Py.sorted key l1 = Py.sorted key l2.
Proof.
  intros Hinj Hp. apply ascending_unique.
  - intros a b Ha Hb. apply Hinj;
      eapply Permutation_in; try eassumption; apply sorted_perm.
  - rewrite sorted_perm, Hp. symmetry. apply sorted_perm.
  - apply sorted_ascending.
  - apply sorted_ascending.
Qed.

(** The keys of a sorted list are the sorted keys. *)
Lemma map_insert (x : A) (l : list A) :
  map key (Py.insert key x l) = Py.insert (fun s => s) (key x) (map key l).
Proof.
  induction l as [|y l IH]; simpl; auto.
  destruct (String.ltb (key y) (key x)); simpl; now rewrite ?IH.
Qed.

Lemma map_sorted (l : list A) :
  map key (Py.sorted key l) = Py.sorted (fun s => s) (map key l).
Proof.
  induction l as [|x l IH]; simpl; auto.
  now rewrite map_insert, IH.
Qed.

Lemma unique_keys (l : list A) :
  NoDup (map key l) ->
  forall a b, In a l -> In b l -> key a = key b -> a = b.
Proof.
  induction l as [|x l IH]; simpl; intros Hn a b Ha Hb E; [tauto|].
  inversion Hn as [|? ? Hx Hl]; subst.
  destruct Ha as [Ha|Ha], Hb as [Hb|Hb]; subst; auto.
  - exfalso. apply Hx. rewrite E. now apply in_map.
  - exfalso. apply Hx. rewrite <- E. now apply in_map.
Qed.

End SortFacts.

Lemma sorted_strings_unique (l1 l2 : list string) :
  Permutation l1 l2 -> Py.sorted (fun s => s) l1 = Py.sorted (fun s => s) l2.
Proof. apply sorted_unique. auto. Qed.

(** ** The listing *)

Section Listing.

Lemma Permutation_filter {A} (f : A -> bool) (l l' : list A) :
  Permutation l l' -> Permutation (filter f l) (filter f l').
Proof.
  induction 1 as [|x l l' _ IH|x y l|l l' l'' _ IH1 _ IH2]; simpl.
  - constructor.
  - destruct (f x); auto.
  - destruct (f x), (f y); auto. apply perm_swap.
  - now rewrite IH1.
Qed.

Lemma NoDup_names_filter (f : SSHConfig -> bool) (cs : list SSHConfig) :
  NoDup (map name cs) -> NoDup (map name (filter f cs)).
Proof.
  induction cs as [|c cs IH]; simpl; intros H; auto.
  inversion H as [|x l Hn Hd]; subst.
  destruct (f c); simpl; auto.
  constructor; auto.
  intros Hin. apply Hn. apply in_map_iff in Hin. destruct Hin as (c' & E & Hc').
  apply filter_In in Hc'. apply in_map_iff. exists c'. tauto.
Qed.

Lemma sorted_set_perm (l l' : list string) :
  Permutation l l' -> Py.sorted_set l = Py.sorted_set l'.
Proof.
  intros H. unfold Py.sorted_set. apply sorted_strings_unique.
  apply NoDup_Permutation; try apply NoDup_nodup.
  intros x. rewrite !nodup_In. split; apply Permutation_in; auto.
  now symmetry.
Qed.

Lemma sorted_set_NoDup (l : list string) : NoDup (Py.sorted_set l).
Proof.
  unfold Py.sorted_set.
  apply (Permutation_NoDup (Permutation_sym (sorted_perm _ _))).
  apply NoDup_nodup.
Qed.

Lemma get_all_groups_perm (cs cs' : list SSHConfig) :
  Permutation cs cs' -> get_all_groups cs' = get_all_groups cs.
Proof.
  intros H. unfold get_all_groups. apply sorted_set_perm.
  symmetry. now apply Permutation_flat_map.
Qed.

Lemma get_child_groups_perm (cs cs' : list SSHConfig) (gp : option string) :
  Permutation cs cs' -> get_child_groups cs' gp = get_child_groups cs gp.
Proof.
  intros H. unfold get_child_groups. now rewrite (get_all_groups_perm cs cs' H).
Qed.

Lemma get_child_groups_NoDup (cs : list SSHConfig) (gp : option string) :
  NoDup (get_child_groups cs gp).
Proof.
  unfold get_child_groups, get_all_groups.
  destruct gp as [p|]; [destruct (Py.truthy (Some p))|];
    apply NoDup_filter, sorted_set_NoDup.
Qed.

Lemma get_group_configs_perm (cs cs' : list SSHConfig) (gp : option string) :
  Permutation cs cs' ->
  Permutation (get_group_configs cs' gp) (get_group_configs cs gp).
Proof.
  intros H. unfold get_group_configs.
  destruct (negb (Py.truthy gp)); apply Permutation_filter; now symmetry.
Qed.

Lemma count_group_items_perm (cs cs' : list SSHConfig) (gp : option string) :
  Permutation cs cs' -> count_group_items cs' gp = count_group_items cs gp.
Proof.
  intros H. unfold count_group_items, Py.len.
  rewrite (get_child_groups_perm cs cs' gp H).
  now rewrite (Permutation_length (get_group_configs_perm cs cs' gp H)).
Qed.

Lemma group_items_perm (cs cs' : list SSHConfig) (gs : list string) :
  Permutation cs cs' -> map (group_item cs') gs = map (group_item cs) gs.
Proof.
  intros H. apply map_ext. intros g. unfold group_item.
  now rewrite (count_group_items_perm cs cs' (Some g) H).
Qed.

Lemma sort_key_config_items (l : list SSHConfig) :
  map sort_key (map config_item l) = map (fun c => (type_config, name c)) l.
Proof. rewrite map_map. reflexivity. Qed.

End Listing.

(** ** The [--show-config] run *)

Section ShowConfig.
Context {R : Runtime}.

Lemma bind_returns {S A B} (m : M S A) (k : A -> M S B) (s s2 : S) (b : B) :
  bind m k s = Ok b s2 -> exists a s1, m s = Ok a s1 /\ k a s1 = Ok b s2.
Proof.
  unfold bind. destruct (m s) as [a s1|x s1]; [|discriminate].
  intros H. now exists a, s1.
Qed.

Lemma or_raise_returns {S A} (x : exn) (o : option A) (s s' : S) (a : A) :
  or_raise x o s = Ok a s' -> o = Some a /\ s' = s.
Proof.
  destruct o; simpl; unfold ret, raise; intros H; inversion H; auto.
Qed.

Lemma decode_returns {S} (items : list json) (objects : list (option SSHConfig))
    (cs : list SSHConfig) (s s' : S) :
  mapM construct items s = Ok objects s' ->
  all_typed objects = Some cs ->
  s' = s /\ Forall2 (fun v c => from_kwargs v = Built c) items cs.
Proof.
  revert objects cs s'.
  induction items as [|v items IH]; simpl; intros objects cs s' H Ht.
  - inversion H; subst. simpl in Ht. inversion Ht. auto.
  - apply bind_returns in H. destruct H as (o & s1 & H1 & H).
    apply bind_returns in H. destruct H as (os & s2 & H2 & H).
    inversion H; subst; clear H.
    unfold construct in H1.
    destruct (from_kwargs v) as [c| |] eqn:Hv; inversion H1; subst; clear H1;
      simpl in Ht; [|discriminate].
    destruct (all_typed os) as [cs1|] eqn:Hos; [|discriminate].
    inversion Ht; subst; clear Ht.
    destruct (IH _ _ _ H2 Hos) as [-> HF]. auto.
Qed.



(** A load that returns leaves the environment as it was, and either found
    no registry file or decoded every entry of the one it found. *)
Lemma load_returns (k : bytes) (e e1 : Env) (cs : list SSHConfig) :
  _load_config k e = Ok cs e1 ->
  e1 = e
  /\ (file_exists (config_file e) = false
      \/ exists b d j items,
           config_file e = Contents b /\ decrypt k b = Some d
           /\ loads d = Some j /\ iterate j = Some items
           /\ Forall2 (fun v c => from_kwargs v = Built c) items cs).
Proof.
  unfold _load_config. intros H.
  apply bind_returns in H. destruct H as (ex & s1 & H1 & H).
  unfold gets in H1. inversion H1; subst; clear H1.
  destruct (file_exists (config_file s1)) eqn:Hex.
  - apply bind_returns in H. destruct H as (b & s2 & H1 & H).
    unfold read_bytes in H1.
    destruct (config_file s1) as [| |b'] eqn:Hf; try discriminate.
    inversion H1; subst; clear H1.
    apply bind_returns in H. destruct H as (d & s3 & H1 & H).
    apply or_raise_returns in H1. destruct H1 as [Hd ->].
    apply bind_returns in H. destruct H as (j & s4 & H1 & H).
    apply or_raise_returns in H1. destruct H1 as [Hj ->].
    apply bind_returns in H. destruct H as (items & s5 & H1 & H).
    apply or_raise_returns in H1. destruct H1 as [Hi ->].
    apply bind_returns in H. destruct H as (objects & s6 & H1 & H).
    apply or_raise_returns in H. destruct H as [Ht ->].
    destruct (decode_returns _ _ _ _ _ H1 Ht) as [-> HF].
    split; auto. right. exists b, d, j, items. auto.
  - inversion H; subst. auto.
Qed.





End ShowConfig.


(** ** The builtins on examples *)

Example split_abc : Py.split "/" "a/b/c" = ["a"; "b"; "c"].
Proof. reflexivity. Qed.
Example split_empty : Py.split "/" "" = [""].
Proof. reflexivity. Qed.
Example int_ok : Py.int_of_str " -1_0 " = Py.Int (-10).
Proof. reflexivity. Qed.
Example int_abc : Py.int_of_str "abc" = Py.NotInt.
Proof. reflexivity. Qed.
Example int_us : Py.int_of_str "1__0" = Py.NotInt.
Proof. reflexivity. Qed.
Example str_int : Py.str_of_int (-42) = "-42".
Proof. reflexivity. Qed.
Example before_ex : Py.before " (" "db (3)" = "db".
Proof. reflexivity. Qed.
Example sorted_ex : Py.sorted_set ["b"; "a"; "b"; "a/c"] = ["a"; "a/c"; "b"].
Proof. reflexivity. Qed.

(** ** The sample session is the one the program starts in *)

Lemma sample_session_initial (cs : list SSHConfig)
    (ws : list (@write_outcome sample_runtime)) :
  SSHManagerUI_init (sample_env cs ws)
  = Ok (ui (sample_session cs ws)) (sample_env cs ws).
Proof.
  unfold SSHManagerUI_init, SSHManager_init, bind at 1 2 3 4.
  simpl.
  rewrite (load_token (L := sample_laws) sample_key 0 cs (sample_env cs ws));
    reflexivity.
Qed.

(** ** Groups *)

Section Groups.

(** The groups [get_all_groups] returns are the non-empty [group] values of
    the profiles, and nothing else. *)
Lemma get_all_groups_In (cs : list SSHConfig) (g : string) :
  In g (get_all_groups cs)
  <-> exists c, In c cs /\ group c = Some g /\ g <> EmptyString.
Proof.
  unfold get_all_groups, Py.sorted_set.
  assert (Hs : forall l, In g (Py.sorted (fun s => s) l) <-> In g l).
  { intros l. split; apply Permutation_in;
      [|symmetry]; apply sorted_perm. }
  rewrite Hs, nodup_In, in_flat_map. split.
  - intros (c & Hc & Hg). exists c. split; auto.
    destruct (group c) as [[|a s]|]; simpl in Hg; try tauto.
    destruct Hg as [<-|[]]. split; auto. discriminate.
  - intros (c & Hc & Hg & Hne). exists c. split; auto.
    rewrite Hg. destruct g; [congruence|]. simpl. auto.
Qed.

(** C1 does not hold of the code.  With one profile in group a/b, one in
    a/c and one without a group, [get_all_groups] returns the two full paths
    and not their parent a, and the root has no child group: the listing at
    the root shows the ungrouped profile only, so the two grouped profiles
    cannot be reached.  [get_group_tree], on the same profiles, does make a
    node for a. *)
Theorem get_all_groups_omits_parents :
  get_all_groups [api; cache; web] = ["a/b"; "a/c"]
  /\ ~ In "a" (get_all_groups [api; cache; web])
  /\ get_child_groups [api; cache; web] None = []
  /\ get_child_groups [api; cache; web] (Some EmptyString) = []
  /\ build_items [api; cache; web] [] = [config_item web]
  /\ get_parent_groups (Some "a/b") = ["a"]
  /\ get_group_tree [api; cache; web]
     = Some (Node [("a", Node [("b", Leaf [api]); ("c", Leaf [cache])]);
                   ("Ungrouped", Leaf [web])]).
Proof.
  split; [reflexivity|]. split.
  { rewrite get_all_groups_In. intros (c & Hc & Hg & _).
    destruct Hc as [<-|[<-|[<-|[]]]]; discriminate Hg. }
  repeat split; reflexivity.
Qed.

End Groups.

(** ** Deleting *)

Section Deleting.
Context {R : Runtime}.

(** Confirming removes the profiles of the target's name and returns to the
    list.  The selection is compared with the listing the object holds,
    which was built before the removal and is not rebuilt here. *)
Lemma confirm_removes (s : Session) (c : SSHConfig) :
  delete_confirm (ui s) = Some c ->
  writes_succeed (senv s) ->
  exists s',
    handle_confirm_delete (ord "y") s = Ok true s'
    /\ mode (ui s') = mode_list
    /\ delete_confirm (ui s') = None
    /\ configs (ssh_manager (ui s')) = others (name c) (configs (ssh_manager (ui s)))
    /\ display_items (ui s') = display_items (ui s)
    /\ current_index (ui s')
       = if Py.len (display_items (ui s)) <=? current_index (ui s)
         then Z.max 0 (Py.len (display_items (ui s)) - 1)
         else current_index (ui s).
Proof.
  intros Hd Hw.
  destruct (remove_config_succeeds (name c) (world_of s) Hw)
    as (w & Hr & Hc & _ & _).
  unfold handle_confirm_delete. simpl.
  unfold bind at 1, gets at 1. rewrite Hd.
  unfold bind at 1, or_raise, ret at 1.
  unfold bind at 1, on_manager, zoom. rewrite Hr.
  eexists. split; [reflexivity|].
  simpl.
  destruct (Py.len (display_items (ui s)) <=? current_index (ui s));
    simpl; repeat split; exact Hc.
Qed.

(** Denying or cancelling returns to the list; registry and files are as
    before. *)
Lemma deny_keeps_registry (s : Session) (k : Z) :
  k = ord "n" \/ k = KEY_ESC ->
  handle_confirm_delete k s
  = Ok true
      (mkSession
         (set_delete_confirm None
            (set_mode mode_list
               (set_message_timeout 3 (set_message "Deletion cancelled" (ui s)))))
         (senv s)).
Proof. intros [->| ->]; reflexivity. Qed.

End Deleting.

(** C7 does not hold of the code.  The listing shows db and web; with web
    selected, delete and confirm remove web and return to the list, but the
    selection stays at 1: the handler compares it with the length of the
    listing built before the removal.  The listing built next has one entry,
    so the selection is out of range, and Enter raises [IndexError], which
    ends the program with exit code 1. *)
Theorem confirm_delete_keeps_stale_index :
  (exists s',
     run [Key KEY_DOWN; Key (ord "d"); Key (ord "y")] (sample_session [web; db] [])
     = Ok true s'
     /\ mode (ui s') = mode_list
     /\ delete_confirm (ui s') = None
     /\ configs (ssh_manager (ui s')) = [db]
     /\ current_index (ui s') = 1
     /\ Py.len (display_items (ui s')) = 2
     /\ Py.len (build_items (configs (ssh_manager (ui s'))) (current_path (ui s'))) = 1)
  /\ (exists s'',
        run [Key KEY_DOWN; Key (ord "d"); Key (ord "y"); Key KEY_ENTER]
            (sample_session [web; db] [])
        = Raise IndexError s'')
  /\ fst (main false [Key KEY_DOWN; Key (ord "d"); Key (ord "y"); Key KEY_ENTER]
                (sample_env [web; db] []))
     = Exit 1.
Proof.
  split; [|split].
  - eexists. split; [vm_compute; reflexivity|]. simpl. repeat split.
  - eexists. vm_compute. reflexivity.
  - vm_compute. reflexivity.
Qed.

(** * Further properties of the registry *)

Section Lookup.
Context {R : Runtime}.

Lemma get_config_others_same (nm : string) (cs : list SSHConfig) :
  get_config (others nm cs) nm = None.
Proof.
  unfold get_config, others. induction cs as [|c cs IH]; simpl; auto.
  destruct (name c =? nm)%string eqn:E; simpl; auto.
  now rewrite E.
Qed.

Lemma get_config_others_other (nm nm' : string) (cs : list SSHConfig) :
  nm' <> nm -> get_config (others nm cs) nm' = get_config cs nm'.
Proof.
  intros Hne. unfold get_config, others.
  induction cs as [|c cs IH]; simpl; auto.
  destruct (name c =? nm)%string eqn:E; simpl.
  - apply String.eqb_eq in E.
    destruct (name c =? nm')%string eqn:E'; auto.
    apply String.eqb_eq in E'. congruence.
  - destruct (name c =? nm')%string; auto.
Qed.

Lemma get_config_app (cs cs' : list SSHConfig) (nm : string) :
  get_config (cs ++ cs') nm
  = match get_config cs nm with
    | Some c => Some c
    | None => get_config cs' nm
    end.
Proof.
  unfold get_config. induction cs as [|c cs IH]; simpl; auto.
  destruct (name c =? nm)%string; auto.
Qed.

(** X1. Lookup after a change.  When the saves go through, [get_config]
    finds the profile just added under its name and finds nothing under a
    name just removed; under every other name it finds what it found
    before. *)
Theorem lookup_after_mutation (w : World) :
  writes_succeed (env w) ->
  (forall p, exists w',
      add_config p w = Ok tt w'
      /\ get_config (configs (manager w')) (name p) = Some p
      /\ forall nm, nm <> name p ->
           get_config (configs (manager w')) nm = get_config (configs (manager w)) nm)
  /\ (forall nm, exists w',
        remove_config nm w = Ok tt w'
        /\ get_config (configs (manager w')) nm = None
        /\ forall nm', nm' <> nm ->
             get_config (configs (manager w')) nm' = get_config (configs (manager w)) nm').
Proof.
  intros Hw. split.
  - intros p. destruct (add_config_succeeds p w Hw) as (w' & H & Hc & _).
    exists w'. split; auto. rewrite Hc. split.
    + rewrite get_config_app, get_config_others_same.
      unfold get_config. simpl. now rewrite String.eqb_refl.
    + intros nm Hne. rewrite get_config_app, (get_config_others_other _ _ _ Hne).
      destruct (get_config (configs (manager w)) nm); auto.
      unfold get_config. simpl.
      destruct (name p =? nm)%string eqn:E; auto.
      apply String.eqb_eq in E. congruence.
  - intros nm. destruct (remove_config_succeeds nm w Hw) as (w' & H & Hc & _).
    exists w'. split; auto. rewrite Hc. split.
    + apply get_config_others_same.
    + intros nm' Hne. now apply get_config_others_other.
Qed.

Lemma others_absent (nm : string) (cs : list SSHConfig) :
  ~ In nm (map name cs) -> others nm cs = cs.
Proof.
  unfold others. induction cs as [|c cs IH]; simpl; intros H; auto.
  destruct (name c =? nm)%string eqn:E.
  - apply String.eqb_eq in E. tauto.
  - simpl. f_equal. apply IH. tauto.
Qed.

(** X2. Removing a name that no profile has leaves the profiles in memory
    exactly as they are, but the registry file is written all the same: if
    the write goes through the file holds a fresh token of the same
    profiles, and if it is refused the call raises [OSError]. *)
Theorem remove_absent_still_saves (nm : string) (w : World) :
  ~ In nm (map name (configs (manager w))) ->
  manager (final_state (remove_config nm w)) = manager w
  /\ (forall w', remove_config nm w = Ok tt w' ->
        exists n, config_file (env w')
                  = Contents (encrypt (key (manager w)) n
                                (dumps (document (configs (manager w))))))
  /\ (forall rest, writes (env w) = Refused :: rest ->
        exists w', remove_config nm w = Raise OSError w'
                   /\ config_file (env w') = config_file (env w)).
Proof.
  intros Hn. unfold remove_config, bind, modify.
  fold (others nm (configs (manager w))). rewrite (others_absent _ _ Hn).
  assert (E : set_configs (configs (manager w)) w = w)
    by (destruct w as [[k cs] e]; reflexivity).
  rewrite E. split; [apply save_keeps_manager|]. split.
  - intros w' H. now destruct (save_returns w w' H) as (_ & n & Hf); exists n.
  - intros rest Hr. unfold _save_config, bind, gets, zoom, next_nonce, write_bytes.
    destruct w as [m e]; simpl in *.
    destruct (nonces e); simpl; rewrite Hr; simpl; eexists; split; reflexivity.
Qed.

(** X3. The groups that remain after a removal are the groups of the
    remaining profiles: a group is still reported exactly when some profile
    with another name has it.  A group whose only profiles were the removed
    ones is gone. *)
Theorem groups_after_remove (nm : string) (w : World) (g : string) :
  In g (get_all_groups (configs (manager (final_state (remove_config nm w)))))
  <-> exists c, In c (configs (manager w)) /\ name c <> nm
                /\ group c = Some g /\ g <> EmptyString.
Proof.
  rewrite remove_config_final, get_all_groups_In. unfold others. split.
  - intros (c & Hc & Hg & Hne). apply filter_In in Hc. destruct Hc as [Hc Hn].
    exists c. repeat split; auto.
    intros E. rewrite E, String.eqb_refl in Hn. discriminate.
  - intros (c & Hc & Hn & Hg & Hne). exists c. repeat split; auto.
    apply filter_In. split; auto.
    apply String.eqb_neq in Hn. now rewrite Hn.
Qed.

End Lookup.

Lemma lookup_after_mutation_witness :
  writes_succeed (env (sample_world [web; db] []))
  /\ (exists w',
        add_config web2 (sample_world [web; db] []) = Ok tt w'
        /\ get_config (configs (manager w')) "web" = Some web2
        /\ get_config (configs (manager w')) "db" = Some db)
  /\ (exists w',
        remove_config "db" (sample_world [web; db] []) = Ok tt w'
        /\ get_config (configs (manager w')) "db" = None).
Proof.
  assert (Hw : writes_succeed (env (sample_world [web; db] []))) by constructor.
  split; [exact Hw|].
  destruct (lookup_after_mutation (sample_world [web; db] []) Hw) as [Ha Hr].
  split.
  - destruct (Ha web2) as (w' & H1 & H2 & H3). exists w'.
    split; [exact H1|]. split; [exact H2|].
    rewrite (H3 "db"); [reflexivity|discriminate].
  - destruct (Hr "db") as (w' & H1 & H2 & _). exists w'. auto.
Defined.

Lemma remove_absent_still_saves_witness :
  ~ In "mail" (map name [web; db])
  /\ manager (final_state (remove_config "mail" (sample_world [web; db] [Refused])))
     = manager (sample_world [web; db] [Refused])
  /\ exists w', remove_config "mail" (sample_world [web; db] [Refused])
                = Raise OSError w'.
Proof.
  assert (Hn : ~ In "mail" (map name [web; db])).
  { intros [E|[E|[]]]; discriminate E. }
  split; [exact Hn|].
  destruct (remove_absent_still_saves "mail" (sample_world [web; db] [Refused]) Hn)
    as (H1 & _ & H3).
  split; [exact H1|].
  destruct (H3 [] eq_refl) as (w' & H & _). now exists w'.
Defined.

(** * Strings *)

Section StringFacts.

Lemma append_nil_r (s : string) : (s ++ EmptyString)%string = s.
Proof. induction s as [|c s IH]; simpl; congruence. Qed.

Lemma append_assoc (a b c : string) :
  ((a ++ b) ++ c)%string = (a ++ (b ++ c))%string.
Proof. induction a as [|x a IH]; simpl; congruence. Qed.

Lemma length_append (a b : string) :
  String.length (a ++ b) = (String.length a + String.length b)%nat.
Proof. induction a as [|x a IH]; simpl; congruence. Qed.

Lemma prefix_append (a b : string) : String.prefix a (a ++ b) = true.
Proof.
  induction a as [|x a IH]; simpl.
  - now destruct b.
  - destruct (ascii_dec x x); [exact IH|congruence].
Qed.

Lemma prefix_inv (a s : string) :
  String.prefix a s = true -> s = (a ++ Py.drop (String.length a) s)%string.
Proof.
  revert s. induction a as [|x a IH]; intros s H; simpl; auto.
  destruct s as [|y s]; simpl in H; [discriminate|].
  destruct (ascii_dec x y); [|discriminate]. subst y.
  simpl. f_equal. now apply IH.
Qed.

Lemma drop_append (a b : string) : Py.drop (String.length a) (a ++ b) = b.
Proof. induction a as [|x a IH]; simpl; auto. Qed.

Lemma contains_append (c : ascii) (a b : string) :
  Py.contains c (a ++ b) = Py.contains c a || Py.contains c b.
Proof.
  induction a as [|x a IH]; simpl; auto.
  now rewrite IH, orb_assoc.
Qed.

Lemma split_not_nil (sep : ascii) (s : string) : Py.split sep s <> [].
Proof.
  induction s as [|c s IH]; simpl; [discriminate|].
  destruct (Ascii.eqb c sep); [discriminate|].
  destruct (Py.split sep s); discriminate.
Qed.

Lemma split_whole (sep : ascii) (s : string) :
  Py.contains sep s = false -> Py.split sep s = [s].
Proof.
  induction s as [|c s IH]; simpl; auto.
  intros H. apply orb_false_iff in H. destruct H as [Hc Hs].
  rewrite Hc, (IH Hs). reflexivity.
Qed.

Lemma split_append (sep : ascii) (a b : string) :
  Py.split sep (a ++ String sep b) = Py.split sep a ++ Py.split sep b.
Proof.
  induction a as [|c a IH]; simpl.
  - now rewrite Ascii.eqb_refl.
  - destruct (Ascii.eqb c sep); rewrite IH; auto.
    pose proof (split_not_nil sep a) as Hn.
    destruct (Py.split sep a); [congruence|reflexivity].
Qed.

Lemma join_cons (sep x : string) (l : list string) :
  l <> [] -> Py.join sep (x :: l) = (x ++ sep ++ Py.join sep l)%string.
Proof. destruct l; [congruence|reflexivity]. Qed.

Lemma join_snoc (sep x : string) (l : list string) :
  l <> [] -> Py.join sep (l ++ [x]) = (Py.join sep l ++ sep ++ x)%string.
Proof.
  induction l as [|y l IH]; [congruence|]. intros _.
  destruct l as [|z l].
  - reflexivity.
  - change ((y :: z :: l) ++ [x]) with (y :: ((z :: l) ++ [x])).
    rewrite join_cons by (destruct l; discriminate).
    rewrite IH by discriminate.
    rewrite (join_cons sep y (z :: l)) by discriminate.
    now rewrite !append_assoc.
Qed.

(** Splitting and joining again gives the string back. *)
Lemma join_split (sep : ascii) (s : string) :
  Py.join (String sep EmptyString) (Py.split sep s) = s.
Proof.
  induction s as [|c s IH]; simpl; auto.
  destruct (Ascii.eqb c sep) eqn:E.
  - apply Ascii.eqb_eq in E. subst c.
    rewrite join_cons by apply split_not_nil. now rewrite IH.
  - pose proof (split_not_nil sep s) as Hn.
    destruct (Py.split sep s) as [|p ps]; [congruence|].
    destruct ps as [|q ps]; simpl in *; congruence.
Qed.

Lemma last_part_split (sep : ascii) (a b : string) :
  Py.contains sep b = false ->
  Py.last_part (Py.split sep (a ++ String sep b)) = b.
Proof.
  intros H. unfold Py.last_part.
  rewrite split_append, (split_whole _ _ H). apply last_last.
Qed.

End StringFacts.

(** * Groups, continued *)

Section Children.

(** X4. The child groups of a path are the reported groups one segment
    below it: at the root, those without a slash; below a group [p], those
    of the form [p/seg] where [seg] has no slash.  They are listed in
    ascending order, each once. *)
Theorem child_groups_are_direct (cs : list SSHConfig) (gp : option string) :
  (forall g, Py.truthy gp = false ->
     (In g (get_child_groups cs gp)
      <-> In g (get_all_groups cs) /\ Py.contains "/" g = false))
  /\ (forall g p, gp = Some p -> Py.truthy gp = true ->
        (In g (get_child_groups cs gp)
         <-> In g (get_all_groups cs)
             /\ exists seg, g = (p ++ "/" ++ seg)%string
                            /\ Py.contains "/" seg = false))
  /\ ascending (fun g => g) (get_child_groups cs gp)
  /\ NoDup (get_child_groups cs gp).
Proof.
  split; [|split; [|split]].
  - intros g Hf. unfold get_child_groups.
    destruct gp as [p|]; [rewrite Hf|]; rewrite filter_In, negb_true_iff; tauto.
  - intros g p -> Ht. unfold get_child_groups. rewrite Ht.
    rewrite filter_In, andb_true_iff, negb_true_iff. unfold Py.startswith.
    split.
    + intros (Hin & Hp & Hc). split; auto.
      exists (Py.drop (String.length p + 1) g). split; auto.
      apply prefix_inv in Hp. rewrite length_append in Hp. simpl in Hp.
      now rewrite append_assoc in Hp.
    + intros (Hin & seg & -> & Hc). split; auto.
      rewrite <- append_assoc. split; [apply prefix_append|].
      replace (String.length p + 1)%nat with (String.length (p ++ "/"))
        by (now rewrite length_append).
      now rewrite drop_append.
  - unfold get_child_groups, get_all_groups, Py.sorted_set.
    assert (H : forall f l, ascending (fun g : string => g)
                              (filter f (Py.sorted (fun g => g) l))).
    { intros f l. pose proof (sorted_ascending (fun g : string => g) l) as Hs.
      unfold ascending in *.
      induction Hs as [|x xs Hs IH Hx]; simpl; [constructor|].
      destruct (f x); auto. constructor; auto.
      rewrite Forall_forall in *. intros y Hy. apply filter_In in Hy.
      apply Hx. tauto. }
    destruct gp as [p|]; [destruct (Py.truthy (Some p))|]; apply H.
  - apply get_child_groups_NoDup.
Qed.

End Children.

Lemma child_groups_are_direct_witness :
  Py.truthy (Some "a") = true
  /\ (In "a/b" (get_child_groups [api; cache; web] (Some "a"))
      <-> In "a/b" (get_all_groups [api; cache; web])
          /\ exists seg, "a/b" = ("a" ++ "/" ++ seg)%string
                         /\ Py.contains "/" seg = false)
  /\ Py.truthy None = false
  /\ (In "a/b" (get_child_groups [api; cache; web] None)
      <-> In "a/b" (get_all_groups [api; cache; web])
          /\ Py.contains "/" "a/b" = false).
Proof.
  split; [reflexivity|]. split.
  - exact (proj1 (proj2 (child_groups_are_direct [api; cache; web] (Some "a")))
             "a/b" "a" eq_refl eq_refl).
  - split; [reflexivity|].
    exact (proj1 (child_groups_are_direct [api; cache; web] None) "a/b" eq_refl).
Defined.

(** * The order of the listing *)

Section ListingOrder.

Lemma child_groups_at_path (cs : list SSHConfig) (path : list string) (g : string) :
  In g (get_child_groups cs (current_group path))
  <-> In g (get_all_groups cs) /\ direct_child (Py.join "/" path) g.
Proof.
  destruct path as [|x path].
  - cbn [current_group get_child_groups]. unfold direct_child. cbn.
    rewrite filter_In, negb_true_iff. tauto.
  - change (current_group (x :: path)) with (Some (Py.join "/" (x :: path))).
    remember (Py.join "/" (x :: path)) as J eqn:EJ. clear EJ.
    unfold get_child_groups, direct_child. destruct J as [|a J].
    + cbn [Py.truthy]. rewrite filter_In, negb_true_iff. tauto.
    + cbn [Py.truthy].
      rewrite filter_In, andb_true_iff, negb_true_iff. unfold Py.startswith.
      split.
      * intros (Hin & Hp & Hc). split; auto.
        exists (Py.drop (String.length (String a J) + 1) g). split; auto.
        apply prefix_inv in Hp. rewrite length_append in Hp. simpl in Hp.
        now rewrite append_assoc in Hp.
      * intros (Hin & seg & -> & Hc). split; auto.
        rewrite <- append_assoc. split; [apply prefix_append|].
        replace (String.length (String a J) + 1)%nat
          with (String.length (String a J ++ "/"))
          by (now rewrite length_append).
        now rewrite drop_append.
Qed.

Lemma group_configs_at_path (cs : list SSHConfig) (path : list string) :
  get_group_configs cs (current_group path)
  = filter (fun c => String.eqb (Py.or_empty (group c)) (Py.join "/" path)) cs.
Proof.
  assert (Hroot : filter (fun c => negb (Py.truthy (group c))) cs
                  = filter (fun c => String.eqb (Py.or_empty (group c)) "") cs).
  { apply filter_ext. intros c. destruct (group c) as [[|a g]|]; reflexivity. }
  destruct path as [|x path].
  - exact Hroot.
  - change (current_group (x :: path)) with (Some (Py.join "/" (x :: path))).
    remember (Py.join "/" (x :: path)) as J eqn:EJ. clear EJ.
    unfold get_group_configs. destruct J as [|a J]; [exact Hroot|].
    cbn [Py.truthy negb]. apply filter_ext. intros c.
    destruct (group c) as [g|]; reflexivity.
Qed.

(** C10, as the code has it.  The listing is: the up-entry, first, exactly
    when the path is not empty; then group entries, in strictly ascending
    order of their paths; then profile entries, in ascending order of their
    names.  Every group shown is one segment below the current path and is
    the group of a profile or a prefix of one; every group that a profile
    names and that is one segment below the current path is shown.  The
    profiles shown are those whose group is the current path (at the root,
    those without a group).  Reordering the registry changes neither the
    kinds nor the keys of the entries, and changes nothing at all when the
    names are distinct. *)
Theorem display_items_order (cs : list SSHConfig) (path : list string) :
  exists G P,
    build_items cs path
    = (match path with [] => [] | _ => [up_item] end)
      ++ map (group_item cs) G ++ map config_item P
    /\ ~ In up_item (map (group_item cs) G ++ map config_item P)
    /\ ascending (fun g => g) G
    /\ NoDup G
    /\ (forall g,
          In g G ->
          direct_child (Py.join "/" path) g
          /\ exists c g',
               In c cs /\ group c = Some g'
               /\ (g' = g \/ Py.startswith (g ++ "/") g' = true))
    /\ (forall g c,
          In c cs -> group c = Some g -> g <> EmptyString ->
          direct_child (Py.join "/" path) g ->
          In g G)
    /\ ascending name P
    /\ Permutation P
         (filter (fun c => String.eqb (Py.or_empty (group c)) (Py.join "/" path))
                 cs)
    /\ forall cs',
         Permutation cs cs' ->
         map sort_key (build_items cs' path) = map sort_key (build_items cs path)
         /\ (NoDup (map name cs) -> build_items cs' path = build_items cs path).
Proof.
  exists (Py.sorted (fun g => g) (get_child_groups cs (current_group path))),
         (Py.sorted name (get_group_configs cs (current_group path))).
  assert (HG : forall g,
            In g (Py.sorted (fun g => g) (get_child_groups cs (current_group path)))
            <-> In g (get_all_groups cs) /\ direct_child (Py.join "/" path) g).
  { intros g. rewrite <- child_groups_at_path.
    split; apply Permutation_in; [|symmetry]; apply sorted_perm. }
  split; [reflexivity|].
  split.
  { intros H. apply in_app_or in H. destruct H as [H|H];
      apply in_map_iff in H; destruct H as (x & E & _); discriminate E. }
  split; [apply sorted_ascending|].
  split.
  { apply (Permutation_NoDup (Permutation_sym (sorted_perm _ _))).
    apply get_child_groups_NoDup. }
  split.
  { intros g Hg. apply HG in Hg. destruct Hg as (Hin & Hd). split; [exact Hd|].
    apply get_all_groups_In in Hin. destruct Hin as (c & Hc & Hgc & _).
    exists c, g. auto. }
  split.
  { intros g c Hc Hgc Hne Hd. apply HG. split; [|exact Hd].
    apply get_all_groups_In. exists c. auto. }
  split; [apply sorted_ascending|].
  split; [rewrite <- group_configs_at_path; apply sorted_perm|].
  intros cs' Hp. unfold build_items.
  rewrite (get_child_groups_perm cs cs' _ Hp), (group_items_perm cs cs' _ Hp).
  split.
  - rewrite !map_app. do 2 f_equal.
    rewrite !sort_key_config_items.
    rewrite <- !(map_map name (fun n => (type_config, n))). f_equal.
    rewrite !map_sorted. apply sorted_strings_unique.
    apply Permutation_map. now apply get_group_configs_perm.
  - intros Hn. do 3 f_equal.
    apply sorted_unique.
    + apply unique_keys.
      apply (Permutation_NoDup
               (Permutation_map name (Permutation_sym (get_group_configs_perm cs cs' _ Hp)))).
      unfold get_group_configs.
      destruct (negb (Py.truthy (current_group path)));
        now apply NoDup_names_filter.
    + now apply get_group_configs_perm.
Qed.

End ListingOrder.

Lemma display_items_order_witness :
  Permutation [web; db] [db; web]
  /\ NoDup (map name [web; db])
  /\ build_items [db; web] [] = build_items [web; db] []
  /\ map sort_key (build_items [web2; db; web] [])
     = map sort_key (build_items [web; db; web2] [])
  /\ build_items [api; cache; web] ["a"]
     = [up_item; group_item [api; cache; web] "a/b";
        group_item [api; cache; web] "a/c"].
Proof.
  assert (Hp : Permutation [web; db] [db; web]) by apply perm_swap.
  assert (Hn : NoDup (map name [web; db])).
  { constructor; [intros [E|[]]; discriminate E|].
    constructor; [intros []|constructor]. }
  split; [exact Hp|]. split; [exact Hn|]. split; [|split].
  - destruct (display_items_order [web; db] [])
      as (G & P & _ & _ & _ & _ & _ & _ & _ & _ & H).
    exact (proj2 (H [db; web] Hp) Hn).
  - destruct (display_items_order [web; db; web2] [])
      as (G & P & _ & _ & _ & _ & _ & _ & _ & _ & H).
    refine (proj1 (H [web2; db; web] _)).
    apply (Permutation_rev [web; db; web2]).
  - reflexivity.
Defined.

(** C10, as stated, fails on the independence of the registry's order: two
    profiles of the same name are listed in the order the registry has
    them. *)
Lemma listing_follows_registry_order :
  Permutation [web; web2] [web2; web]
  /\ build_items [web; web2] [] = [config_item web; config_item web2]
  /\ build_items [web2; web] [] = [config_item web2; config_item web]
  /\ build_items [web2; web] [] <> build_items [web; web2] [].
Proof.
  split; [apply perm_swap|]. split; [reflexivity|]. split; [reflexivity|].
  discriminate.
Qed.

(** * What a computation leaves alone *)

Section Keeps.
Context {S : Type} (P : S -> S -> Prop).
Hypothesis P_refl : forall s, P s s.
Hypothesis P_trans : forall a b c, P a b -> P b c -> P a c.

Lemma keeps_ret {A} (a : A) : keeps P (ret a).
Proof. intros s. apply P_refl. Qed.

Lemma keeps_raise {A} (x : exn) : keeps P (raise (A := A) x).
Proof. intros s. apply P_refl. Qed.

Lemma keeps_gets {A} (f : S -> A) : keeps P (gets f).
Proof. intros s. apply P_refl. Qed.

Lemma keeps_or_raise {A} (x : exn) (o : option A) : keeps P (or_raise x o).
Proof. destruct o; intros s; apply P_refl. Qed.

Lemma keeps_bind {A B} (m : M S A) (k : A -> M S B) :
  keeps P m -> (forall a, keeps P (k a)) -> keeps P (bind m k).
Proof.
  intros Hm Hk s. unfold bind. specialize (Hm s).
  destruct (m s) as [a s1|x s1]; simpl in *; auto.
  eapply P_trans; [exact Hm|apply Hk].
Qed.

Lemma keeps_try_except {A} (m : M S A) (handles : exn -> bool)
    (h : exn -> M S A) :
  keeps P m -> (forall x, keeps P (h x)) -> keeps P (try_except m handles h).
Proof.
  intros Hm Hh s. unfold try_except. specialize (Hm s).
  destruct (m s) as [a s1|x s1]; simpl in *; auto.
  destruct (handles x); auto.
  eapply P_trans; [exact Hm|apply Hh].
Qed.

Lemma keeps_mapM {A B} (f : A -> M S B) (l : list A) :
  (forall a, keeps P (f a)) -> keeps P (mapM f l).
Proof.
  intros Hf. induction l as [|a l IH]; simpl.
  - apply keeps_ret.
  - apply keeps_bind; [apply Hf|intros b].
    apply keeps_bind; [exact IH|intros bs]. apply keeps_ret.
Qed.

End Keeps.

(** * Start-up and the files *)

Section Startup.
Context {R : Runtime}.

Lemma format_config_pure {S} (v : json) : keeps (@eq S) (format_config v).
Proof.
  assert (Hs : forall k, keeps (@eq S) (subscript v k)).
  { intros k. unfold subscript. destruct v; try apply keeps_raise; auto.
    apply keeps_or_raise; auto. }
  assert (Hg : forall k, keeps (@eq S) (get_method v k)).
  { intros k. unfold get_method.
    destruct v; try apply keeps_raise; auto. apply keeps_ret; auto. }
  unfold format_config.
  repeat (apply keeps_bind; [congruence|auto|intros ?]).
  apply keeps_ret; auto.
Qed.

Lemma try_all_returns {S A} (m : M S A) (f : exn -> A) (s : S) :
  exists a, try_except m (fun _ => true) (fun e => ret (f e)) s
            = Ok a (final_state (m s)).
Proof.
  unfold try_except. destruct (m s) as [a s1|x s1]; simpl; eexists; reflexivity.
Qed.

(** X5. [decrypt_config] never raises and changes nothing: whatever the
    state of the files, it returns a text and leaves the manager and the
    environment as they were.  Without a registry file the text says so;
    with a file that the key does not decrypt, the text reports the
    library's error. *)
Theorem decrypt_config_never_raises (w : World) :
  exists text,
    decrypt_config w = Ok text w
    /\ (config_file (env w) = Absent -> text = "No config file found.")
    /\ (forall b, config_file (env w) = Contents b ->
          decrypt (key (manager w)) b = None ->
          text = ("Error decrypting config: " ++ exn_text InvalidToken)%string).
Proof.
  unfold decrypt_config, bind at 1, gets at 1.
  destruct (file_exists (config_file (env w))) eqn:Hex; simpl.
  - match goal with
    | |- context [try_except ?m ?h ?f w] =>
        assert (Hk : keeps (@eq World) m);
        [|destruct (try_all_returns m
                      (fun e => ("Error decrypting config: " ++ str_of_exn e)%string) w)
            as (text & Ht)]
    end.
    { apply keeps_bind; [congruence| |intros encrypted].
      { intros s. unfold zoom, read_bytes.
        destruct s as [m e]; simpl. destruct (config_file e); reflexivity. }
      apply keeps_bind; [congruence|apply keeps_gets; auto|intros k].
      apply keeps_bind; [congruence|apply keeps_or_raise; auto|intros d].
      apply keeps_bind; [congruence|apply keeps_or_raise; auto|intros j].
      apply keeps_bind; [congruence|apply keeps_or_raise; auto|intros items].
      apply keeps_bind; [congruence| |intros texts; apply keeps_ret; auto].
      apply keeps_mapM; auto; [congruence|]. intros v. apply format_config_pure. }
    rewrite <- (Hk w) in Ht. exists text. split; [exact Ht|]. split.
    + intros Ha. rewrite Ha in Hex. discriminate.
    + intros b Hb Hd. revert Ht.
      unfold try_except, bind at 1, zoom, read_bytes. rewrite Hb.
      unfold bind at 1, gets at 1. simpl. rewrite Hd. simpl.
      intros Ht. now inversion Ht.
  - eexists. split; [reflexivity|]. split; auto.
    intros b Hb. rewrite Hb in Hex. discriminate.
Qed.

Lemma key_loaded (e e1 : Env) (k : bytes) :
  _load_or_create_key e = Ok k e1 ->
  key_file e1 = Contents k /\ valid_key k = true
  /\ config_file e1 = config_file e /\ dir_ok e1 = dir_ok e
  /\ (file_exists (key_file e) = true -> e1 = e).
Proof.
  unfold _load_or_create_key, bind at 1, gets at 1. intros H.
  apply bind_returns in H. destruct H as (k1 & s2 & H1 & H).
  destruct (valid_key k1) eqn:Hv; [|discriminate].
  inversion H; subst; clear H.
  destruct (file_exists (key_file e)) eqn:Hex.
  - unfold read_bytes in H1.
    destruct (key_file e) as [| |b] eqn:Hf; try discriminate.
    inversion H1; subst. rewrite Hf. auto.
  - unfold bind, next_nonce, write_bytes, ret in H1.
    destruct (nonces e) as [|n ns]; simpl in H1;
      (destruct (writes e) as [|[| |b] ws]; inversion H1; subst; simpl;
       repeat split; auto; discriminate).
Qed.

Lemma init_parts (e e1 : Env) (m : SSHManager) :
  SSHManager_init e = Ok m e1 ->
  exists e0,
    dir_ok e = true
    /\ _load_or_create_key e = Ok (key m) e0
    /\ _load_config (key m) e0 = Ok (configs m) e1.
Proof.
  unfold SSHManager_init. intros H.
  apply bind_returns in H. destruct H as ([] & s1 & H0 & H).
  unfold mkdir in H0. destruct (dir_ok e) eqn:Hd; [|discriminate].
  inversion H0; subst; clear H0.
  apply bind_returns in H. destruct H as (k & s2 & H1 & H).
  apply bind_returns in H. destruct H as (cs & s3 & H2 & H).
  inversion H; subst; clear H. simpl. exists s2. auto.
Qed.

(** X6. Starting again.  A start-up that succeeds leaves the key in the key
    file and does not touch the registry file; if the key file was already
    there it changes nothing at all.  Starting once more from what it left
    gives the same manager, key and profiles, and changes nothing. *)
Theorem init_again (e e1 : Env) (m : SSHManager) :
  SSHManager_init e = Ok m e1 ->
  SSHManager_init e1 = Ok m e1
  /\ key_file e1 = Contents (key m)
  /\ valid_key (key m) = true
  /\ config_file e1 = config_file e
  /\ (file_exists (key_file e) = true -> e1 = e).
Proof.
  intros H. destruct (init_parts _ _ _ H) as (e0 & Hd & Hk & Hl).
  destruct (key_loaded _ _ _ Hk) as (Hkf & Hv & Hcf & Hdo & Hsame).
  destruct (load_returns _ _ _ _ Hl) as [-> _].
  repeat split; auto.
  unfold SSHManager_init, bind at 1, mkdir. rewrite Hdo, Hd.
  unfold bind at 1, _load_or_create_key, bind at 1, gets at 1.
  rewrite Hkf. simpl. unfold bind at 1, read_bytes. rewrite Hkf, Hv.
  unfold ret at 1, bind at 1. rewrite Hl. destruct m; reflexivity.
Qed.

Lemma load_keeps_files (k : bytes) :
  keeps (fun e e' : Env => config_file e' = config_file e) (_load_config k).
Proof.
  intros e. unfold _load_config, bind at 1, gets at 1.
  destruct (file_exists (config_file e)); [|reflexivity].
  unfold bind at 1, read_bytes.
  destruct (config_file e) as [| |b] eqn:Hf; simpl; auto.
  assert (Hk : keeps (@eq Env)
                 (decrypted_data <- or_raise InvalidToken (decrypt k b) ;;
                  config_data <- or_raise JSONDecodeError (loads decrypted_data) ;;
                  items <- or_raise TypeError (iterate config_data) ;;
                  objects <- mapM construct items ;;
                  or_raise Unmodelled (all_typed objects))).
  { repeat (apply keeps_bind; [congruence|apply keeps_or_raise; auto|intros ?]).
    apply keeps_bind; [congruence| |intros objects; apply keeps_or_raise; auto].
    apply keeps_mapM; auto; [congruence|]. intros v. unfold construct.
    destruct (from_kwargs v); [apply keeps_ret|apply keeps_ret|apply keeps_raise];
      auto. }
  now rewrite <- (Hk e).
Qed.

Lemma key_keeps_registry_file :
  keeps (fun e e' : Env => config_file e' = config_file e) _load_or_create_key.
Proof.
  unfold _load_or_create_key.
  apply keeps_bind; [congruence|apply keeps_gets; auto|intros ex].
  apply keeps_bind; [congruence| |intros k].
  - destruct ex.
    + intros e. unfold read_bytes. destruct (key_file e); reflexivity.
    + apply keeps_bind; [congruence| |intros n].
      { intros e. unfold next_nonce. destruct (nonces e); reflexivity. }
      apply keeps_bind; [congruence| |intros []; apply keeps_ret; auto].
      intros e. unfold write_bytes.
      destruct (writes e) as [|[| |b] ws]; reflexivity.
  - destruct (valid_key k); [apply keeps_ret|apply keeps_raise]; auto.
Qed.

(** X7. Whatever start-up does, it never writes the registry file: its
    content after [SSHManager()] is its content before, whether start-up
    succeeded or raised.  If it raised an exception, the registry file is as
    it was, and the program ends with exit code 1, with or without
    [--show-config] and whatever keys were waiting.  (Where the embedding
    stops at [Unmodelled], a registry holding values of other types than the
    declared ones, only the first part is stated.) *)
Theorem startup_never_writes_registry (e : Env) :
  config_file (final_state (SSHManager_init e)) = config_file e
  /\ (forall x e1 flag inputs,
        SSHManager_init e = Raise x e1 ->
        config_file e1 = config_file e
        /\ (x <> Unmodelled -> main flag inputs e = (Exit 1, e1))).
Proof.
  assert (H : config_file (final_state (SSHManager_init e)) = config_file e).
  { assert (Hk : keeps (fun e e' : Env => config_file e' = config_file e)
                   SSHManager_init).
    { unfold SSHManager_init.
      apply keeps_bind; [congruence| |intros []].
      { intros s. unfold mkdir. destruct (dir_ok s); reflexivity. }
      apply keeps_bind; [congruence|apply key_keeps_registry_file|intros k].
      apply keeps_bind; [congruence|apply load_keeps_files|intros cs].
      apply keeps_ret. auto. }
    apply Hk. }
  split; [exact H|].
  intros x e1 flag inputs Hr. rewrite Hr in H. split; [exact H|].
  intros Hx. unfold main, SSHManagerUI_init, bind. rewrite Hr.
  destruct x; now destruct flag.
Qed.

Lemma save_returns_env (w w' : World) :
  _save_config w = Ok tt w' ->
  key_file (env w') = key_file (env w) /\ dir_ok (env w') = dir_ok (env w).
Proof.
  unfold _save_config, bind, gets, zoom, next_nonce, write_bytes.
  destruct w as [m e]; simpl.
  destruct (nonces e) as [|n ns]; simpl;
    (destruct (writes e) as [|[| |b] ws]; simpl; intros H; inversion H; subst;
     simpl; auto).
Qed.

Lemma init_from_saved {L : RuntimeLaws R} (w w' : World) :
  valid_key (key (manager w)) = true ->
  key_file (env w) = Contents (key (manager w)) ->
  dir_ok (env w) = true ->
  _save_config w = Ok tt w' ->
  SSHManager_init (env w') = Ok (manager w') (env w').
Proof.
  intros Hv Hk Hd Hs.
  destruct (save_returns _ _ Hs) as (Hm & n & Hf).
  destruct (save_returns_env _ _ Hs) as (Hkf & Hdo).
  unfold SSHManager_init, bind at 1, mkdir. rewrite Hdo, Hd.
  unfold bind at 1, _load_or_create_key, bind at 1, gets at 1.
  rewrite Hkf, Hk. simpl. unfold bind at 1, read_bytes. rewrite Hkf, Hk, Hv.
  unfold ret at 1, bind at 1.
  rewrite (load_token _ n (configs (manager w)) (env w') Hv Hf).
  rewrite Hm. destruct (manager w); reflexivity.
Qed.

(** X8. What was saved is what the next start loads.  For a manager whose
    key is the valid key in the key file: after an [add_config] or a
    [remove_config] that returns, [SSHManager()] run on the files it left
    gives a manager with the same key and exactly the profiles that were in
    memory. *)
Theorem restart_after_mutation {L : RuntimeLaws R} (w : World) :
  valid_key (key (manager w)) = true ->
  key_file (env w) = Contents (key (manager w)) ->
  dir_ok (env w) = true ->
  (forall p w', add_config p w = Ok tt w' ->
     SSHManager_init (env w') = Ok (manager w') (env w'))
  /\ (forall nm w', remove_config nm w = Ok tt w' ->
        SSHManager_init (env w') = Ok (manager w') (env w')).
Proof.
  intros Hv Hk Hd. split.
  - intros p w' H. apply add_config_returns in H. destruct H as (w1 & H1 & H2).
    apply remove_config_returns in H1.
    destruct (save_returns _ _ H1) as (Hm1 & _).
    destruct (save_returns_env _ _ H1) as (Hk1 & Hd1).
    apply (init_from_saved _ _) in H2; auto; simpl.
    + now rewrite Hm1.
    + rewrite Hk1, Hm1. exact Hk.
    + rewrite Hd1. exact Hd.
  - intros nm w' H. apply remove_config_returns in H.
    now apply (init_from_saved _ _) in H.
Qed.

End Startup.

Lemma init_again_witness :
  (exists m e1,
     SSHManager_init (mkEnv (R := sample_runtime) true Absent Absent [3%nat] [] [] [] [])
     = Ok m e1
     /\ SSHManager_init e1 = Ok m e1
     /\ key_file e1 = Contents (key m)
     /\ configs m = []).
Proof.
  eexists. eexists. split; [reflexivity|].
  split; [|split; reflexivity].
  apply (init_again (mkEnv (R := sample_runtime) true Absent Absent [3%nat] [] [] [] [])).
  reflexivity.
Defined.

Lemma startup_never_writes_registry_witness :
  SSHManager_init foreign_env = Raise InvalidToken foreign_env
  /\ InvalidToken <> Unmodelled
  /\ main false [Key (ord "q")] foreign_env = (Exit 1, foreign_env)
  /\ config_file foreign_env = Contents (sample_token [web; db]).
Proof.
  split; [reflexivity|].
  split; [discriminate|].
  split; [|reflexivity].
  apply (proj2 (proj2 (startup_never_writes_registry foreign_env)
                  InvalidToken foreign_env false [Key (ord "q")] eq_refl)).
  discriminate.
Defined.

Lemma restart_after_mutation_witness :
  valid_key (key (manager (sample_world [web] []))) = true
  /\ exists w',
       add_config db (sample_world [web] []) = Ok tt w'
       /\ SSHManager_init (env w') = Ok (mkSSHManager sample_key [web; db]) (env w').
Proof.
  split; [reflexivity|].
  eexists. split; [reflexivity|].
  apply (proj1 (@restart_after_mutation sample_runtime sample_laws
                  (sample_world [web] []) eq_refl eq_refl eq_refl) db).
  reflexivity.
Defined.

Lemma groups_after_remove_witness :
  (In "a/b" (get_all_groups (configs (manager (final_state
      (remove_config "cache" (sample_world [api; cache; web] []))))))
   <-> exists c, In c [api; cache; web] /\ name c <> "cache"
                 /\ group c = Some "a/b" /\ "a/b" <> EmptyString)
  /\ ~ In "a/c" (get_all_groups (configs (manager (final_state
        (remove_config "cache" (sample_world [api; cache; web] [])))))).
Proof.
  split.
  - exact (groups_after_remove "cache" (sample_world [api; cache; web] []) "a/b").
  - intros H.
    apply (proj1 (groups_after_remove "cache" (sample_world [api; cache; web] []) "a/c")) in H.
    destruct H as (c & Hc & Hn & Hg & _).
    destruct Hc as [<-|[<-|[<-|[]]]]; try discriminate Hg. now apply Hn.
Defined.

Lemma decrypt_config_never_raises_witness :
  exists text,
    decrypt_config (mkWorld (mkSSHManager other_key [web]) (sample_env [web; db] []))
    = Ok text (mkWorld (mkSSHManager other_key [web]) (sample_env [web; db] []))
    /\ text = "Error decrypting config: error".
Proof.
  destruct (decrypt_config_never_raises
              (mkWorld (mkSSHManager other_key [web]) (sample_env [web; db] [])))
    as (text & H & _ & Hb).
  exists text. split; [exact H|].
  exact (Hb (sample_token [web; db]) eq_refl eq_refl).
Defined.

(** * The interface between turns *)

Ltac ui_simpl :=
  cbn [final_state ui senv ssh_manager current_index mode editing_config
       current_field input_values message message_timeout delete_confirm
       current_path display_items password_visible set_ssh_manager
       set_current_index set_mode set_editing_config set_current_field
       set_input_values set_message set_message_timeout set_delete_confirm
       set_current_path set_display_items set_password_visible
       set_world world_of manager env key configs] in *.

Ltac ok_leaf :=
  unfold session_ok in *; ui_simpl;
  repeat match goal with H : _ /\ _ |- _ => destruct H end;
  repeat split; auto; try lia; try congruence; try discriminate.

Section Sessions.
Context {R : Runtime}.

Lemma cursor_cases (cf : Z) :
  0 <= cf <= 6 -> cf = 0 \/ cf = 1 \/ cf = 2 \/ cf = 3 \/ cf = 4 \/ cf = 5 \/ cf = 6.
Proof. lia. Qed.

Lemma current_input_field_returns (s : Session) :
  0 <= current_field (ui s) <= 6 ->
  exists f, current_input_field s = Ok f s
            /\ Py.index input_fields (current_field (ui s)) = Some f.
Proof.
  intros H. unfold current_input_field, bind, gets.
  destruct (cursor_cases _ H) as [E|[E|[E|[E|[E|[E|E]]]]]]; rewrite E;
    eexists; split; reflexivity.
Qed.

(** X9. Nothing done in the form reaches the registry before Enter.  With
    the cursor on one of the seven fields, every key other than Enter is
    handled without an exception, leaves the manager and the whole
    environment (files included) as they were and keeps the cursor on a
    field.  Escape returns to the list and forgets the profile being edited;
    any other key stays in the form. *)
Theorem form_keys_keep_registry (s : Session) (k : Z) :
  0 <= current_field (ui s) <= 6 ->
  k <> KEY_ENTER ->
  exists s',
    handle_add_input k s = Ok true s'
    /\ ssh_manager (ui s') = ssh_manager (ui s)
    /\ senv s' = senv s
    /\ 0 <= current_field (ui s') <= 6
    /\ (k = KEY_ESC -> mode (ui s') = mode_list /\ editing_config (ui s') = None)
    /\ (k <> KEY_ESC -> mode (ui s') = mode (ui s)
                        /\ editing_config (ui s') = editing_config (ui s)).
Proof.
  intros Hc Hk.
  destruct (current_input_field_returns s Hc) as (f & Hf & _).
  unfold handle_add_input, bind at 1, gets at 1, bind at 1.
  destruct ((k =? KEY_UP) && (0 <? current_field (ui s))) eqn:E1.
  { apply andb_true_iff in E1. destruct E1 as [E1 E1'].
    apply Z.eqb_eq in E1. apply Z.ltb_lt in E1'.
    eexists. split; [reflexivity|]. simpl. 
    repeat split; auto; try lia; subst k; discriminate. }
  destruct ((k =? KEY_DOWN) && (current_field (ui s) <? Py.len input_fields - 1)) eqn:E2.
  { apply andb_true_iff in E2. destruct E2 as [E2 E2'].
    apply Z.eqb_eq in E2. apply Z.ltb_lt in E2'. 
    eexists. split; [reflexivity|]. simpl.
    change (Py.len input_fields - 1) with 6 in E2'.
    repeat split; auto; try lia; subst k; discriminate. }
  destruct (k =? KEY_ESC) eqn:E3.
  { apply Z.eqb_eq in E3. eexists. split; [reflexivity|]. simpl.
    repeat split; auto; try lia; congruence. }
  apply Z.eqb_neq in E3.
  destruct (k =? KEY_CTRL_T) eqn:E4.
  { unfold bind at 1. rewrite Hf. destruct f; 
    (eexists; split; [reflexivity|]; simpl; repeat split; auto; try lia; congruence). }
  destruct (k =? KEY_ENTER) eqn:E5.
  { apply Z.eqb_eq in E5. congruence. }
  destruct ((32 <=? k) && (k <=? 126)) eqn:E6.
  { unfold bind at 1. rewrite Hf.
    eexists; split; [reflexivity|]; simpl; repeat split; auto; try lia; congruence. }
  destruct ((k =? KEY_BACKSPACE) || (k =? KEY_DEL)) eqn:E7.
  { unfold bind at 1. rewrite Hf.
    eexists; split; [reflexivity|]; simpl; repeat split; auto; try lia; congruence. }
  eexists; split; [reflexivity|]; simpl; repeat split; auto; try lia; congruence.
Qed.

Lemma zoom_final {S T A} (g : S -> T) (st : T -> S -> S) (m : M T A) (s : S) :
  final_state (zoom g st m s) = st (final_state (m (g s))) s.
Proof. unfold zoom. destruct (m (g s)); reflexivity. Qed.

Lemma on_manager_cases {A} (m : M World A) (s : Session) :
  (exists a, on_manager m s = Ok a (set_world (final_state (m (world_of s))) s))
  \/ (exists x, on_manager m s = Raise x (set_world (final_state (m (world_of s))) s)).
Proof.
  unfold on_manager, zoom. destruct (m (world_of s)); simpl; eauto.
Qed.


Lemma confirm_delete_ok (k : Z) (s : Session) :
  session_ok s -> session_ok (final_state (handle_confirm_delete k s)).
Proof.
  intros H. unfold handle_confirm_delete.
  destruct (k =? ord "y").
  - unfold bind at 1, gets at 1.
    destruct (delete_confirm (ui s)) as [c|] eqn:Hd; [|exact H].
    unfold bind at 1, or_raise, ret at 1, bind at 1.
    pose proof (remove_config_final (name c) (world_of s)) as Hc.
    destruct (on_manager_cases (remove_config (name c)) s) as [(a & E)|(x & E)];
      rewrite E; clear E.
    + simpl.
      destruct (Py.len (display_items (ui s)) <=? current_index (ui s)); simpl;
        ok_leaf; try (rewrite Hc; now apply names_others_NoDup).
    + simpl. ok_leaf. rewrite Hc. now apply names_others_NoDup.
  - destruct ((k =? ord "n") || (k =? KEY_ESC)); simpl; ok_leaf.
Qed.


Lemma index_In {A} (l : list A) (i : Z) (x : A) :
  Py.index l i = Some x -> In x l.
Proof.
  unfold Py.index.
  destruct ((0 <=? i) && (i <? Py.len l)); [apply nth_error_In|].
  destruct ((- Py.len l <=? i) && (i <? 0)); [apply nth_error_In|discriminate].
Qed.

Lemma build_items_well_formed (cs : list SSHConfig) (path : list string) :
  Forall well_formed_item (build_items cs path).
Proof.
  unfold build_items. apply Forall_app. split.
  - destruct path; repeat constructor.
  - apply Forall_app. split; apply Forall_forall; intros it Hit;
      apply in_map_iff in Hit; destruct Hit as (x & <- & _); exact I.
Qed.

Lemma selected_item_cases (s : Session) :
  (exists it, selected_item s = Ok it s /\ In it (display_items (ui s)))
  \/ selected_item s = Raise IndexError s.
Proof.
  unfold selected_item, bind, gets.
  destruct (Py.index (display_items (ui s)) (current_index (ui s))) as [it|] eqn:E.
  - left. exists it. split; auto. now apply index_In in E.
  - now right.
Qed.

Lemma same_but_message_refl (u : SSHManagerUI) : same_but_message u u.
Proof. reflexivity. Qed.

Lemma same_but_message_trans (a b c : SSHManagerUI) :
  same_but_message a b -> same_but_message b c -> same_but_message a c.
Proof. unfold same_but_message. congruence. Qed.

Lemma on_env_same_ui {A} (m : M Env A) :
  keeps (fun s s' : Session => same_but_message (ui s) (ui s')) (on_env m).
Proof.
  intros s. unfold on_env. rewrite zoom_final. reflexivity.
Qed.

Lemma show_message_same_ui (msg : string) :
  keeps (fun s s' : Session => same_but_message (ui s) (ui s')) (show_message msg).
Proof. intros s. reflexivity. Qed.

Lemma connect_same_ui (prog flag failed closed : string) (c : SSHConfig) :
  keeps (fun s s' : Session => same_but_message (ui s) (ui s'))
        (connect prog flag failed closed c).
Proof.
  pose proof (fun a b c => same_but_message_trans (ui a) (ui b) (ui c)) as T.
  unfold connect.
  apply keeps_bind; [exact T|apply on_env_same_ui|intros []].
  apply keeps_bind; [exact T|apply on_env_same_ui|intros p].
  destruct p as [code|why].
  - destruct (code =? 0); [apply show_message_same_ui|].
    destruct (code =? 6); apply show_message_same_ui.
  - apply keeps_bind; [exact T|apply on_env_same_ui|intros []].
    destruct (Py.truthy (password c)).
    + repeat (apply keeps_bind; [exact T|apply on_env_same_ui|intros []]).
      apply on_env_same_ui.
    + apply keeps_ret. intros s. reflexivity.
Qed.

Lemma session_ok_same_ui (s s' : Session) :
  same_but_message (ui s) (ui s') -> session_ok s -> session_ok s'.
Proof.
  unfold same_but_message, session_ok. intros E H.
  destruct s as [u e], s' as [u' e']. cbn [ui] in *.
  destruct u, u'. cbn in E. inversion E; subst. exact H.
Qed.

Lemma start_edit_ok (d : item_data) (s : Session) :
  session_ok s -> session_ok (final_state (start_edit d s)).
Proof.
  intros H. unfold start_edit, bind, as_config.
  destruct d; auto. unfold ret, on_ui, modify. ok_leaf.
Qed.

Lemma connect_ok (prog flag failed closed msg : string) (c : SSHConfig) (s : Session) :
  session_ok s ->
  session_ok (final_state
    ((show_message msg ;;; connect prog flag failed closed c) s)).
Proof.
  intros H.
  pose proof (fun a b c => same_but_message_trans (ui a) (ui b) (ui c)) as T.
  assert (K : keeps (fun s s' : Session => same_but_message (ui s) (ui s'))
                (show_message msg ;;; connect prog flag failed closed c)).
  { apply keeps_bind; [exact T|apply show_message_same_ui|intros []].
    apply connect_same_ui. }
  exact (session_ok_same_ui _ _ (K s) H).
Qed.

Lemma final_then_ret {S A B} (m : M S A) (b : B) (s : S) :
  final_state ((m ;;; ret b) s) = final_state (m s).
Proof. unfold bind, ret. destruct (m s); reflexivity. Qed.

Lemma handle_list_input_ok (k : Z) (s : Session) :
  session_ok s -> session_ok (final_state (handle_list_input k s)).
Proof.
  intros H. unfold handle_list_input, bind at 1 2 3, gets at 1 2 3.
  destruct ((k =? KEY_UP) && (0 <? current_index (ui s))) eqn:E1.
  { apply andb_true_iff in E1. destruct E1 as [_ E1]. apply Z.ltb_lt in E1.
    rewrite final_then_ret. unfold on_ui, modify. ok_leaf. }
  destruct ((k =? KEY_DOWN) && _) eqn:E2.
  { rewrite final_then_ret. unfold on_ui, modify. ok_leaf. }
  destruct (k =? KEY_ENTER).
  { rewrite final_then_ret.
    destruct (negb (Py.len (display_items (ui s)) =? 0)); [|exact H].
    unfold bind at 1.
    destruct (selected_item_cases s) as [(it & E & Hin)|E]; rewrite E; [|exact H].
    destruct it as [[label ty] data]. destruct ty.
    - destruct (label =? "..")%string.
      + destruct (current_path (ui s)); unfold ret, on_ui, modify; ok_leaf.
      + unfold on_ui, modify. ok_leaf.
    - now apply start_edit_ok. }
  destruct (k =? ord "a").
  { rewrite final_then_ret. unfold on_ui, modify. ok_leaf. }
  destruct ((k =? ord "e") && _).
  { unfold bind at 1.
    destruct (selected_item_cases s) as [(it & E & Hin)|E]; rewrite E; [|exact H].
    rewrite final_then_ret.
    destruct it as [[label ty] data]. destruct ty; [exact H|].
    now apply start_edit_ok. }
  destruct ((k =? ord "d") && _).
  { unfold bind at 1.
    destruct (selected_item_cases s) as [(it & E & Hin)|E]; rewrite E; [|exact H].
    rewrite final_then_ret.
    destruct it as [[label ty] data]. destruct ty; [exact H|].
    assert (Hw : well_formed_item (label, type_config, data)).
    { destruct H as (_ & _ & _ & _ & _ & Hf).
      rewrite Forall_forall in Hf. now apply Hf. }
    destruct data; try contradiction. unfold on_ui, modify. ok_leaf. }
  destruct (k =? ord "q"); [exact H|].
  destruct ((k =? ord "c") && _).
  { unfold bind at 1.
    destruct (selected_item_cases s) as [(it & E & Hin)|E]; rewrite E; [|exact H].
    rewrite final_then_ret.
    destruct it as [[label ty] data]. destruct ty; [exact H|].
    destruct data; try exact H.
    unfold as_config, bind at 1, ret at 1. now apply connect_ok. }
  destruct ((k =? ord "s") && _).
  { unfold bind at 1.
    destruct (selected_item_cases s) as [(it & E & Hin)|E]; rewrite E; [|exact H].
    rewrite final_then_ret.
    destruct it as [[label ty] data]. destruct ty; [exact H|].
    destruct data; try exact H.
    unfold as_config, bind at 1, ret at 1. now apply connect_ok. }
  exact H.
Qed.




Lemma stays_ok_trans (a b c : Session) :
  stays_ok a b -> stays_ok b c -> stays_ok a c.
Proof. unfold stays_ok. auto. Qed.

Lemma stays_ok_refl (a : Session) : stays_ok a a.
Proof. unfold stays_ok. auto. Qed.

Lemma same_ui_stays_ok {A} (m : M Session A) :
  keeps (fun s s' : Session => same_but_message (ui s) (ui s')) m ->
  keeps stays_ok m.
Proof. intros K s H. exact (session_ok_same_ui _ _ (K s) H). Qed.

Lemma remove_stays_ok (nm : string) : keeps stays_ok (on_manager (remove_config nm)).
Proof.
  intros s H. unfold on_manager. rewrite zoom_final.
  pose proof (remove_config_final nm (world_of s)) as Hc.
  unfold session_ok in *. ui_simpl. rewrite Hc.
  destruct H as (Hn & H). split; auto. now apply names_others_NoDup.
Qed.

Lemma add_stays_ok (c : SSHConfig) : keeps stays_ok (on_manager (add_config c)).
Proof.
  intros s H. unfold on_manager. rewrite zoom_final.
  destruct (add_config_final c (world_of s)) as (tail & Hc & Ht).
  unfold session_ok in *. ui_simpl. rewrite Hc.
  destruct H as (Hn & H). split; auto.
  destruct Ht as [-> | ->].
  - rewrite app_nil_r. now apply names_others_NoDup.
  - now apply names_upsert_NoDup.
Qed.

Lemma submit_stays_ok : keeps stays_ok submit.
Proof.
  unfold submit.
  apply keeps_bind; [exact stays_ok_trans|apply keeps_gets, stays_ok_refl|intros v].
  apply keeps_bind; [exact stays_ok_trans| |intros p].
  { unfold parse_port. destruct (Py.int_of_str (v_port v));
      [apply keeps_ret|apply keeps_raise|apply keeps_raise];
      apply stays_ok_refl. }
  apply keeps_bind; [exact stays_ok_trans|apply keeps_gets, stays_ok_refl|intros m].
  apply keeps_bind; [exact stays_ok_trans| |intros []].
  - assert (Hadd : keeps stays_ok
                     (on_manager (add_config (profile_of_form v p)) ;;;
                      show_message ("Added connection: "
                                      ++ name (profile_of_form v p)))).
    { apply keeps_bind; [exact stays_ok_trans|apply add_stays_ok|intros []].
      apply same_ui_stays_ok, show_message_same_ui. }
    destruct m; try exact Hadd.
    apply keeps_bind; [exact stays_ok_trans|apply keeps_gets, stays_ok_refl|intros ec].
    apply keeps_bind; [exact stays_ok_trans|apply keeps_or_raise, stays_ok_refl|intros old].
    apply keeps_bind; [exact stays_ok_trans|apply remove_stays_ok|intros []].
    apply keeps_bind; [exact stays_ok_trans|apply add_stays_ok|intros []].
    apply same_ui_stays_ok, show_message_same_ui.
  - intros s H. unfold on_ui, modify. ok_leaf.
Qed.

Lemma current_input_field_pure : keeps (@eq Session) current_input_field.
Proof.
  unfold current_input_field.
  apply keeps_bind; [congruence|apply keeps_gets; auto|intros cf].
  apply keeps_or_raise; auto.
Qed.

Lemma handle_add_input_ok (k : Z) (s : Session) :
  session_ok s -> session_ok (final_state (handle_add_input k s)).
Proof.
  intros H. unfold handle_add_input, bind at 1, gets at 1.
  rewrite final_then_ret.
  assert (Hf : forall g : field -> M Session unit,
             (forall f, keeps stays_ok (g f)) ->
             session_ok (final_state (bind current_input_field g s))).
  { intros g Hg. unfold bind.
    pose proof (current_input_field_pure s) as Hp.
    destruct (current_input_field s) as [f s1|x s1]; simpl in Hp; subst s1; auto.
    now apply Hg. }
  destruct ((k =? KEY_UP) && (0 <? current_field (ui s))) eqn:E1.
  { apply andb_true_iff in E1. destruct E1 as [_ E1]. apply Z.ltb_lt in E1.
    unfold on_ui, modify. ok_leaf. }
  destruct ((k =? KEY_DOWN) && _) eqn:E2.
  { apply andb_true_iff in E2. destruct E2 as [_ E2]. apply Z.ltb_lt in E2.
    change (Py.len input_fields - 1) with 6 in E2.
    unfold on_ui, modify. ok_leaf. }
  destruct (k =? KEY_ESC).
  { unfold on_ui, modify. ok_leaf. }
  destruct (k =? KEY_CTRL_T).
  { apply Hf. intros f. destruct f; try (apply keeps_ret, stays_ok_refl).
    intros s1 H1. unfold on_ui, modify. ok_leaf. }
  destruct (k =? KEY_ENTER).
  { assert (K : keeps stays_ok
                  (try_except submit is_ValueError
                     (fun e => show_message ("Error: " ++ str_of_exn e)))).
    { apply keeps_try_except; [exact stays_ok_trans|apply submit_stays_ok|].
      intros x. apply same_ui_stays_ok, show_message_same_ui. }
    now apply K. }
  destruct ((32 <=? k) && (k <=? 126)).
  { apply Hf. intros f s1 H1. unfold on_ui, modify. ok_leaf. }
  destruct ((k =? KEY_BACKSPACE) || (k =? KEY_DEL)).
  { apply Hf. intros f s1 H1. unfold on_ui, modify. ok_leaf. }
  exact H.
Qed.

Lemma tick_message_same_ui :
  keeps (fun s s' : Session => same_but_message (ui s) (ui s')) tick_message.
Proof.
  intros s. unfold tick_message, on_ui, modify. ui_simpl.
  destruct (message (ui s)); [reflexivity|].
  destruct (0 <? message_timeout (ui s)); [|reflexivity].
  ui_simpl. destruct (message_timeout (ui s) - 1 =? 0); reflexivity.
Qed.

Lemma draw_stays_ok (m : Mode) : keeps stays_ok (draw m).
Proof.
  assert (Hl : keeps stays_ok draw_list).
  { unfold draw_list.
    apply keeps_bind; [exact stays_ok_trans| |intros []].
    - intros s H. unfold _build_display_items, on_ui, modify. ok_leaf.
      apply build_items_well_formed.
    - apply same_ui_stays_ok, tick_message_same_ui. }
  destruct m; simpl; auto.
  - apply keeps_ret, stays_ok_refl.
  - apply keeps_ret, stays_ok_refl.
  - unfold draw_confirm_delete.
    apply keeps_bind; [exact stays_ok_trans|apply keeps_gets, stays_ok_refl|intros dc].
    destruct dc; [apply same_ui_stays_ok, tick_message_same_ui
                 |apply keeps_raise, stays_ok_refl].
Qed.

Lemma turn_stays_ok (i : input) : keeps stays_ok (turn i).
Proof.
  unfold turn.
  apply keeps_bind; [exact stays_ok_trans|apply keeps_gets, stays_ok_refl|intros m].
  apply keeps_bind; [exact stays_ok_trans|apply draw_stays_ok|intros []].
  destruct i as [k|].
  - destruct m; simpl; intros s H.
    + now apply handle_list_input_ok.
    + now apply handle_add_input_ok.
    + now apply handle_add_input_ok.
    + now apply confirm_delete_ok.
  - apply keeps_bind; [exact stays_ok_trans| |intros []].
    { intros s H. unfold on_ui, modify. ok_leaf. }
    apply keeps_bind; [exact stays_ok_trans| |intros []; apply keeps_ret, stays_ok_refl].
    apply same_ui_stays_ok, show_message_same_ui.
Qed.

(** X11. The session stays in order.  The interface that [SSHManagerUI()]
    builds is in order as soon as the loaded names are unique, and whatever
    sequence of keys and interrupts [run] is fed, and whether it returns or
    raises midway, it leaves the session in order: names unique, the cursor
    on one of the seven fields, the selection not negative, a profile being
    edited in edit mode, a profile awaiting deletion in confirm mode, and
    every "config" entry of the listing carrying a profile. *)
Theorem session_stays_in_order :
  (forall e u e1,
     SSHManagerUI_init e = Ok u e1 ->
     NoDup (map name (configs (ssh_manager u))) ->
     session_ok (mkSession u e1))
  /\ (forall inputs s, session_ok s -> session_ok (final_state (run inputs s))).
Proof.
  split.
  - intros e u e1 H Hn. unfold SSHManagerUI_init in H.
    apply bind_returns in H. destruct H as (m & e2 & _ & H).
    inversion H; subst; clear H.
    unfold session_ok. cbn. repeat split; auto; try lia; discriminate.
  - intros inputs. induction inputs as [|i rest IH]; intros s H; [exact H|].
    cbn [run]. unfold bind.
    pose proof (turn_stays_ok i s H) as Ht.
    destruct (turn i s) as [[|] s1|x s1]; simpl in Ht; auto.
Qed.


Lemma raises_only_bind {S A B} (E : exn -> Prop) (m : M S A) (k : A -> M S B) (s : S) :
  raises_only E (m s) ->
  (forall a s1, m s = Ok a s1 -> raises_only E (k a s1)) ->
  raises_only E (bind m k s).
Proof.
  unfold bind. destruct (m s) as [a s1|x s1]; simpl; auto.
Qed.

Lemma raises_only_then_ret {S A B} (E : exn -> Prop) (m : M S A) (b : B) (s : S) :
  raises_only E (m s) -> raises_only E ((m ;;; ret b) s).
Proof. unfold bind, ret. destruct (m s); simpl; auto. Qed.

Lemma on_env_never_raises {A} (E : exn -> Prop) (m : M Env A) (s : Session) :
  (forall e, raises_only E (m e)) -> raises_only E (on_env m s).
Proof.
  intros H. unfold on_env, zoom. specialize (H (senv s)).
  destruct (m (senv s)); simpl in *; auto.
Qed.

Lemma connect_never_raises (prog flag failed closed : string) (c : SSHConfig)
    (s : Session) :
  raises_only (fun _ => False) (connect prog flag failed closed c s).
Proof.
  assert (Hp : forall line st, raises_only (fun _ => False) (on_env (print line) st)).
  { intros line st. apply on_env_never_raises. intros e. exact I. }
  unfold connect.
  apply raises_only_bind.
  { apply on_env_never_raises. intros e. exact I. }
  intros [] s1 _. apply raises_only_bind.
  { apply on_env_never_raises. intros e. unfold pop_proc.
    destruct (procs e); exact I. }
  intros p s2 _. destruct p as [code|why].
  - destruct (code =? 0); [exact I|]. destruct (code =? 6); exact I.
  - apply raises_only_bind; [apply Hp|intros [] s3 _].
    destruct (Py.truthy (password c)); [|exact I].
    repeat (apply raises_only_bind; [apply Hp|intros [] ? _]). apply Hp.
Qed.

Lemma list_input_raises (k : Z) (s : Session) :
  Forall well_formed_item (display_items (ui s)) ->
  raises_only (fun x => x = IndexError) (handle_list_input k s).
Proof.
  intros Hw. unfold handle_list_input, bind at 1 2 3, gets at 1 2 3.
  assert (Hsel : forall (B : Type) (g : item -> M Session B),
            (forall label ty data,
               In (label, ty, data) (display_items (ui s)) ->
               raises_only (fun x => x = IndexError) (g (label, ty, data) s)) ->
            raises_only (fun x => x = IndexError) (bind selected_item g s)).
  { intros B g Hg. unfold bind.
    destruct (selected_item_cases s) as [(it & E & Hin)|E]; rewrite E;
      [|reflexivity].
    destruct it as [[label ty] data]. now apply Hg. }
  assert (Hedit : forall label data,
            In (label, type_config, data) (display_items (ui s)) ->
            raises_only (fun x => x = IndexError) (start_edit data s)).
  { intros label data Hin. rewrite Forall_forall in Hw.
    specialize (Hw _ Hin). destruct data; try contradiction. exact I. }
  assert (Hconn : forall (conn : SSHConfig -> M Session unit)
                         (msg : SSHConfig -> string) label data,
            (forall c st, raises_only (fun _ => False) (conn c st)) ->
            In (label, type_config, data) (display_items (ui s)) ->
            raises_only (fun x => x = IndexError)
              ((d <- as_config data ;; show_message (msg d) ;;; conn d) s)).
  { intros conn msg label data Hn Hin. rewrite Forall_forall in Hw.
    specialize (Hw _ Hin). destruct data; try contradiction.
    unfold as_config, bind at 1, ret at 1.
    apply raises_only_bind; [exact I|intros [] s1 _].
    specialize (Hn c s1). destruct (conn c s1); simpl in *; tauto. }
  destruct ((k =? KEY_UP) && _); [exact I|].
  destruct ((k =? KEY_DOWN) && _); [exact I|].
  destruct (k =? KEY_ENTER).
  { apply raises_only_then_ret.
    destruct (negb _); [|exact I].
    apply Hsel. intros label ty data Hin. destruct ty.
    - destruct (label =? "..")%string; [|exact I].
      destruct (current_path (ui s)); exact I.
    - now apply (Hedit label). }
  destruct (k =? ord "a"); [exact I|].
  destruct ((k =? ord "e") && _).
  { apply Hsel. intros label ty data Hin. apply raises_only_then_ret.
    destruct ty; [exact I|]. now apply (Hedit label). }
  destruct ((k =? ord "d") && _).
  { apply Hsel. intros label ty data Hin. apply raises_only_then_ret.
    destruct ty; exact I. }
  destruct (k =? ord "q"); [exact I|].
  destruct ((k =? ord "c") && _).
  { apply Hsel. intros label ty data Hin. apply raises_only_then_ret.
    destruct ty; [exact I|].
    apply (Hconn connect_to_ssh
             (fun d => ("Connecting to " ++ host d ++ "...")%string) label);
      auto.
    intros c st. apply connect_never_raises. }
  destruct ((k =? ord "s") && _).
  { apply Hsel. intros label ty data Hin. apply raises_only_then_ret.
    destruct ty; [exact I|].
    apply (Hconn connect_to_sftp
             (fun d => ("Starting SFTP session with " ++ host d ++ "...")%string)
             label); auto.
    intros c st. apply connect_never_raises. }
  exact I.
Qed.

Lemma on_manager_raises {A} (m : M World A) (s : Session) :
  (forall w w' x, m w = Raise x w' -> x = OSError) ->
  raises_only (fun x => x = OSError) (on_manager m s).
Proof.
  intros H. unfold on_manager, zoom.
  destruct (m (world_of s)) eqn:E; simpl; auto. eapply H; eauto.
Qed.

Lemma ascii_not_NonAscii (t : string) :
  forallb Py.is_ascii (list_ascii_of_string t) = true ->
  Py.int_of_str t <> Py.NonAscii.
Proof.
  intros H. unfold Py.int_of_str. rewrite H.
  destruct (Py.literal _); [|discriminate].
  destruct (_ <=? _)%nat; discriminate.
Qed.

Lemma submit_raises (s : Session) :
  forallb Py.is_ascii (list_ascii_of_string (v_port (input_values (ui s)))) = true ->
  (mode (ui s) = mode_edit -> editing_config (ui s) <> None) ->
  raises_only (fun x => is_ValueError x = true \/ x = OSError) (submit s).
Proof.
  intros Ha He. apply ascii_not_NonAscii in Ha.
  unfold submit, bind at 1, gets at 1.
  apply raises_only_bind.
  { unfold parse_port. destruct (Py.int_of_str _); simpl; auto. }
  intros p s1 Hp.
  assert (s1 = s) as ->.
  { unfold parse_port in Hp. destruct (Py.int_of_str _); inversion Hp. auto. }
  cbv zeta. unfold bind at 1, gets at 1.
  apply raises_only_bind; [|intros [] s2 _; exact I].
  assert (Hadd : forall c msg st,
            raises_only (fun x => is_ValueError x = true \/ x = OSError)
              ((on_manager (add_config c) ;;; show_message msg) st)).
  { intros c msg st. apply raises_only_bind; [|intros [] s2 _; exact I].
    pose proof (on_manager_raises (add_config c) st (add_config_raises c)) as Hr.
    destruct (on_manager (add_config c) st); simpl in *; auto. }
  destruct (mode (ui s)) eqn:Hm; try apply Hadd.
  unfold bind at 1, gets at 1.
  destruct (editing_config (ui s)) as [old|]; [|now destruct He].
  unfold bind at 1, or_raise, ret at 1.
  apply raises_only_bind.
  { pose proof (on_manager_raises (remove_config (name old)) s
                  (remove_config_raises (name old))) as Hr.
    destruct (on_manager (remove_config (name old)) s); simpl in *; auto. }
  intros [] s2 _. apply Hadd.
Qed.

Lemma add_input_raises (k : Z) (s : Session) :
  forallb Py.is_ascii (list_ascii_of_string (v_port (input_values (ui s)))) = true ->
  0 <= current_field (ui s) <= 6 ->
  (mode (ui s) = mode_edit -> editing_config (ui s) <> None) ->
  raises_only (fun x => x = OSError) (handle_add_input k s).
Proof.
  intros Ha Hc He. unfold handle_add_input, bind at 1, gets at 1.
  apply raises_only_then_ret.
  destruct (current_input_field_returns s Hc) as (f & Hf & _).
  destruct ((k =? KEY_UP) && _); [exact I|].
  destruct ((k =? KEY_DOWN) && _); [exact I|].
  destruct (k =? KEY_ESC); [exact I|].
  destruct (k =? KEY_CTRL_T).
  { unfold bind. rewrite Hf. destruct f; exact I. }
  destruct (k =? KEY_ENTER).
  { unfold try_except. pose proof (submit_raises s Ha He) as Hr.
    destruct (submit s) as [[] s1|x s1]; simpl in *; auto.
    destruct (is_ValueError x) eqn:Ev; [exact I|].
    destruct Hr as [Hr|Hr]; congruence. }
  destruct ((32 <=? k) && (k <=? 126)).
  { unfold bind. rewrite Hf. exact I. }
  destruct ((k =? KEY_BACKSPACE) || (k =? KEY_DEL)).
  { unfold bind. rewrite Hf. exact I. }
  exact I.
Qed.

Lemma confirm_delete_raises (k : Z) (s : Session) :
  delete_confirm (ui s) <> None ->
  raises_only (fun x => x = OSError) (handle_confirm_delete k s).
Proof.
  intros Hd. unfold handle_confirm_delete.
  destruct (k =? ord "y").
  - unfold bind at 1, gets at 1.
    destruct (delete_confirm (ui s)) as [c|]; [|congruence].
    unfold bind at 1, or_raise, ret at 1.
    apply raises_only_bind; [|intros [] s2 _; exact I].
    pose proof (on_manager_raises (remove_config (name c)) s
                  (remove_config_raises (name c))) as Hr.
    destruct (on_manager (remove_config (name c)) s); simpl in *; auto.
  - destruct ((k =? ord "n") || (k =? KEY_ESC)); exact I.
Qed.


Lemma tick_message_returns (s : Session) :
  exists s1, tick_message s = Ok tt s1 /\ same_but_message (ui s) (ui s1).
Proof.
  pose proof (tick_message_same_ui s) as H.
  unfold tick_message, on_ui, modify in *. eexists. split; [reflexivity|exact H].
Qed.

(** X12. The two ways a key handler can fail.  From a session in order
    whose port text is plain ASCII (keys and [str] of a port give no other),
    the handler of the current mode raises only an [IndexError], and then in
    list mode (the selection is past the end of the listing), or an
    [OSError], and then in the form or the confirmation (a save failed).
    The keys of list mode that call into curses themselves, [q], [c] and
    [s], are left out, and so is drawing: what curses raises is not part of
    the statement. *)
Theorem handler_crashes (s : Session) (k : Z) :
  session_ok s ->
  forallb Py.is_ascii (list_ascii_of_string (v_port (input_values (ui s)))) = true ->
  (mode (ui s) = mode_list -> k <> ord "q" /\ k <> ord "c" /\ k <> ord "s") ->
  raises_only
    (fun x => (x = IndexError /\ mode (ui s) = mode_list)
              \/ (x = OSError /\ mode (ui s) <> mode_list))
    (handle (mode (ui s)) k s).
Proof.
  intros H Ha _.
  destruct (mode (ui s)) eqn:Hm; cbn [handle].
  - destruct H as (_ & _ & _ & _ & _ & Hw).
    pose proof (list_input_raises k s Hw) as Hr.
    destruct (handle_list_input k s); simpl in *; auto.
  - destruct H as (_ & Hc & _ & He & _). rewrite Hm in He.
    pose proof (add_input_raises k s Ha Hc) as Hr. rewrite Hm in Hr.
    specialize (Hr He).
    destruct (handle_add_input k s); simpl in *; auto.
    right. split; auto. discriminate.
  - destruct H as (_ & Hc & _ & He & _). rewrite Hm in He.
    pose proof (add_input_raises k s Ha Hc) as Hr. rewrite Hm in Hr.
    specialize (Hr He).
    destruct (handle_add_input k s); simpl in *; auto.
    right. split; auto. discriminate.
  - destruct H as (_ & _ & _ & _ & Hd & _). rewrite Hm in Hd.
    specialize (Hd eq_refl).
    pose proof (confirm_delete_raises k s Hd) as Hr.
    destruct (handle_confirm_delete k s); simpl in *; auto.
    right. split; auto. discriminate.
Qed.

Lemma list_ascii_of_append (a b : string) :
  list_ascii_of_string (a ++ b) = list_ascii_of_string a ++ list_ascii_of_string b.
Proof. induction a as [|x a IH]; simpl; [reflexivity|now rewrite IH]. Qed.

Lemma chop_append_char (v : string) (c : ascii) :
  Py.is_continuation c = false ->
  Py.chop (v ++ String c EmptyString) = v.
Proof.
  intros Hc. unfold Py.chop.
  rewrite list_ascii_of_append. cbn [list_ascii_of_string].
  rewrite rev_unit. cbn [Py.drop_last_char]. rewrite Hc.
  rewrite rev_involutive. apply string_of_list_ascii_of_string.
Qed.

Lemma key_not_continuation (k : Z) :
  32 <= k <= 126 -> Py.is_continuation (ascii_of_nat (Z.to_nat k)) = false.
Proof.
  intros H. unfold Py.is_continuation.
  rewrite nat_ascii_embedding by lia.
  apply andb_false_iff. left. apply Nat.leb_gt. lia.
Qed.

Lemma set_value_twice (f : field) (a b : string) (v : Form) :
  set_value f a (set_value f b v) = set_value f a v.
Proof. destruct f; reflexivity. Qed.

Lemma get_set_value (f : field) (a : string) (v : Form) :
  get_value f (set_value f a v) = a.
Proof. destruct f; reflexivity. Qed.

Lemma set_get_value (f : field) (v : Form) :
  set_value f (get_value f v) v = v.
Proof. destruct f, v; reflexivity. Qed.

Lemma get_set_other (f f' : field) (a : string) (v : Form) :
  f' <> f -> get_value f' (set_value f a v) = get_value f' v.
Proof. destruct f, f'; intros H; try reflexivity; congruence. Qed.

(** X10. Typing and deleting.  With the cursor on a field, a printable key
    appends its character to that field and to no other, and Backspace (or
    Delete) right after it gives back the session exactly as it was. *)
Theorem type_then_backspace (s : Session) (k del : Z) :
  0 <= current_field (ui s) <= 6 ->
  32 <= k <= 126 ->
  del = KEY_BACKSPACE \/ del = KEY_DEL ->
  exists f s1,
    Py.index input_fields (current_field (ui s)) = Some f
    /\ handle_add_input k s = Ok true s1
    /\ get_value f (input_values (ui s1))
       = (get_value f (input_values (ui s)) ++ chr k)%string
    /\ (forall f', f' <> f ->
          get_value f' (input_values (ui s1)) = get_value f' (input_values (ui s)))
    /\ handle_add_input del s1 = Ok true s.
Proof.
  intros Hc Hk Hdel.
  destruct (current_input_field_returns s Hc) as (f & Hf & Hi).
  exists f.
  assert (E1 : handle_add_input k s
               = Ok true (mkSession
                   (set_input_values
                      (set_value f (get_value f (input_values (ui s)) ++ chr k)
                                 (input_values (ui s))) (ui s)) (senv s))).
  { unfold handle_add_input, bind at 1, gets at 1.
    replace ((k =? KEY_UP) && _) with false
      by (symmetry; apply andb_false_iff; left; apply Z.eqb_neq; unfold KEY_UP; lia).
    replace ((k =? KEY_DOWN) && _) with false
      by (symmetry; apply andb_false_iff; left; apply Z.eqb_neq; unfold KEY_DOWN; lia).
    replace (k =? KEY_ESC) with false
      by (symmetry; apply Z.eqb_neq; unfold KEY_ESC; lia).
    replace (k =? KEY_CTRL_T) with false
      by (symmetry; apply Z.eqb_neq; unfold KEY_CTRL_T; lia).
    replace (k =? KEY_ENTER) with false
      by (symmetry; apply Z.eqb_neq; unfold KEY_ENTER; lia).
    replace ((32 <=? k) && (k <=? 126)) with true
      by (symmetry; apply andb_true_iff; split; apply Z.leb_le; lia).
    unfold bind at 1, bind at 1. rewrite Hf. reflexivity. }
  eexists. split; [exact Hi|]. split; [exact E1|].
  cbn [ui input_values set_input_values].
  split; [apply get_set_value|]. split; [intros f' Hn; now apply get_set_other|].
  assert (Hf1 : forall st : Session,
            current_field (ui st) = current_field (ui s) ->
            current_input_field st = Ok f st).
  { intros st E. unfold current_input_field, bind, gets. rewrite E, Hi. reflexivity. }
  unfold handle_add_input, bind at 1, gets at 1.
  cbn [ui current_field set_input_values].
  replace ((del =? KEY_UP) && _) with false
    by (destruct Hdel; subst del; reflexivity).
  replace ((del =? KEY_DOWN) && _) with false
    by (destruct Hdel; subst del; reflexivity).
  replace (del =? KEY_ESC) with false by (destruct Hdel; subst del; reflexivity).
  replace (del =? KEY_CTRL_T) with false by (destruct Hdel; subst del; reflexivity).
  replace (del =? KEY_ENTER) with false by (destruct Hdel; subst del; reflexivity).
  replace ((32 <=? del) && (del <=? 126)) with false
    by (destruct Hdel; subst del; reflexivity).
  replace ((del =? KEY_BACKSPACE) || (del =? KEY_DEL)) with true
    by (destruct Hdel; subst del; reflexivity).
  unfold bind at 1, bind at 1. rewrite Hf1 by reflexivity.
  unfold on_ui, modify, bind, ret. cbn [ui senv input_values set_input_values].
  rewrite get_set_value. unfold chr.
  rewrite chop_append_char by now apply key_not_continuation.
  rewrite set_value_twice, set_get_value.
  destruct s as [u e]. destruct u. reflexivity.
Qed.


End Sessions.

Lemma sample_session_ok (cs : list SSHConfig) :
  NoDup (map name cs) -> session_ok (sample_session cs []).
Proof.
  intros H. unfold session_ok. cbn.
  repeat split; auto; try lia; discriminate.
Qed.

Lemma form_keys_keep_registry_witness :
  0 <= current_field (ui (sample_form "80" [web])) <= 6
  /\ ord "x" <> KEY_ENTER
  /\ exists s',
       handle_add_input (ord "x") (sample_form "80" [web]) = Ok true s'
       /\ ssh_manager (ui s') = ssh_manager (ui (sample_form "80" [web]))
       /\ senv s' = senv (sample_form "80" [web])
       /\ v_port (input_values (ui s')) = "80x".
Proof.
  assert (Hc : 0 <= current_field (ui (sample_form "80" [web])) <= 6)
    by (vm_compute; split; discriminate).
  assert (Hk : ord "x" <> KEY_ENTER) by discriminate.
  split; [exact Hc|]. split; [exact Hk|].
  destruct (form_keys_keep_registry (sample_form "80" [web]) (ord "x") Hc Hk)
    as (s' & H & Hm & He & _).
  exists s'. repeat split; auto.
  vm_compute in H. inversion H. reflexivity.
Defined.

Lemma type_then_backspace_witness :
  0 <= current_field (ui (sample_form "80" [web])) <= 6
  /\ exists s1,
       handle_add_input (ord "8") (sample_form "80" [web]) = Ok true s1
       /\ v_port (input_values (ui s1)) = "808"
       /\ handle_add_input KEY_BACKSPACE s1 = Ok true (sample_form "80" [web]).
Proof.
  assert (Hc : 0 <= current_field (ui (sample_form "80" [web])) <= 6)
    by (vm_compute; split; discriminate).
  split; [exact Hc|].
  destruct (type_then_backspace (sample_form "80" [web]) (ord "8") KEY_BACKSPACE Hc)
    as (f & s1 & Hi & H1 & Hv & _ & H2).
  - vm_compute; split; discriminate.
  - now left.
  - exists s1. split; [exact H1|]. split; [|exact H2].
    vm_compute in Hi. inversion Hi; subst f. exact Hv.
Defined.

Lemma session_stays_in_order_witness :
  NoDup (map name [web; db])
  /\ session_ok (sample_session [web; db] [])
  /\ session_ok (final_state
       (run [Key KEY_DOWN; Key (ord "d"); Key (ord "y"); Key KEY_ENTER]
            (sample_session [web; db] []))).
Proof.
  assert (Hn : NoDup (map name [web; db])).
  { constructor; [intros [E|[]]; discriminate E|].
    constructor; [intros []|constructor]. }
  split; [exact Hn|].
  destruct (@session_stays_in_order sample_runtime) as [Hstart Hrun].
  assert (H0 : session_ok (sample_session [web; db] [])).
  { exact (Hstart (sample_env [web; db] []) _ _
             (sample_session_initial [web; db] []) Hn). }
  split; [exact H0|].
  exact (Hrun _ _ H0).
Defined.

Lemma handler_crashes_witness :
  session_ok (mkSession (set_current_index 5 (ui (sample_session [web; db] [])))
                        (sample_env [web; db] []))
  /\ KEY_ENTER <> ord "q"
  /\ raises_only
       (fun x => (x = IndexError /\ mode_list = mode_list)
                 \/ (x = OSError /\ mode_list <> mode_list))
       (handle mode_list KEY_ENTER
          (final_state
             (draw mode_list
                (mkSession (set_current_index 5 (ui (sample_session [web; db] [])))
                           (sample_env [web; db] [])))))
  /\ exists s',
       turn (Key KEY_ENTER)
            (mkSession (set_current_index 5 (ui (sample_session [web; db] [])))
                       (sample_env [web; db] []))
       = Raise IndexError s'.
Proof.
  assert (H0 : session_ok
                 (mkSession (set_current_index 5 (ui (sample_session [web; db] [])))
                            (sample_env [web; db] []))).
  { unfold session_ok. cbn. repeat split; auto; try lia; try discriminate.
    constructor; [intros [E|[]]; discriminate E|].
    constructor; [intros []|constructor]. }
  split; [exact H0|]. split; [discriminate|]. split.
  - apply (handler_crashes
             (final_state
                (draw mode_list
                   (mkSession (set_current_index 5 (ui (sample_session [web; db] [])))
                              (sample_env [web; db] []))))).
    + exact (draw_stays_ok mode_list _ H0).
    + reflexivity.
    + intros _. repeat split; discriminate.
  - eexists. vm_compute. reflexivity.
Defined.

(** * Connecting, messages and interrupts *)

Section Connecting.
Context {R : Runtime}.

Lemma index_nonempty {A} (l : list A) (i : Z) (x : A) :
  Py.index l i = Some x -> (Py.len l =? 0) = false.
Proof.
  intros H. apply index_In in H. unfold Py.len.
  destruct l; [destruct H|]. reflexivity.
Qed.

(** What printing leaves alone. *)
Lemma failure_notes_return (failed why : string) (c : SSHConfig) (st : Session) :
  exists st',
    (on_env (print (failed ++ " failed: " ++ why)) ;;;
     (if Py.truthy (password c) then
        on_env (print "Note: Make sure 'sshpass' is installed on your system.") ;;;
        on_env (print "On Ubuntu/Debian: sudo apt-get install sshpass") ;;;
        on_env (print "On Fedora: sudo dnf install sshpass") ;;;
        on_env (print "On Arch: sudo pacman -S sshpass")
      else ret tt)) st = Ok tt st'
    /\ ui st' = ui st
    /\ key_file (senv st') = key_file (senv st)
    /\ config_file (senv st') = config_file (senv st)
    /\ launched (senv st') = launched (senv st).
Proof.
  set (P := fun a b : Session =>
              ui b = ui a /\ key_file (senv b) = key_file (senv a)
              /\ config_file (senv b) = config_file (senv a)
              /\ launched (senv b) = launched (senv a)).
  assert (Pt : forall a b c0 : Session, P a b -> P b c0 -> P a c0).
  { unfold P. intros a b c0 (A1 & A2 & A3 & A4) (B1 & B2 & B3 & B4).
    repeat split; congruence. }
  assert (Pp : forall line, keeps P (on_env (print line))).
  { intros line a. unfold on_env. rewrite zoom_final. unfold P. repeat split. }
  assert (Np : forall line a, raises_only (fun _ => False) (on_env (print line) a)).
  { intros line a. apply on_env_never_raises. intros e. exact I. }
  match goal with
  | |- exists st', ?m st = _ /\ _ =>
      assert (K : keeps P m); [|assert (N : raises_only (fun _ => False) (m st))]
  end.
  - apply keeps_bind; [exact Pt|apply Pp|intros []].
    destruct (Py.truthy (password c)).
    + repeat (apply keeps_bind; [exact Pt|apply Pp|intros []]). apply Pp.
    + apply keeps_ret. intros a. unfold P. repeat split.
  - apply raises_only_bind; [apply Np|intros [] s1 _].
    destruct (Py.truthy (password c)); [|exact I].
    repeat (apply raises_only_bind; [apply Np|intros [] ? _]). apply Np.
  - specialize (K st). revert K N.
    match goal with
    | |- context [final_state (?m st)] => destruct (m st) as [[] st'|x st']
    end; simpl; intros K N; [|contradiction].
    exists st'. split; [reflexivity|exact K].
Qed.

(** X13. Connecting changes nothing but the message.  With a profile
    selected, [c] launches exactly one client, with the command line and
    the SSHPASS value that [client_command] builds, and returns to the
    loop.  The interface object is as before except for the message, and
    the key file and the registry file are untouched.  The message then
    tells how the client ended: closed for exit code 0, an authentication
    failure for 6, the exit code otherwise. *)
Theorem connect_changes_message_only (s : Session) (label : string) (c : SSHConfig) :
  Py.index (display_items (ui s)) (current_index (ui s))
  = Some (label, type_config, data_config c) ->
  exists s',
    handle_list_input (ord "c") s = Ok true s'
    /\ same_but_message (ui s) (ui s')
    /\ key_file (senv s') = key_file (senv s)
    /\ config_file (senv s') = config_file (senv s)
    /\ launched (senv s') = launched (senv s) ++ [client_command "ssh" "-p" c]
    /\ (forall code rest, procs (senv s) = Exited code :: rest ->
          message (ui s')
          = if code =? 0 then "Connection closed"
            else if code =? 6
                 then "Authentication failed - check username and password"
                 else ("Connection failed with exit code " ++ Py.str_of_int code)%string).
Proof.
  intros Hi. pose proof (index_nonempty _ _ _ Hi) as Hn.
  unfold handle_list_input, bind at 1 2 3, gets at 1 2 3.
  replace ((ord "c" =? KEY_UP) && _) with false by reflexivity.
  replace ((ord "c" =? KEY_DOWN) && _) with false by reflexivity.
  replace (ord "c" =? KEY_ENTER) with false by reflexivity.
  replace (ord "c" =? ord "a") with false by reflexivity.
  replace ((ord "c" =? ord "e") && _) with false by reflexivity.
  replace ((ord "c" =? ord "d") && _) with false by reflexivity.
  replace (ord "c" =? ord "q") with false by reflexivity.
  rewrite Hn. replace ((ord "c" =? ord "c") && negb false) with true by reflexivity.
  unfold bind at 1, selected_item, bind at 1, gets at 1, bind at 1, gets at 1.
  rewrite Hi. unfold or_raise, ret at 1.
  unfold bind at 1, bind at 1, as_config, ret at 1.
  unfold bind at 1, show_message at 1, on_ui at 1, modify.
  unfold connect_to_ssh, connect, bind at 1, on_env at 1, zoom, modify.
  cbn [senv ui].
  unfold bind at 1, on_env at 1, zoom, pop_proc. cbn [senv ui procs add_launched].
  destruct (procs (senv s)) as [|[code|why] rest] eqn:Hp.
  - eexists. split; [reflexivity|]. cbn [ui senv]. repeat split.
    intros code rest E. discriminate E.
  - destruct (code =? 0) eqn:E0; [|destruct (code =? 6) eqn:E6];
      (eexists; split; [reflexivity|]; cbn [ui senv]; repeat split;
       intros code' rest' E; inversion E; subst; rewrite ?E0, ?E6; reflexivity).
  - match goal with
    | |- context [bind (on_env (print ?l)) ?k ?st] =>
        destruct (failure_notes_return "Connection" why c st)
          as (st' & E & Hu & Hk & Hc & Hl)
    end.
    rewrite E.
    eexists. split; [reflexivity|]. cbn [ui senv] in *. rewrite Hu, Hk, Hc, Hl.
    repeat split. intros code rest' E'. discriminate E'.
Qed.

(** X14. A message lasts three redraws of the list.  After [show_message]
    with a non-empty text, the first two [draw_list] keep the text and the
    third clears it; drawing the form never counts it down. *)
Theorem message_lasts_three_draws (s : Session) (msg : string) :
  msg <> EmptyString ->
  forall s0, show_message msg s = Ok tt s0 ->
  message (ui (final_state (draw_list s0))) = msg
  /\ message (ui (final_state ((draw_list ;;; draw_list) s0))) = msg
  /\ message (ui (final_state ((draw_list ;;; draw_list ;;; draw_list) s0)))
     = EmptyString
  /\ draw_add_form s0 = Ok tt s0.
Proof.
  intros Hm s0 H. unfold show_message, on_ui, modify in H.
  inversion H; subst; clear H.
  destruct msg as [|a msg]; [congruence|].
  repeat split.
Qed.

(** An interrupt during the read, once the drawing has returned: back to
    list mode with a message, everything else kept. *)
Lemma interrupt_after_draw (s d : Session) :
  draw (mode (ui s)) s = Ok tt d ->
  turn Interrupt s
  = Ok true
      (mkSession
         (set_message_timeout 3
            (set_message "Operation cancelled" (set_mode mode_list (ui d))))
         (senv d)).
Proof.
  intros H. unfold turn, bind at 1, gets at 1, bind at 1. now rewrite H.
Qed.

Lemma tick_message_position (st : Session) :
  exists s1,
    tick_message st = Ok tt s1
    /\ mode (ui s1) = mode (ui st)
    /\ same_position st s1.
Proof.
  pose proof (tick_message_same_ui st) as H.
  unfold tick_message, on_ui, modify in *. eexists. split; [reflexivity|].
  unfold same_but_message in H. unfold same_position.
  cbn [final_state ui senv] in *.
  repeat split.
  - now apply (f_equal mode) in H.
  - now apply (f_equal current_path) in H.
  - now apply (f_equal current_index) in H.
  - now apply (f_equal input_values) in H.
  - now apply (f_equal current_field) in H.
  - now apply (f_equal editing_config) in H.
  - now apply (f_equal delete_confirm) in H.
  - now apply (f_equal ssh_manager) in H.
Qed.

(** Drawing changes neither the mode nor the position, whether it returns
    or raises. *)
Lemma draw_position (s : Session) :
  mode (ui (final_state (draw (mode (ui s)) s))) = mode (ui s)
  /\ same_position s (final_state (draw (mode (ui s)) s)).
Proof.
  assert (Hrefl : same_position s s) by (unfold same_position; tauto).
  destruct (mode (ui s)) eqn:Hm; cbn [draw].
  - destruct (tick_message_position
                (mkSession
                   (set_display_items
                      (build_items (configs (ssh_manager (ui s)))
                                   (current_path (ui s))) (ui s))
                   (senv s)))
      as (s1 & E & Hm1 & Hp).
    assert (Ed : draw_list s = Ok tt s1) by exact E.
    rewrite Ed. cbn [final_state]. split; [rewrite Hm1; exact Hm|exact Hp].
  - split; [exact Hm|exact Hrefl].
  - split; [exact Hm|exact Hrefl].
  - destruct (delete_confirm (ui s)) eqn:Hdc.
    + destruct (tick_message_position s) as (s1 & E & Hm1 & Hp).
      assert (Ed : draw_confirm_delete s = Ok tt s1).
      { unfold draw_confirm_delete, bind, gets. now rewrite Hdc. }
      rewrite Ed. cbn [final_state]. split; [rewrite Hm1; exact Hm|exact Hp].
    + assert (Ed : draw_confirm_delete s = Raise AttributeError s).
      { unfold draw_confirm_delete, bind, gets. now rewrite Hdc. }
      rewrite Ed. split; [exact Hm|exact Hrefl].
Qed.

(** The drawing routines of the embedding return, except that of the
    confirmation when there is nothing to confirm. *)
Lemma draw_returns (s : Session) :
  (mode (ui s) = mode_confirm_delete -> delete_confirm (ui s) <> None) ->
  exists d, draw (mode (ui s)) s = Ok tt d.
Proof.
  intros Hd. destruct (mode (ui s)) eqn:Hm; cbn [draw].
  - unfold draw_list, bind at 1, _build_display_items, on_ui at 1, modify.
    match goal with
    | |- context [tick_message ?st] =>
        destruct (tick_message_position st) as (s1 & E & _)
    end.
    exists s1. exact E.
  - exists s. reflexivity.
  - exists s. reflexivity.
  - unfold draw_confirm_delete, bind at 1, gets at 1.
    destruct (delete_confirm (ui s)); [|now destruct Hd].
    destruct (tick_message_position s) as (s1 & E & _). exists s1. exact E.
Qed.

(** X15. An interrupt loses nothing.  In list mode, in the form, or in a
    confirmation with its target, an interrupt during the read leads back
    to list mode with the message "Operation cancelled".  The manager, the
    environment, the path, the selection, the text typed in the form, the
    profile being edited and the delete target are all kept. *)
Theorem interrupt_returns_to_list (s : Session) :
  (mode (ui s) = mode_confirm_delete -> delete_confirm (ui s) <> None) ->
  exists s',
    turn Interrupt s = Ok true s'
    /\ mode (ui s') = mode_list
    /\ message (ui s') = "Operation cancelled"
    /\ ssh_manager (ui s') = ssh_manager (ui s)
    /\ senv s' = senv s
    /\ current_path (ui s') = current_path (ui s)
    /\ current_index (ui s') = current_index (ui s)
    /\ input_values (ui s') = input_values (ui s)
    /\ editing_config (ui s') = editing_config (ui s)
    /\ delete_confirm (ui s') = delete_confirm (ui s).
Proof.
  intros Hd. destruct (draw_returns s Hd) as (d & E).
  pose proof (draw_position s) as (_ & Hp). rewrite E in Hp.
  cbn [final_state] in Hp. unfold same_position in Hp.
  destruct Hp as (H1 & H2 & H3 & H4 & H5 & H6 & H7 & H8).
  eexists. split; [exact (interrupt_after_draw s d E)|].
  cbn [ui senv]. repeat split; assumption.
Qed.

(** C9, as the code has it.  A key bound to nothing in the current mode is
    ignored: its handler returns at once with the session as it was, the
    turn of the loop does what drawing does and nothing more, and mode,
    path, selection, form and cursor, the profile being edited, the delete
    target, the registry in memory and the environment are after the turn
    what they were before it.  The interrupt, the one input that is not a
    key, is not ignored: once the drawing has returned it leads back to
    list mode with the message "Operation cancelled"; mode and message
    apart, it too leaves everything as it was. *)
Theorem unbound_key_ignored (s : Session) (k : Z) :
  event_of_key (mode (ui s)) k = None ->
  handle (mode (ui s)) k s = Ok true s
  /\ turn (Key k) s = (draw (mode (ui s)) ;;; ret true) s
  /\ ignored (Key k) s
  /\ (forall d,
        draw (mode (ui s)) s = Ok tt d ->
        exists s',
          turn Interrupt s = Ok true s'
          /\ mode (ui s') = mode_list
          /\ message (ui s') = "Operation cancelled"
          /\ same_position s s').
Proof.
  intros H.
  assert (Ht : turn (Key k) s = (draw (mode (ui s)) ;;; ret true) s).
  { unfold turn, bind, gets.
    destruct (draw (mode (ui s)) s) as [[] s1|x s1] eqn:E; auto.
    pose proof (draw_position s) as (Hm & _). rewrite E in Hm.
    cbn [final_state] in Hm. rewrite <- Hm in H.
    rewrite <- Hm. now apply unbound_key_handle. }
  split; [now apply unbound_key_handle|]. split; [exact Ht|]. split.
  - unfold ignored. rewrite Ht, final_then_ret. apply draw_position.
  - intros d E. eexists. split; [exact (interrupt_after_draw s d E)|].
    pose proof (draw_position s) as (_ & Hp). rewrite E in Hp.
    cbn [final_state] in Hp. unfold same_position in *. cbn [ui senv].
    tauto.
Qed.

End Connecting.

Lemma connect_changes_message_only_witness :
  Py.index (display_items (ui (drawn_session [web; db]))) 0
  = Some (config_item db)
  /\ exists s',
       handle_list_input (ord "c") (drawn_session [web; db]) = Ok true s'
       /\ launched (senv s')
          = [(["sshpass"; "-e"; "ssh"; "-o"; "StrictHostKeyChecking=no";
               "-p"; "5432"; "admin@10.0.0.9"], Some "hunter2")]
       /\ message (ui s') = "Connection closed"
       /\ config_file (senv s') = config_file (senv (drawn_session [web; db])).
Proof.
  split; [reflexivity|].
  destruct (connect_changes_message_only (drawn_session [web; db])
              "db (10.0.0.9)" db eq_refl)
    as (s' & H & _ & _ & Hc & Hl & _).
  exists s'. split; [exact H|]. split; [exact Hl|]. split; [|exact Hc].
  vm_compute in H. inversion H. reflexivity.
Defined.

Lemma message_lasts_three_draws_witness :
  "Deleted connection: db" <> EmptyString
  /\ message (ui (final_state
        ((draw_list ;;; draw_list)
           (final_state (show_message "Deleted connection: db"
                           (sample_session [web] []))))))
     = "Deleted connection: db"
  /\ message (ui (final_state
        ((draw_list ;;; draw_list ;;; draw_list)
           (final_state (show_message "Deleted connection: db"
                           (sample_session [web] []))))))
     = EmptyString.
Proof.
  assert (Hm : "Deleted connection: db" <> EmptyString) by discriminate.
  split; [exact Hm|].
  destruct (message_lasts_three_draws (sample_session [web] [])
              "Deleted connection: db" Hm _ eq_refl) as (_ & H2 & H3 & _).
  split; [exact H2|exact H3].
Defined.

Lemma interrupt_returns_to_list_witness :
  exists s',
    turn Interrupt (sample_form "80" [web]) = Ok true s'
    /\ mode (ui s') = mode_list
    /\ v_port (input_values (ui s')) = "80"
    /\ ssh_manager (ui s') = ssh_manager (ui (sample_form "80" [web])).
Proof.
  destruct (interrupt_returns_to_list (sample_form "80" [web]))
    as (s' & H & Hm & _ & Hs & _ & _ & _ & Hv & _).
  - discriminate.
  - exists s'. split; [exact H|]. split; [exact Hm|].
    split; [now rewrite Hv|exact Hs].
Defined.

Lemma unbound_key_ignored_witness :
  event_of_key mode_list (ord "x") = None
  /\ handle mode_list (ord "x") (sample_session [web; db] [])
     = Ok true (sample_session [web; db] [])
  /\ ignored (Key (ord "x")) (sample_session [web; db] [])
  /\ exists s',
       turn Interrupt (sample_session [web; db] []) = Ok true s'
       /\ mode (ui s') = mode_list
       /\ message (ui s') = "Operation cancelled"%string.
Proof.
  destruct (unbound_key_ignored (sample_session [web; db] []) (ord "x") eq_refl)
    as (Hh & _ & Hi & Hint).
  split; [reflexivity|]. split; [exact Hh|]. split; [exact Hi|].
  destruct (Hint _ eq_refl) as (s' & Ht & Hm & Hmsg & _).
  exists s'. split; [exact Ht|]. split; [exact Hm|exact Hmsg].
Defined.

(** C9, as stated, fails.  The interrupt is an input that no transition
    lists, and it is not ignored: in the form for a new connection it
    changes the mode to list. *)
Lemma interrupt_leaves_form :
  mode (ui (sample_form "80" [web])) = mode_add
  /\ mode (ui (final_state (turn Interrupt (sample_form "80" [web])))) = mode_list
  /\ ~ ignored Interrupt (sample_form "80" [web]).
Proof.
  split; [reflexivity|]. split; [reflexivity|].
  intros (H & _). discriminate H.
Qed.

(** * Moving through the groups *)

Section Navigation.
Context {R : Runtime}.

Lemma before_label (seg rest : string) :
  Py.before " (" seg = seg ->
  Py.before " (" (seg ++ " (" ++ rest) = seg.
Proof.
  induction seg as [|c seg IH]; intros H.
  - simpl. now destruct rest.
  - cbn [append]. cbn [Py.before String.prefix] in *.
    destruct (ascii_dec " " c) as [Ec|Ec].
    + destruct seg as [|d seg].
      { simpl. f_equal. now destruct rest. }
      cbn [append String.prefix] in *.
      destruct (ascii_dec "(" d) as [Ed|Ed].
      * destruct seg; discriminate.
      * injection H as H. f_equal. exact (IH H).
    + injection H as H. f_equal. now apply IH.
Qed.

Lemma group_label_not_up (cs : list SSHConfig) (g : string) :
  (fst (fst (group_item cs g)) =? "..")%string = false.
Proof.
  apply String.eqb_neq. unfold group_item. cbn [fst]. intros E.
  apply (f_equal String.length) in E.
  rewrite !length_append in E. simpl in E. lia.
Qed.

Lemma child_group_shape (cs : list SSHConfig) (gp : option string) (g : string) :
  In g (get_child_groups cs gp) ->
  match gp with
  | Some p =>
      if Py.truthy gp
      then exists seg, g = (p ++ String "/" seg)%string /\ Py.contains "/" seg = false
      else Py.contains "/" g = false
  | None => Py.contains "/" g = false
  end.
Proof.
  unfold get_child_groups. destruct gp as [p|].
  - destruct (Py.truthy (Some p)); rewrite filter_In.
    + intros (_ & H). apply andb_true_iff in H. destruct H as (Hp & Hc).
      apply negb_true_iff in Hc. unfold Py.startswith in Hp.
      exists (Py.drop (String.length p + 1) g). split; auto.
      apply prefix_inv in Hp. rewrite length_append in Hp. simpl in Hp.
      now rewrite append_assoc in Hp.
    + intros (_ & H). now apply negb_true_iff in H.
  - rewrite filter_In. intros (_ & H). now apply negb_true_iff in H.
Qed.

Lemma index_zero_cons {A} (x : A) (l : list A) : Py.index (x :: l) 0 = Some x.
Proof.
  unfold Py.index, Py.len.
  assert (H : (0 <? Z.of_nat (List.length (x :: l))) = true)
    by (apply Z.ltb_lt; simpl List.length; lia).
  rewrite H. reflexivity.
Qed.

(** Enter on a directory entry that is not the up-entry. *)
Lemma enter_directory (s : Session) (label : string) (data : item_data) :
  Py.index (display_items (ui s)) (current_index (ui s))
  = Some (label, type_dir, data) ->
  (label =? "..")%string = false ->
  handle_list_input KEY_ENTER s
  = Ok true
      (mkSession
         (set_current_index 0
            (set_current_path (current_path (ui s) ++ [Py.before " (" label])
                              (ui s)))
         (senv s)).
Proof.
  intros Hi Hl. pose proof (index_nonempty _ _ _ Hi) as Hn.
  unfold handle_list_input, bind at 1 2 3, gets at 1 2 3.
  replace ((KEY_ENTER =? KEY_UP) && _) with false by reflexivity.
  replace ((KEY_ENTER =? KEY_DOWN) && _) with false by reflexivity.
  replace (KEY_ENTER =? KEY_ENTER) with true by reflexivity.
  rewrite Hn. cbn [negb].
  unfold bind at 1, bind at 1, selected_item, bind at 1, gets at 1, bind at 1,
    gets at 1.
  rewrite Hi. unfold or_raise, ret at 1. rewrite Hl. reflexivity.
Qed.

(** Enter on the up-entry. *)
Lemma enter_up (s : Session) (data : item_data) :
  Py.index (display_items (ui s)) (current_index (ui s))
  = Some ("..", type_dir, data) ->
  current_path (ui s) <> [] ->
  handle_list_input KEY_ENTER s
  = Ok true
      (mkSession
         (set_current_index 0
            (set_current_path (Py.but_last (current_path (ui s))) (ui s)))
         (senv s)).
Proof.
  intros Hi Hp. pose proof (index_nonempty _ _ _ Hi) as Hn.
  unfold handle_list_input, bind at 1 2 3, gets at 1 2 3.
  replace ((KEY_ENTER =? KEY_UP) && _) with false by reflexivity.
  replace ((KEY_ENTER =? KEY_DOWN) && _) with false by reflexivity.
  replace (KEY_ENTER =? KEY_ENTER) with true by reflexivity.
  rewrite Hn. cbn [negb].
  unfold bind at 1, bind at 1, selected_item, bind at 1, gets at 1, bind at 1,
    gets at 1.
  rewrite Hi. unfold or_raise, ret at 1.
  replace (".." =? "..")%string with true by reflexivity.
  destruct (current_path (ui s)); [congruence|reflexivity].
Qed.

(** What [draw_list] does to the fields that matter for moving about. *)
Lemma draw_list_fields (s : Session) :
  exists s1,
    draw_list s = Ok tt s1
    /\ display_items (ui s1)
       = build_items (configs (ssh_manager (ui s))) (current_path (ui s))
    /\ mode (ui s1) = mode (ui s)
    /\ ssh_manager (ui s1) = ssh_manager (ui s)
    /\ senv s1 = senv s
    /\ current_path (ui s1) = current_path (ui s)
    /\ current_index (ui s1) = current_index (ui s).
Proof.
  unfold draw_list, bind, _build_display_items, on_ui at 1, modify.
  match goal with
  | |- context [tick_message ?st] => pose proof (tick_message_same_ui st) as H
  end.
  unfold tick_message, on_ui, modify in *. eexists. split; [reflexivity|].
  unfold same_but_message in H. cbn [final_state ui senv] in *.
  repeat split.
  - now apply (f_equal display_items) in H.
  - now apply (f_equal mode) in H.
  - now apply (f_equal ssh_manager) in H.
  - now apply (f_equal current_path) in H.
  - now apply (f_equal current_index) in H.
Qed.

Lemma turn_in_list (s s1 : Session) (k : Z) :
  mode (ui s) = mode_list ->
  draw_list s = Ok tt s1 ->
  turn (Key k) s = handle_list_input k s1.
Proof.
  intros Hm Hd. unfold turn, bind at 1, gets at 1. rewrite Hm.
  cbn [draw handle]. unfold bind. now rewrite Hd.
Qed.

(** X16. Into a group and back.  In list mode, with a directory entry other
    than the up-entry selected in the listing, Enter followed by Enter goes
    into the group and comes back: the path is what it was, the selection
    is 0, and the registry and the environment are untouched. *)
Theorem descend_then_up (s : Session) (label : string) (data : item_data) :
  mode (ui s) = mode_list ->
  Py.index (build_items (configs (ssh_manager (ui s))) (current_path (ui s)))
           (current_index (ui s))
  = Some (label, type_dir, data) ->
  label <> ".." ->
  exists s1 s2,
    run [Key KEY_ENTER] s = Ok true s1
    /\ current_path (ui s1) = current_path (ui s) ++ [Py.before " (" label]
    /\ current_index (ui s1) = 0
    /\ run [Key KEY_ENTER; Key KEY_ENTER] s = Ok true s2
    /\ current_path (ui s2) = current_path (ui s)
    /\ current_index (ui s2) = 0
    /\ mode (ui s2) = mode_list
    /\ ssh_manager (ui s2) = ssh_manager (ui s)
    /\ senv s2 = senv s.
Proof.
  intros Hm Hi Hl. apply String.eqb_neq in Hl.
  destruct (draw_list_fields s) as (d1 & Hd1 & Hit1 & Hm1 & Hs1 & He1 & Hp1 & Hx1).
  assert (T1 : turn (Key KEY_ENTER) s
               = Ok true (mkSession
                   (set_current_index 0
                      (set_current_path
                         (current_path (ui s) ++ [Py.before " (" label]) (ui d1)))
                   (senv s))).
  { rewrite (turn_in_list s d1 _ Hm Hd1).
    rewrite (enter_directory d1 label data); [now rewrite Hp1, He1| |exact Hl].
    now rewrite Hit1, Hx1. }
  set (a := mkSession
              (set_current_index 0
                 (set_current_path
                    (current_path (ui s) ++ [Py.before " (" label]) (ui d1)))
              (senv s)) in *.
  destruct (draw_list_fields a) as (d2 & Hd2 & Hit2 & Hm2 & Hs2 & He2 & Hp2 & Hx2).
  cbn [a ui senv mode ssh_manager current_path current_index set_current_index
       set_current_path] in Hit2, Hm2, Hs2, He2, Hp2, Hx2.
  assert (Hup : exists rest,
             display_items (ui d2) = ("..", type_dir, data_none) :: rest).
  { rewrite Hit2. unfold build_items.
    destruct (current_path (ui s) ++ [Py.before " (" label]) eqn:E.
    - symmetry in E. now apply app_cons_not_nil in E.
    - eexists. reflexivity. }
  destruct Hup as (rest & Hup).
  assert (T2 : turn (Key KEY_ENTER) a
               = Ok true (mkSession
                   (set_current_index 0
                      (set_current_path (current_path (ui s)) (ui d2)))
                   (senv s))).
  { rewrite (turn_in_list a d2 _ (eq_trans (eq_refl : mode (ui a) = mode (ui d1))
                                    (eq_trans Hm1 Hm)) Hd2).
    rewrite (enter_up d2 data_none).
    - rewrite Hp2, He2. unfold Py.but_last. now rewrite removelast_last.
    - rewrite Hup, Hx2. apply index_zero_cons.
    - rewrite Hp2. intros E. symmetry in E. now apply app_cons_not_nil in E. }
  exists a. eexists.
  split; [cbn [run]; unfold bind; now rewrite T1|].
  split; [reflexivity|]. split; [reflexivity|].
  split; [cbn [run]; unfold bind; rewrite T1, T2; reflexivity|].
  cbn [ui senv current_path current_index mode ssh_manager set_current_index
       set_current_path].
  repeat split; congruence.
Qed.

(** X17. Entering a listed group shows that group.  At the root, or below a
    path whose joined text is not empty: if the selected entry is the entry
    of a child group [g] and the last segment of [g] has no " (" in it, then
    Enter makes the current path the old one followed by that segment,
    resets the selection, and the current group is [g] itself. *)
Theorem enter_listed_group (s : Session) (g : string) :
  current_path (ui s) = [] \/ Py.truthy (current_group (current_path (ui s))) = true ->
  In g (get_child_groups (configs (ssh_manager (ui s)))
                         (current_group (current_path (ui s)))) ->
  Py.index (display_items (ui s)) (current_index (ui s))
  = Some (group_item (configs (ssh_manager (ui s))) g) ->
  Py.before " (" (Py.last_part (Py.split "/" g)) = Py.last_part (Py.split "/" g) ->
  exists s',
    handle_list_input KEY_ENTER s = Ok true s'
    /\ current_path (ui s') = current_path (ui s) ++ [Py.last_part (Py.split "/" g)]
    /\ current_index (ui s') = 0
    /\ current_group (current_path (ui s')) = Some g
    /\ ssh_manager (ui s') = ssh_manager (ui s)
    /\ senv s' = senv s.
Proof.
  intros Hpath Hin Hi Hseg.
  eexists. split.
  { apply (enter_directory s _ _ Hi). apply group_label_not_up. }
  cbn [ui senv current_path current_index ssh_manager set_current_index
       set_current_path].
  rewrite before_label by exact Hseg.
  repeat split.
  apply child_group_shape in Hin.
  destruct (current_path (ui s)) as [|x path] eqn:Ep.
  - cbn [current_group] in Hin. cbn [app current_group].
    rewrite (split_whole _ _ Hin). reflexivity.
  - destruct Hpath as [Hpath|Hpath]; [discriminate|].
    cbn [current_group] in Hin, Hpath. rewrite Hpath in Hin.
    destruct Hin as (seg & Hg & Hc).
    rewrite Hg, (last_part_split _ _ _ Hc).
    change ((x :: path) ++ [seg]) with (x :: (path ++ [seg])).
    cbn [current_group]. f_equal.
    change (x :: (path ++ [seg])) with ((x :: path) ++ [seg]).
    rewrite join_snoc by discriminate. reflexivity.
Qed.

End Navigation.

(** * Numbers as text *)

Section Numbers.

Lemma digit_not_space (c : ascii) : Py.is_digit c = true -> Py.is_space c = false.
Proof.
  unfold Py.is_digit, Py.is_space. cbv zeta. intros H.
  apply andb_true_iff in H. destruct H as (H & _). apply Nat.leb_le in H.
  apply orb_false_iff. split.
  - apply andb_false_iff. right. apply Nat.leb_gt. lia.
  - apply Nat.eqb_neq. lia.
Qed.

Lemma digit_is_ascii (c : ascii) : Py.is_digit c = true -> Py.is_ascii c = true.
Proof.
  unfold Py.is_digit, Py.is_ascii. cbv zeta. intros H.
  apply andb_true_iff in H. destruct H as (_ & H). apply Nat.leb_le in H.
  apply Nat.ltb_lt. lia.
Qed.

Lemma uint_chars_digits (d : Decimal.uint) :
  Forall (fun c => Py.is_digit c = true) (uint_chars d).
Proof.
  unfold uint_chars. induction d; simpl; constructor; solve [reflexivity | assumption].
Qed.

Lemma lstrip_noop (l : list ascii) :
  Forall (fun c => Py.is_space c = false) l -> Py.lstrip l = l.
Proof. intros H. destruct H as [|c l Hc _]; simpl; [|rewrite Hc]; reflexivity. Qed.

Lemma strip_noop (l : list ascii) :
  Forall (fun c => Py.is_space c = false) l -> Py.strip l = l.
Proof.
  intros H. unfold Py.strip. rewrite (lstrip_noop l H).
  rewrite lstrip_noop by now apply Forall_rev.
  apply rev_involutive.
Qed.

Lemma digits_uint_acc (d : Decimal.uint) :
  forall (b : bool) (acc : positive),
    b = true \/ d <> Decimal.Nil ->
    Py.digits b (Z.pos acc) (uint_chars d) = Some (Z.pos (Pos.of_uint_acc d acc)).
Proof.
  unfold uint_chars.
  induction d; intros b acc H;
    simpl NilEmpty.string_of_uint; simpl list_ascii_of_string;
    cbn [Py.digits Pos.of_uint_acc];
    try (match goal with
         | |- context [Py.is_digit ?c] => change (Py.is_digit c) with true
         end;
         cbv iota;
         match goal with
         | |- context [Py.digit_value ?c] =>
             let v := eval vm_compute in (Py.digit_value c) in
             change (Py.digit_value c) with v
         end;
         rewrite <- (IHd true) by auto; f_equal; lia).
  destruct H as [-> | H]; [reflexivity|congruence].
Qed.

Lemma digits_uint (d : Decimal.uint) :
  forall b : bool,
    b = true \/ d <> Decimal.Nil ->
    Py.digits b 0 (uint_chars d) = Some (Z.of_N (Pos.of_uint d)).
Proof.
  unfold uint_chars.
  induction d; intros b H;
    simpl NilEmpty.string_of_uint; simpl list_ascii_of_string;
    cbn [Py.digits Pos.of_uint];
    try (match goal with
         | |- context [Py.is_digit ?c] => change (Py.is_digit c) with true
         end;
         cbv iota;
         match goal with
         | |- context [Py.digit_value ?c] =>
             let v := eval vm_compute in (Py.digit_value c) in
             change (Py.digit_value c) with v
         end).
  - destruct H as [-> | H]; [reflexivity|congruence].
  - change (10 * 0 + 0) with 0. apply IHd. auto.
  - apply (digits_uint_acc d true 1). auto.
  - apply (digits_uint_acc d true 2). auto.
  - apply (digits_uint_acc d true 3). auto.
  - apply (digits_uint_acc d true 4). auto.
  - apply (digits_uint_acc d true 5). auto.
  - apply (digits_uint_acc d true 6). auto.
  - apply (digits_uint_acc d true 7). auto.
  - apply (digits_uint_acc d true 8). auto.
  - apply (digits_uint_acc d true 9). auto.
Qed.

Lemma literal_unsigned (l : list ascii) :
  Forall (fun c => Py.is_digit c = true) l ->
  Py.literal (Py.strip l) = Py.digits false 0 l.
Proof.
  intros H.
  rewrite strip_noop by (eapply Forall_impl; [apply digit_not_space|exact H]).
  destruct H as [|c l Hc _]; [reflexivity|].
  destruct c as [[] [] [] [] [] [] [] []]; try discriminate Hc; reflexivity.
Qed.

Lemma string_of_uint_nonnil (d : Decimal.uint) :
  d <> Decimal.Nil -> NilZero.string_of_uint d = NilEmpty.string_of_uint d.
Proof. destruct d; [congruence|reflexivity..]. Qed.

Lemma str_of_int_literal (n : Z) :
  Py.literal (Py.strip (list_ascii_of_string (Py.str_of_int n))) = Some n.
Proof.
  unfold Py.str_of_int. destruct n as [|p|p]; [reflexivity| |];
    cbn [Z.to_int NilZero.string_of_int];
    rewrite string_of_uint_nonnil by apply DecimalPos.Unsigned.to_uint_nonnil.
  - fold (uint_chars (Pos.to_uint p)).
    rewrite literal_unsigned by apply uint_chars_digits.
    rewrite digits_uint by (right; apply DecimalPos.Unsigned.to_uint_nonnil).
    now rewrite DecimalPos.Unsigned.of_to.
  - cbn [list_ascii_of_string].
    fold (uint_chars (Pos.to_uint p)).
    rewrite strip_noop.
    + cbn [Py.literal].
      rewrite digits_uint by (right; apply DecimalPos.Unsigned.to_uint_nonnil).
      now rewrite DecimalPos.Unsigned.of_to.
    + constructor; [reflexivity|].
      eapply Forall_impl; [apply digit_not_space|apply uint_chars_digits].
Qed.

Lemma str_of_int_ascii (n : Z) :
  forallb Py.is_ascii (list_ascii_of_string (Py.str_of_int n)) = true.
Proof.
  assert (H : forall d, forallb Py.is_ascii (uint_chars d) = true).
  { intros d. apply forallb_forall. intros c Hc.
    apply digit_is_ascii.
    pose proof (uint_chars_digits d) as Hd. rewrite Forall_forall in Hd. auto. }
  unfold Py.str_of_int. destruct n as [|p|p]; [reflexivity| |];
    cbn [Z.to_int NilZero.string_of_int];
    rewrite string_of_uint_nonnil by apply DecimalPos.Unsigned.to_uint_nonnil.
  - apply H.
  - cbn [list_ascii_of_string forallb].
    fold (uint_chars (Pos.to_uint p)). now rewrite H.
Qed.

(** [int(str(n)) == n], for an [int] of at most 4300 digits. *)
Lemma int_of_str_of_int (n : Z) :
  convertible n -> Py.int_of_str (Py.str_of_int n) = Py.Int n.
Proof.
  intros H. unfold Py.int_of_str. cbv zeta.
  rewrite str_of_int_ascii, str_of_int_literal.
  apply Nat.leb_le in H. unfold convertible in H. now rewrite H.
Qed.

End Numbers.

(** * Filling in the form *)

Section Editing.
Context {R : Runtime}.

Lemma or_none_or_empty (o : option string) :
  o <> Some EmptyString -> Py.or_none (Py.or_empty o) = o.
Proof. destruct o as [[|c s]|]; simpl; congruence. Qed.

Lemma profile_of_form_of_config (c : SSHConfig) :
  password c <> Some EmptyString ->
  key_path c <> Some EmptyString ->
  group c <> Some EmptyString ->
  profile_of_form (form_of_config c) (port c) = c.
Proof.
  intros H1 H2 H3. destruct c. unfold profile_of_form, form_of_config.
  cbn in *. now rewrite !or_none_or_empty.
Qed.

Lemma others_twice (nm : string) (cs : list SSHConfig) :
  others nm (others nm cs) = others nm cs.
Proof.
  unfold others. induction cs as [|c cs IH]; simpl; auto.
  destruct (name c =? nm)%string eqn:E; simpl; auto.
  rewrite E. simpl. now rewrite IH.
Qed.

Lemma turn_in_form (s : Session) (k : Z) :
  mode (ui s) = mode_add \/ mode (ui s) = mode_edit ->
  turn (Key k) s = handle_add_input k s.
Proof.
  intros [H|H]; unfold turn, bind at 1, gets at 1; rewrite H; reflexivity.
Qed.

Lemma run_cons_true (i : input) (rest : list input) (s s1 : Session) :
  turn i s = Ok true s1 -> run (i :: rest) s = run rest s1.
Proof. intros H. cbn [run]. unfold bind. now rewrite H. Qed.

(** [e] on a profile opens it in the form. *)
Lemma e_key_edits (s : Session) (label : string) (c : SSHConfig) :
  Py.index (display_items (ui s)) (current_index (ui s))
  = Some (label, type_config, data_config c) ->
  handle_list_input (ord "e") s
  = Ok true
      (mkSession
         (set_current_field 0
            (set_input_values (form_of_config c)
               (set_mode mode_edit (set_editing_config (Some c) (ui s)))))
         (senv s)).
Proof.
  intros Hi. pose proof (index_nonempty _ _ _ Hi) as Hn.
  unfold handle_list_input, bind at 1 2 3, gets at 1 2 3.
  replace ((ord "e" =? KEY_UP) && _) with false by reflexivity.
  replace ((ord "e" =? KEY_DOWN) && _) with false by reflexivity.
  replace (ord "e" =? KEY_ENTER) with false by reflexivity.
  replace (ord "e" =? ord "a") with false by reflexivity.
  replace (ord "e" =? ord "e") with true by reflexivity.
  rewrite Hn. cbn [negb andb].
  unfold bind at 1, bind at 1, selected_item, bind at 1, gets at 1, bind at 1,
    gets at 1.
  rewrite Hi. reflexivity.
Qed.

(** X18. Opening a profile and pressing Enter keeps it as it was.  In list
    mode, with a profile selected whose optional fields are not the empty
    text and whose port [int] reads back from its text (one of at most 4300
    digits: start-up and the form give no other), the keys [e] and Enter,
    when the saves go through, lead back to the list with the profile
    unchanged in every field; it is moved to the end of the registry and
    every other profile stays. *)
Theorem edit_unchanged (s : Session) (label : string) (c : SSHConfig) :
  mode (ui s) = mode_list ->
  Py.index (build_items (configs (ssh_manager (ui s))) (current_path (ui s)))
           (current_index (ui s))
  = Some (label, type_config, data_config c) ->
  convertible (port c) ->
  password c <> Some EmptyString ->
  key_path c <> Some EmptyString ->
  group c <> Some EmptyString ->
  writes_succeed (senv s) ->
  exists s',
    run [Key (ord "e"); Key KEY_ENTER] s = Ok true s'
    /\ mode (ui s') = mode_list
    /\ editing_config (ui s') = None
    /\ configs (ssh_manager (ui s'))
       = others (name c) (configs (ssh_manager (ui s))) ++ [c]
    /\ message (ui s') = ("Updated connection: " ++ name c)%string
    /\ current_path (ui s') = current_path (ui s).
Proof.
  intros Hm Hi Hconv H1 H2 H3 Hw.
  destruct (draw_list_fields s) as (d1 & Hd1 & Hit1 & Hm1 & Hs1 & He1 & Hp1 & Hx1).
  assert (Hi1 : Py.index (display_items (ui d1)) (current_index (ui d1))
                = Some (label, type_config, data_config c))
    by now rewrite Hit1, Hx1.
  pose proof (e_key_edits d1 label c Hi1) as T1.
  rewrite <- (turn_in_list s d1 _ Hm Hd1) in T1.
  set (a := mkSession
              (set_current_field 0
                 (set_input_values (form_of_config c)
                    (set_mode mode_edit (set_editing_config (Some c) (ui d1)))))
              (senv d1)) in *.
  assert (Hport : Py.int_of_str (v_port (input_values (ui a))) = Py.Int (port c))
    by now apply int_of_str_of_int.
  assert (Hwa : writes_succeed (senv a)) by (cbn [a senv]; now rewrite He1).
  destruct (submit_edit a (port c) c Hport eq_refl eq_refl Hwa) as (w & Hsub & Hc).
  rewrite (run_cons_true _ _ _ _ T1).
  eexists. split.
  { apply run_cons_true with (rest := []) (s1 := _).
    rewrite turn_in_form by (right; reflexivity).
    rewrite enter_is_submit. unfold bind at 1, try_except. rewrite Hsub.
    reflexivity. }
  cbn [submitted ui mode editing_config ssh_manager message current_path
       set_editing_config set_mode set_message_timeout set_message
       set_ssh_manager].
  repeat split.
  - rewrite Hc.
    cbn [a ui input_values ssh_manager set_current_field set_input_values
         set_mode set_editing_config].
    rewrite (profile_of_form_of_config c H1 H2 H3), Hs1.
    now rewrite others_twice.
  - exact Hp1.
Qed.

(** X19. Renaming in the form.  In edit mode, when [int] accepts the port
    text and the saves go through, Enter leaves the profile built from
    the form under its name, in place of any profile that had that name;
    the name of the profile that was opened, if it differs, names nothing
    any more; every other name is looked up as before. *)
Theorem rename_moves_profile (s : Session) (old : SSHConfig) (p : Z) :
  mode (ui s) = mode_edit ->
  editing_config (ui s) = Some old ->
  Py.int_of_str (v_port (input_values (ui s))) = Py.Int p ->
  writes_succeed (senv s) ->
  exists s',
    handle_add_input KEY_ENTER s = Ok true s'
    /\ get_config (configs (ssh_manager (ui s')))
                  (name (profile_of_form (input_values (ui s)) p))
       = Some (profile_of_form (input_values (ui s)) p)
    /\ (name old <> name (profile_of_form (input_values (ui s)) p) ->
        get_config (configs (ssh_manager (ui s'))) (name old) = None)
    /\ (forall nm,
          nm <> name old ->
          nm <> name (profile_of_form (input_values (ui s)) p) ->
          get_config (configs (ssh_manager (ui s'))) nm
          = get_config (configs (ssh_manager (ui s))) nm).
Proof.
  intros Hm He Hp Hw.
  destruct (submit_edit s p old Hp Hm He Hw) as (w & Hsub & Hc).
  eexists. split.
  { rewrite enter_is_submit. unfold bind at 1, try_except. rewrite Hsub.
    reflexivity. }
  cbn [submitted ui ssh_manager set_editing_config set_mode set_message_timeout
       set_message set_ssh_manager].
  rewrite Hc. set (new := profile_of_form (input_values (ui s)) p).
  assert (Hnew : get_config [new] (name new) = Some new).
  { unfold get_config. cbn [find]. now rewrite String.eqb_refl. }
  assert (Hoth : forall nm, nm <> name new -> get_config [new] nm = None).
  { intros nm Hn. unfold get_config. cbn [find].
    destruct (name new =? nm)%string eqn:E; auto.
    apply String.eqb_eq in E. congruence. }
  repeat split.
  - now rewrite get_config_app, get_config_others_same.
  - intros Hn. rewrite get_config_app, get_config_others_other by exact Hn.
    rewrite get_config_others_same. now apply Hoth.
  - intros nm Ho Hn. rewrite get_config_app.
    rewrite !get_config_others_other by assumption.
    destruct (get_config (configs (ssh_manager (ui s))) nm); auto.
Qed.

End Editing.

Section Creating.
Context {R : Runtime}.

Lemma chr_ord (c : ascii) : chr (ord c) = String c EmptyString.
Proof. unfold chr, ord. now rewrite Nat2Z.id, ascii_nat_embedding. Qed.

(** A printable key in the form appends its character to the field under
    the cursor. *)
Lemma printable_key_appends (s : Session) (k : Z) (f : field) :
  Py.index input_fields (current_field (ui s)) = Some f ->
  32 <= k <= 126 ->
  handle_add_input k s
  = Ok true (mkSession
       (set_input_values
          (set_value f (get_value f (input_values (ui s)) ++ chr k)
                     (input_values (ui s))) (ui s)) (senv s)).
Proof.
  intros Hi Hk.
  unfold handle_add_input, bind at 1, gets at 1.
  replace ((k =? KEY_UP) && _) with false
    by (symmetry; apply andb_false_iff; left; apply Z.eqb_neq; unfold KEY_UP; lia).
  replace ((k =? KEY_DOWN) && _) with false
    by (symmetry; apply andb_false_iff; left; apply Z.eqb_neq; unfold KEY_DOWN; lia).
  replace (k =? KEY_ESC) with false
    by (symmetry; apply Z.eqb_neq; unfold KEY_ESC; lia).
  replace (k =? KEY_CTRL_T) with false
    by (symmetry; apply Z.eqb_neq; unfold KEY_CTRL_T; lia).
  replace (k =? KEY_ENTER) with false
    by (symmetry; apply Z.eqb_neq; unfold KEY_ENTER; lia).
  replace ((32 <=? k) && (k <=? 126)) with true
    by (symmetry; apply andb_true_iff; split; apply Z.leb_le; lia).
  unfold bind at 1, bind at 1, current_input_field, bind at 1, gets at 1.
  rewrite Hi. reflexivity.
Qed.

(** Typing a printable text in the form appends it to the field under the
    cursor. *)
Lemma run_typed (t : string) :
  forall (rest : list input) (s : Session) (f : field),
    printable t ->
    mode (ui s) = mode_add \/ mode (ui s) = mode_edit ->
    Py.index input_fields (current_field (ui s)) = Some f ->
    run (typed t ++ rest) s
    = run rest (mkSession
        (set_input_values
           (set_value f (get_value f (input_values (ui s)) ++ t)
                      (input_values (ui s))) (ui s)) (senv s)).
Proof.
  induction t as [|c t IH]; intros rest s f Hp Hm Hi.
  - cbn [typed list_ascii_of_string map app].
    rewrite append_nil_r, set_get_value.
    destruct s as [u e]. destruct u. reflexivity.
  - inversion Hp as [|x l Hc Hp']; subst.
    change (typed (String c t) ++ rest) with (Key (ord c) :: (typed t ++ rest)).
    rewrite (run_cons_true _ _ s _
               (eq_trans (turn_in_form s (ord c) Hm)
                         (printable_key_appends s (ord c) f Hi Hc))).
    rewrite IH with (f := f); [|exact Hp'|exact Hm|exact Hi].
    cbn [ui senv input_values set_input_values].
    rewrite get_set_value, set_value_twice, chr_ord, append_assoc.
    reflexivity.
Qed.

Lemma down_key (s : Session) :
  current_field (ui s) < 6 ->
  handle_add_input KEY_DOWN s
  = Ok true (mkSession (set_current_field (current_field (ui s) + 1) (ui s))
                       (senv s)).
Proof.
  intros H. unfold handle_add_input, bind at 1, gets at 1.
  replace ((KEY_DOWN =? KEY_UP) && _) with false by reflexivity.
  replace (Py.len input_fields - 1) with 6 by reflexivity.
  replace (current_field (ui s) <? 6) with true by (symmetry; now apply Z.ltb_lt).
  reflexivity.
Qed.

(** [a] in the list opens an empty form, its group set to the current
    path. *)
Lemma a_key_opens_form (s : Session) :
  handle_list_input (ord "a") s
  = Ok true
      (mkSession
         (set_current_field 0
            (set_input_values
               (set_value f_group (Py.or_empty (current_group (current_path (ui s))))
                          empty_form)
               (set_mode mode_add (ui s))))
         (senv s)).
Proof.
  unfold handle_list_input, bind at 1 2 3, gets at 1 2 3.
  replace ((ord "a" =? KEY_UP) && _) with false by reflexivity.
  replace ((ord "a" =? KEY_DOWN) && _) with false by reflexivity.
  replace (ord "a" =? KEY_ENTER) with false by reflexivity.
  replace (ord "a" =? ord "a") with true by reflexivity.
  destruct (current_path (ui s)); reflexivity.
Qed.

Lemma digit_printable (c : ascii) : Py.is_digit c = true -> 32 <= ord c <= 126.
Proof.
  unfold Py.is_digit, ord. cbv zeta. intros H.
  apply andb_true_iff in H. destruct H as (H1 & H2).
  apply Nat.leb_le in H1, H2. lia.
Qed.

Lemma str_of_int_printable (n : Z) : printable (Py.str_of_int n).
Proof.
  unfold printable, Py.str_of_int.
  destruct n as [|p|p]; cbn [Z.to_int NilZero.string_of_int];
    [repeat constructor; vm_compute; discriminate| |];
    rewrite string_of_uint_nonnil by apply DecimalPos.Unsigned.to_uint_nonnil.
  - eapply Forall_impl; [apply digit_printable|apply uint_chars_digits].
  - cbn [list_ascii_of_string]. constructor.
    + split; vm_compute; discriminate.
    + eapply Forall_impl; [apply digit_printable|apply uint_chars_digits].
Qed.

Lemma In_sorted_by_name (c : SSHConfig) (l : list SSHConfig) :
  In c l -> In c (Py.sorted name l).
Proof.
  intros H. eapply Permutation_in; [|exact H].
  apply Permutation_sym, sorted_perm.
Qed.

(** A profile shows in the listing of its group. *)
Lemma profile_listed (cs : list SSHConfig) (path : list string) (c : SSHConfig) :
  group c = current_group path ->
  In c cs ->
  In (config_item c) (build_items cs path).
Proof.
  intros Hg Hin. unfold build_items.
  apply in_or_app. right. apply in_or_app. right.
  apply in_map. apply In_sorted_by_name.
  unfold get_group_configs.
  destruct (negb (Py.truthy (current_group path))) eqn:E;
    apply filter_In; (split; [exact Hin|]); rewrite Hg.
  - exact E.
  - apply negb_false_iff in E.
    destruct (current_group path); [|discriminate E].
    apply String.eqb_refl.
Qed.

(** X20. Adding a profile from inside a group.  At the root, or below a
    path whose joined text is not empty: the key [a], a printable name, two
    key-downs, the decimal text of a port of at most 4300 digits (a longer
    one [int] refuses) and Enter, when the saves go through, put a profile of that name and port in the registry, with
    empty host and user, in the group that is being shown; the path is
    kept, and the profile is in the listing of that path. *)
Theorem add_in_current_group (s : Session) (nm : string) (p : Z) :
  mode (ui s) = mode_list ->
  current_path (ui s) = []
    \/ Py.truthy (current_group (current_path (ui s))) = true ->
  printable nm ->
  convertible p ->
  writes_succeed (senv s) ->
  exists s',
    run (Key (ord "a") :: typed nm ++ [Key KEY_DOWN; Key KEY_DOWN]
           ++ typed (Py.str_of_int p) ++ [Key KEY_ENTER]) s
    = Ok true s'
    /\ mode (ui s') = mode_list
    /\ current_path (ui s') = current_path (ui s)
    /\ configs (ssh_manager (ui s'))
       = others nm (configs (ssh_manager (ui s)))
         ++ [mkSSHConfig nm EmptyString p EmptyString None None
                         (current_group (current_path (ui s)))]
    /\ In (config_item (mkSSHConfig nm EmptyString p EmptyString None None
                                    (current_group (current_path (ui s)))))
          (build_items (configs (ssh_manager (ui s'))) (current_path (ui s'))).
Proof.
  intros Hm Hpath Hnm Hconv Hw.
  destruct (draw_list_fields s) as (d1 & Hd1 & Hit1 & Hm1 & Hs1 & He1 & Hp1 & Hx1).
  pose proof (a_key_opens_form d1) as T1.
  rewrite <- (turn_in_list s d1 _ Hm Hd1) in T1.
  rewrite (run_cons_true _ _ _ _ T1).
  rewrite run_typed with (f := f_name);
    [|exact Hnm|left; reflexivity|reflexivity].
  cbn [ui senv input_values set_input_values set_current_field set_mode
       get_value set_value v_name empty_form append].
  change ([Key KEY_DOWN; Key KEY_DOWN] ++ typed (Py.str_of_int p) ++ [Key KEY_ENTER])
    with (Key KEY_DOWN :: Key KEY_DOWN :: (typed (Py.str_of_int p) ++ [Key KEY_ENTER])).
  match goal with
  | |- context [run _ ?st] =>
      rewrite (run_cons_true _ _ st _
                 (eq_trans (turn_in_form st KEY_DOWN (or_introl eq_refl))
                           (down_key st ltac:(cbn; lia))))
  end.
  match goal with
  | |- context [run _ ?st] =>
      rewrite (run_cons_true _ _ st _
                 (eq_trans (turn_in_form st KEY_DOWN (or_introl eq_refl))
                           (down_key st ltac:(cbn; lia))))
  end.
  rewrite run_typed with (f := f_port);
    [|apply str_of_int_printable|left; reflexivity|reflexivity].
  cbn [ui senv input_values set_input_values set_current_field set_mode
       get_value set_value v_name v_host v_port v_username v_password
       v_key_path v_group empty_form append current_field mode
       ssh_manager current_index editing_config message message_timeout
       delete_confirm current_path display_items password_visible Z.add].
  match goal with
  | |- context [run _ ?st] => set (a := st)
  end.
  assert (Hport : Py.int_of_str (v_port (input_values (ui a))) = Py.Int p)
    by now apply int_of_str_of_int.
  assert (Hma : mode (ui a) <> mode_edit) by discriminate.
  assert (Hwa : writes_succeed (senv a)) by (cbn [a senv]; now rewrite He1).
  destruct (submit_add a p Hport Hma Hwa) as (w & Hsub & Hc).
  assert (Hgrp : Py.or_none (Py.or_empty (current_group (current_path (ui s))))
                 = current_group (current_path (ui s))).
  { destruct Hpath as [E|E]; [now rewrite E|].
    destruct (current_group (current_path (ui s))) as [[|x g]|];
      [discriminate E|reflexivity|reflexivity]. }
  assert (Hnew : profile_of_form (input_values (ui a)) p
                 = mkSSHConfig nm EmptyString p EmptyString None None
                               (current_group (current_path (ui s)))).
  { rewrite <- Hgrp, <- Hp1. reflexivity. }
  rewrite Hnew in Hc, Hsub.
  cbn [a ui ssh_manager name set_input_values set_current_field set_mode] in Hc.
  rewrite Hs1 in Hc.
  eexists. split.
  { apply run_cons_true with (rest := []) (s1 := _).
    rewrite turn_in_form by (left; reflexivity).
    rewrite enter_is_submit. unfold bind at 1, try_except. rewrite Hsub.
    reflexivity. }
  cbn [submitted ui mode ssh_manager current_path set_editing_config set_mode
       set_message_timeout set_message set_ssh_manager a].
  split; [reflexivity|]. split; [exact Hp1|]. split; [exact Hc|].
  match goal with
  | |- In _ (build_items ?cs ?pa) =>
      replace cs with
        (others nm (configs (ssh_manager (ui s)))
         ++ [mkSSHConfig nm EmptyString p EmptyString None None
                         (current_group (current_path (ui s)))])
        by (symmetry; exact Hc);
      replace pa with (current_path (ui s)) by (symmetry; exact Hp1)
  end.
  apply profile_listed; [reflexivity|].
  apply in_or_app. right. left. reflexivity.
Qed.

End Creating.

Lemma descend_then_up_witness :
  mode (ui (sample_session [web; vpn] [])) = mode_list
  /\ Py.index (build_items [web; vpn] []) 0
     = Some ("office (1)"%string, type_dir, data_group "office")
  /\ "office (1)"%string <> ".."%string
  /\ exists s1 s2,
       run [Key KEY_ENTER] (sample_session [web; vpn] []) = Ok true s1
       /\ current_path (ui s1) = ["office"%string]
       /\ run [Key KEY_ENTER; Key KEY_ENTER] (sample_session [web; vpn] [])
          = Ok true s2
       /\ current_path (ui s2) = []
       /\ current_index (ui s2) = 0.
Proof.
  assert (Hn : "office (1)"%string <> ".."%string) by discriminate.
  split; [reflexivity|]. split; [reflexivity|]. split; [exact Hn|].
  destruct (descend_then_up (sample_session [web; vpn] [])
              "office (1)" (data_group "office") eq_refl eq_refl Hn)
    as (s1 & s2 & H1 & P1 & _ & H2 & P2 & I2 & _).
  exists s1, s2. repeat split; assumption.
Defined.

Lemma enter_listed_group_witness :
  In "office"%string (get_child_groups [web; vpn] None)
  /\ Py.index (display_items (ui (drawn_session [web; vpn]))) 0
     = Some (group_item [web; vpn] "office")
  /\ exists s',
       handle_list_input KEY_ENTER (drawn_session [web; vpn]) = Ok true s'
       /\ current_path (ui s') = ["office"%string]
       /\ current_group (current_path (ui s')) = Some "office"%string.
Proof.
  assert (Hin : In "office"%string (get_child_groups [web; vpn] None))
    by (left; reflexivity).
  split; [exact Hin|]. split; [reflexivity|].
  destruct (enter_listed_group (drawn_session [web; vpn]) "office"
              (or_introl eq_refl) Hin eq_refl eq_refl)
    as (s' & H & Hp & _ & Hg & _).
  exists s'. repeat split; assumption.
Defined.

Lemma edit_unchanged_witness :
  Py.index (build_items [web; db] []) 0 = Some (config_item db)
  /\ convertible (port db)
  /\ writes_succeed (senv (sample_session [web; db] []))
  /\ exists s',
       run [Key (ord "e"); Key KEY_ENTER] (sample_session [web; db] [])
       = Ok true s'
       /\ configs (ssh_manager (ui s')) = [web; db]
       /\ message (ui s') = "Updated connection: db"%string.
Proof.
  assert (Hw : writes_succeed (senv (sample_session [web; db] [])))
    by constructor.
  assert (Hp : convertible (port db))
    by (apply Nat.leb_le; vm_compute; reflexivity).
  split; [reflexivity|]. split; [exact Hp|]. split; [exact Hw|].
  destruct (edit_unchanged (sample_session [web; db] []) "db (10.0.0.9)" db
              eq_refl eq_refl Hp)
    as (s' & H & _ & _ & Hc & Hm & _); try discriminate; [exact Hw|].
  exists s'. repeat split; assumption.
Defined.

Lemma rename_moves_profile_witness :
  mode (ui renaming_session) = mode_edit
  /\ editing_config (ui renaming_session) = Some web
  /\ Py.int_of_str (v_port (input_values (ui renaming_session))) = Py.Int 22
  /\ writes_succeed (senv renaming_session)
  /\ exists s',
       handle_add_input KEY_ENTER renaming_session = Ok true s'
       /\ get_config (configs (ssh_manager (ui s'))) "web2"
          = Some (mkSSHConfig "web2" "10.0.0.5" 22 "deploy" None None None)
       /\ get_config (configs (ssh_manager (ui s'))) "web" = None
       /\ get_config (configs (ssh_manager (ui s'))) "db" = Some db.
Proof.
  assert (Hw : writes_succeed (senv renaming_session)) by constructor.
  split; [reflexivity|]. split; [reflexivity|]. split; [reflexivity|].
  split; [exact Hw|].
  destruct (rename_moves_profile renaming_session web 22
              eq_refl eq_refl eq_refl Hw)
    as (s' & H & Hnew & Hold & Hoth).
  exists s'. split; [exact H|]. split; [exact Hnew|].
  split; [apply Hold; discriminate|].
  rewrite Hoth by discriminate. reflexivity.
Defined.

Lemma add_in_current_group_witness :
  printable "gw"
  /\ convertible 2222
  /\ writes_succeed (senv (sample_session [web] []))
  /\ exists s',
       run (Key (ord "a") :: typed "gw" ++ [Key KEY_DOWN; Key KEY_DOWN]
              ++ typed (Py.str_of_int 2222) ++ [Key KEY_ENTER])
           (sample_session [web] [])
       = Ok true s'
       /\ configs (ssh_manager (ui s'))
          = [web; mkSSHConfig "gw" EmptyString 2222 EmptyString None None None].
Proof.
  assert (Hp : printable "gw")
    by (repeat constructor; discriminate).
  assert (Hw : writes_succeed (senv (sample_session [web] []))) by constructor.
  assert (Hc22 : convertible 2222)
    by (apply Nat.leb_le; vm_compute; reflexivity).
  split; [exact Hp|]. split; [exact Hc22|]. split; [exact Hw|].
  destruct (add_in_current_group (sample_session [web] []) "gw" 2222
              eq_refl (or_introl eq_refl) Hp Hc22 Hw)
    as (s' & H & _ & _ & Hc & _).
  exists s'. split; [exact H|exact Hc].
Defined.

(** * The group tree *)

Section GroupTree.

Lemma same_path_eq (P Q : list string) : same_path P Q = true <-> P = Q.
Proof.
  revert Q. induction P as [|p P IH]; intros [|q Q]; simpl;
    try (split; [discriminate|congruence]); [tauto|].
  rewrite andb_true_iff, String.eqb_eq, IH.
  split; [intros [-> ->]; reflexivity|intros H; inversion H; auto].
Qed.

Lemma same_path_refl (P : list string) : same_path P P = true.
Proof. now apply same_path_eq. Qed.

Lemma tree_get_set_same (k : string) (v : tree) (kv : list (string * tree)) :
  tree_get k (tree_set k v kv) = Some v.
Proof.
  induction kv as [|[k' v'] kv IH]; simpl.
  - now rewrite String.eqb_refl.
  - destruct (k' =? k)%string eqn:E; simpl.
    + now rewrite String.eqb_refl.
    + now rewrite E.
Qed.

Lemma tree_get_set_other (k k' : string) (v : tree) (kv : list (string * tree)) :
  (k' =? k)%string = false ->
  tree_get k' (tree_set k v kv) = tree_get k' kv.
Proof.
  intros Hn. assert (Hn' : (k =? k')%string = false)
    by now rewrite String.eqb_sym.
  induction kv as [|[k0 v0] kv IH]; simpl.
  - now rewrite Hn'.
  - destruct (k0 =? k)%string eqn:E; simpl.
    + apply String.eqb_eq in E. subst k0. now rewrite Hn'.
    + now rewrite IH.
Qed.

Lemma tree_add_nil (c : SSHConfig) (t : tree) : tree_add [] c t = None.
Proof. now destruct t. Qed.

Lemma tree_add_leaf (Q : list string) (c : SSHConfig) (m : list SSHConfig) :
  tree_add Q c (Leaf m) = None.
Proof. now destruct Q. Qed.

Lemma tree_add_one (q : string) (c : SSHConfig) (kv : list (string * tree)) :
  tree_add [q] c (Node kv) = option_map Node (tree_append q c kv).
Proof. reflexivity. Qed.

Lemma tree_add_more (q q2 : string) (Q : list string) (c : SSHConfig)
    (kv : list (string * tree)) :
  tree_add (q :: q2 :: Q) c (Node kv)
  = match tree_add (q2 :: Q) c
            (match tree_get q kv with None => Node [] | Some t => t end) with
    | Some sub' => Some (Node (tree_set q sub' kv))
    | None => None
    end.
Proof. reflexivity. Qed.

Lemma members_cons (p : string) (P : list string) (kv : list (string * tree)) :
  members (p :: P) (Node kv)
  = match tree_get p kv with Some t1 => members P t1 | None => [] end.
Proof. unfold members. simpl. now destruct (tree_get p kv). Qed.

Lemma members_empty_node (P : list string) : members P (Node []) = [].
Proof. now destruct P. Qed.

Lemma members_below_leaf (p : string) (P : list string) (m : list SSHConfig) :
  members (p :: P) (Leaf m) = [].
Proof. reflexivity. Qed.

Lemma subtree_empty_node (P : list string) :
  P <> [] -> subtree P (Node []) = None.
Proof. destruct P; [congruence|reflexivity]. Qed.

Lemma subtree_app (P R : list string) (t : tree) :
  subtree (P ++ R) t
  = match subtree P t with Some t1 => subtree R t1 | None => None end.
Proof.
  revert t. induction P as [|p P IH]; intros t; simpl; auto.
  destruct t as [m|kv]; auto. destruct (tree_get p kv); auto.
Qed.

(** What [tree_add] does to the lists of the tree: the profile is appended
    at its path, and every other list is as before. *)
Lemma tree_add_members (Q : list string) :
  forall (c : SSHConfig) (t t' : tree) (P : list string),
    tree_add Q c t = Some t' ->
    members P t' = if same_path P Q then members P t ++ [c] else members P t.
Proof.
  induction Q as [|q Q IH]; intros c t t' P H.
  - now rewrite tree_add_nil in H.
  - destruct t as [m|kv]; [now rewrite tree_add_leaf in H|].
    destruct Q as [|q2 Q].
    + rewrite tree_add_one in H. unfold tree_append in H.
      destruct P as [|p P].
      { destruct (tree_get q kv) as [[m|kv1]|]; simpl in H;
          try discriminate; injection H as <-; reflexivity. }
      cbn [same_path]. rewrite (members_cons p P kv).
      destruct (tree_get q kv) as [[m|kv1]|] eqn:G; simpl in H;
        try discriminate; injection H as <-; rewrite members_cons;
        (destruct (p =? q)%string eqn:E;
         [apply String.eqb_eq in E; subst p;
          rewrite tree_get_set_same, G; destruct P; reflexivity
         |rewrite tree_get_set_other by exact E; reflexivity]).
    + rewrite tree_add_more in H.
      destruct (tree_add (q2 :: Q) c
                  (match tree_get q kv with None => Node [] | Some t => t end))
        as [sub'|] eqn:A; [|discriminate].
      injection H as <-.
      destruct P as [|p P]; [reflexivity|].
      cbn [same_path]. rewrite !members_cons.
      destruct (p =? q)%string eqn:E.
      * apply String.eqb_eq in E. subst p.
        rewrite tree_get_set_same, (IH _ _ _ P A). cbn [andb].
        destruct (tree_get q kv); [reflexivity|].
        now rewrite members_empty_node.
      * rewrite tree_get_set_other by exact E. reflexivity.
Qed.

Lemma tree_add_is_node (Q : list string) (c : SSHConfig) (t t' : tree) :
  tree_add Q c t = Some t' -> exists kv, t' = Node kv.
Proof.
  destruct t as [m|kv]; [now rewrite tree_add_leaf|].
  destruct Q as [|q [|q2 Q]].
  - now rewrite tree_add_nil.
  - rewrite tree_add_one. destruct (tree_append q c kv); simpl; [|discriminate].
    intros H. injection H as <-. eauto.
  - rewrite tree_add_more. destruct (tree_add (q2 :: Q) c _); [|discriminate].
    intros H. injection H as <-. eauto.
Qed.

(** A list found after [tree_add] is the one at the path just used, or was
    there before. *)
Lemma tree_add_leaves (Q : list string) :
  forall (c : SSHConfig) (t t' : tree) (P : list string) (m : list SSHConfig),
    tree_add Q c t = Some t' ->
    subtree P t' = Some (Leaf m) ->
    P = Q \/ subtree P t = Some (Leaf m).
Proof.
  induction Q as [|q Q IH]; intros c t t' P m H S.
  - now rewrite tree_add_nil in H.
  - destruct t as [m0|kv]; [now rewrite tree_add_leaf in H|].
    destruct Q as [|q2 Q].
    + rewrite tree_add_one in H. unfold tree_append in H.
      destruct P as [|p P].
      { destruct (tree_get q kv) as [[m1|kv1]|]; simpl in H;
          try discriminate; injection H as <-; discriminate S. }
      destruct (tree_get q kv) as [[m1|kv1]|] eqn:G; simpl in H;
        try discriminate; injection H as <-; simpl in S |- *;
        (destruct (p =? q)%string eqn:E;
         [apply String.eqb_eq in E; subst p;
          rewrite tree_get_set_same in S;
          destruct P; [now left|discriminate S]
         |rewrite tree_get_set_other in S by exact E; now right]).
    + rewrite tree_add_more in H.
      destruct (tree_add (q2 :: Q) c
                  (match tree_get q kv with None => Node [] | Some t => t end))
        as [sub'|] eqn:A; [|discriminate].
      injection H as <-.
      destruct P as [|p P]; [discriminate S|].
      simpl in S |- *.
      destruct (p =? q)%string eqn:E.
      * apply String.eqb_eq in E. subst p.
        rewrite tree_get_set_same in S.
        destruct (IH _ _ _ P m A S) as [->|S']; [now left|right].
        destruct (tree_get q kv); [exact S'|].
        destruct P; [discriminate S'|].
        now rewrite subtree_empty_node in S'.
      * rewrite tree_get_set_other in S by exact E. now right.
Qed.

(** A dict found after [tree_add] is on the way to the path just used, or
    was there before. *)
Lemma tree_add_nodes (Q : list string) :
  forall (c : SSHConfig) (t t' : tree) (P : list string) (kv' : list (string * tree)),
    tree_add Q c t = Some t' ->
    P <> [] ->
    subtree P t' = Some (Node kv') ->
    proper_prefix P Q \/ exists kv0, subtree P t = Some (Node kv0).
Proof.
  induction Q as [|q Q IH]; intros c t t' P kv' H Hne S.
  - now rewrite tree_add_nil in H.
  - destruct t as [m0|kv]; [now rewrite tree_add_leaf in H|].
    destruct P as [|p P]; [congruence|].
    destruct Q as [|q2 Q].
    + rewrite tree_add_one in H. unfold tree_append in H.
      destruct (tree_get q kv) as [[m1|kv1]|] eqn:G; simpl in H;
        try discriminate; injection H as <-; simpl in S |- *;
        (destruct (p =? q)%string eqn:E;
         [apply String.eqb_eq in E; subst p;
          rewrite tree_get_set_same in S;
          destruct P; discriminate S
         |rewrite tree_get_set_other in S by exact E; right; eauto]).
    + rewrite tree_add_more in H.
      destruct (tree_add (q2 :: Q) c
                  (match tree_get q kv with None => Node [] | Some t => t end))
        as [sub'|] eqn:A; [|discriminate].
      injection H as <-. simpl in S |- *.
      destruct (p =? q)%string eqn:E.
      * apply String.eqb_eq in E. subst p.
        rewrite tree_get_set_same in S.
        destruct P as [|p2 P].
        { left. exists (q2 :: Q). split; [discriminate|reflexivity]. }
        destruct (IH _ _ _ (p2 :: P) kv' A ltac:(discriminate) S)
          as [(R & HR & EQ)|(kv0 & S')].
        -- left. exists R. split; [exact HR|]. simpl. now rewrite EQ.
        -- right. destruct (tree_get q kv); [eauto|].
           now rewrite subtree_empty_node in S' by discriminate.
      * rewrite tree_get_set_other in S by exact E. right; eauto.
Qed.

(** When [tree_add] fails, the path runs through a list or ends on a
    dict. *)
Lemma tree_add_fails (Q : list string) :
  forall (c : SSHConfig) (kv : list (string * tree)),
    Q <> [] ->
    tree_add Q c (Node kv) = None ->
    (exists P R m, Q = P ++ R /\ P <> [] /\ R <> []
                   /\ subtree P (Node kv) = Some (Leaf m))
    \/ (exists kv1, subtree Q (Node kv) = Some (Node kv1)).
Proof.
  induction Q as [|q Q IH]; intros c kv Hne H; [congruence|].
  destruct Q as [|q2 Q].
  - rewrite tree_add_one in H. unfold tree_append in H. right. simpl.
    destruct (tree_get q kv) as [[m1|kv1]|]; simpl in H; try discriminate.
    eauto.
  - rewrite tree_add_more in H.
    destruct (tree_add (q2 :: Q) c
                (match tree_get q kv with None => Node [] | Some t => t end))
      as [sub'|] eqn:A; [discriminate|].
    destruct (tree_get q kv) as [[m1|kv1]|] eqn:G.
    + left. exists [q], (q2 :: Q), m1. simpl. rewrite G.
      repeat split; discriminate.
    + destruct (IH c kv1 ltac:(discriminate) A)
        as [(P & R & m & EQ & HP & HR & S)|(kv2 & S)].
      * left. exists (q :: P), R, m. simpl. rewrite G, EQ.
        repeat split; auto. discriminate.
      * right. exists kv2. simpl. now rewrite G.
    + destruct (IH c [] ltac:(discriminate) A)
        as [(P & R & m & EQ & HP & HR & S)|(kv2 & S)].
      * now rewrite subtree_empty_node in S.
      * now rewrite subtree_empty_node in S.
Qed.

Lemma tree_path_not_nil (c : SSHConfig) : tree_path c <> [].
Proof.
  unfold tree_path. destruct (group c) as [g|]; [|discriminate].
  destruct (Py.truthy (Some g)); [apply split_not_nil|discriminate].
Qed.

Lemma get_group_tree_fold (cs : list SSHConfig) :
  get_group_tree cs = fold_left tree_step cs (Some (Node [])).
Proof.
  unfold get_group_tree. generalize (Some (Node [])).
  induction cs as [|c cs IH]; intros acc; simpl; auto.
  rewrite IH. f_equal. unfold tree_step, tree_path.
  destruct acc; auto. destruct (group c) as [g|]; auto.
  destruct (Py.truthy (Some g)); auto.
Qed.

Lemma fold_tree_step_none (l : list SSHConfig) : fold_left tree_step l None = None.
Proof. induction l; simpl; auto. Qed.

Lemma tree_inv_start : tree_inv [] (Node []).
Proof.
  split; [eauto|]. split; [apply members_empty_node|]. split.
  - intros [|p P] m S; discriminate S.
  - intros P kv Hne S. now rewrite subtree_empty_node in S.
Qed.

Lemma members_of_leaf (P : list string) (t : tree) (m : list SSHConfig) :
  subtree P t = Some (Leaf m) -> members P t = m.
Proof. unfold members. now intros ->. Qed.

Lemma tree_inv_step (done : list SSHConfig) (t t' : tree) (c : SSHConfig) :
  tree_inv done t ->
  tree_add (tree_path c) c t = Some t' ->
  tree_inv (done ++ [c]) t'.
Proof.
  intros (Hn & Hm & Hl & Hd) H.
  pose proof (fun P => tree_add_members _ _ _ _ P H) as F.
  assert (Hnew : members (tree_path c) t' <> []).
  { rewrite (F (tree_path c) ), same_path_refl. now destruct (members _ t). }
  assert (Hgrow : forall P, members P t <> [] -> members P t' <> []).
  { intros P Hp. rewrite (F P). destruct (same_path P (tree_path c)); auto.
    now destruct (members P t). }
  split; [eapply tree_add_is_node; eauto|]. split; [|split].
  - intros P. rewrite (F P), filter_app, <- Hm. simpl.
    destruct (same_path P (tree_path c)); [reflexivity|now rewrite app_nil_r].
  - intros P m S.
    destruct (tree_add_leaves _ _ _ _ _ _ H S) as [->|S']; [|eauto].
    now rewrite (members_of_leaf _ _ _ S) in Hnew.
  - intros P kv Hne S.
    destruct (tree_add_nodes _ _ _ _ _ _ H Hne S) as [(R & HR & EQ)|(kv0 & S')].
    + exists R. split; [exact HR|]. now rewrite <- EQ.
    + destruct (Hd P kv0 Hne S') as (R & HR & Hmem). exists R. auto.
Qed.

Lemma filter_not_nil {A} (f : A -> bool) (l : list A) :
  filter f l <> [] -> exists x, In x l /\ f x = true.
Proof.
  induction l as [|a l IH]; simpl; [congruence|].
  destruct (f a) eqn:E; [eauto|].
  intros H. destruct (IH H) as (x & Hx & Hf). eauto.
Qed.

Lemma fold_tree_step (l : list SSHConfig) :
  forall (done : list SSHConfig) (t : tree),
    tree_inv done t ->
    match fold_left tree_step l (Some t) with
    | Some t' => tree_inv (done ++ l) t'
    | None => conflict (done ++ l)
    end.
Proof.
  induction l as [|c l IH]; intros done t Hinv.
  - simpl. now rewrite app_nil_r.
  - simpl. destruct (tree_add (tree_path c) c t) as [t1|] eqn:A.
    + replace (done ++ c :: l) with ((done ++ [c]) ++ l)
        by now rewrite <- app_assoc.
      apply IH. eapply tree_inv_step; eauto.
    + rewrite fold_tree_step_none.
      destruct Hinv as ((kv & ->) & Hm & Hl & Hd).
      destruct (tree_add_fails _ _ _ (tree_path_not_nil c) A)
        as [(P & R & m & EQ & HP & HR & S)|(kv1 & S)].
      * pose proof (Hl _ _ S) as Hne.
        rewrite <- (members_of_leaf _ _ _ S), Hm in Hne.
        destruct (filter_not_nil _ _ Hne) as (c1 & Hin & Hp).
        apply same_path_eq in Hp.
        exists c1, c. split; [apply in_or_app; now left|].
        split; [apply in_or_app; right; now left|].
        exists R. split; [exact HR|]. now rewrite <- Hp.
      * destruct (Hd _ _ (tree_path_not_nil c) S) as (R & HR & Hne).
        rewrite Hm in Hne.
        destruct (filter_not_nil _ _ Hne) as (c2 & Hin & Hp).
        apply same_path_eq in Hp.
        exists c, c2. split; [apply in_or_app; right; now left|].
        split; [apply in_or_app; now left|].
        exists R. split; [exact HR|]. now rewrite <- Hp.
Qed.

Lemma group_tree_inv (cs : list SSHConfig) :
  match get_group_tree cs with
  | Some t => tree_inv cs t
  | None => conflict cs
  end.
Proof.
  rewrite get_group_tree_fold.
  exact (fold_tree_step cs [] (Node []) tree_inv_start).
Qed.

Lemma filter_has {A} (f : A -> bool) (l : list A) (x : A) :
  In x l -> f x = true -> filter f l <> [].
Proof.
  intros Hin Hf E. assert (H : In x (filter f l)) by (apply filter_In; auto).
  now rewrite E in H.
Qed.

(** X21. When [get_group_tree] fails.  It raises (a [TypeError] or an
    [AttributeError], from indexing a list by a name or appending to a
    dict) exactly when the group path of one profile, cut at the slashes,
    is the beginning of the longer path of another profile; a profile
    without a group counts as being in the group named Ungrouped. *)
Theorem group_tree_fails_iff_conflict (cs : list SSHConfig) :
  get_group_tree cs = None <-> conflict cs.
Proof.
  pose proof (group_tree_inv cs) as H.
  destruct (get_group_tree cs) as [t|]; [|tauto].
  split; [discriminate|]. intros Hc. exfalso.
  destruct Hc as (c1 & c2 & H1 & H2 & R & HR & EQ).
  destruct H as (_ & Hm & _ & _).
  assert (M1 : members (tree_path c1) t <> [])
    by (rewrite Hm; apply (filter_has _ _ c1 H1), same_path_refl).
  assert (M2 : members (tree_path c2) t <> [])
    by (rewrite Hm; apply (filter_has _ _ c2 H2), same_path_refl).
  apply M2. rewrite EQ. unfold members in *. rewrite subtree_app.
  destruct (subtree (tree_path c1) t) as [[m|kv]|]; try congruence.
  destruct R; [congruence|reflexivity].
Qed.

Lemma split_inj (sep : ascii) (a b : string) :
  Py.split sep a = Py.split sep b -> a = b.
Proof.
  intros H. rewrite <- (join_split sep a), <- (join_split sep b). now rewrite H.
Qed.

(** X22. What the group tree holds.  When [get_group_tree] returns, the
    list found along the path of a group other than Ungrouped holds the
    profiles of exactly that group, in the order of the registry; the list
    under Ungrouped holds the profiles without a group together with those
    whose group is named Ungrouped. *)
Theorem group_tree_leaves (cs : list SSHConfig) (t : tree) :
  get_group_tree cs = Some t ->
  (forall g : string,
     Py.truthy (Some g) = true ->
     g <> "Ungrouped"%string ->
     members (Py.split "/" g) t = get_group_configs cs (Some g))
  /\ members ["Ungrouped"%string] t
     = filter (fun c => negb (Py.truthy (group c))
                        || (Py.or_empty (group c) =? "Ungrouped")%string) cs.
Proof.
  intros H. pose proof (group_tree_inv cs) as Hinv. rewrite H in Hinv.
  destruct Hinv as (_ & Hm & _ & _).
  split.
  - intros g Hg Hn. rewrite Hm. unfold get_group_configs. rewrite Hg.
    cbn [negb]. apply filter_ext. intros c. unfold tree_path.
    destruct (group c) as [g'|] eqn:G.
    + destruct (Py.truthy (Some g')) eqn:T.
      * destruct (g' =? g)%string eqn:E.
        -- apply String.eqb_eq in E. subst g'. apply same_path_refl.
        -- apply not_true_is_false. intros S. apply same_path_eq in S.
           apply split_inj in S. subst g'. now rewrite String.eqb_refl in E.
      * destruct g' as [|x g']; [|discriminate T].
        destruct g as [|y g]; [discriminate Hg|].
        cbn [String.eqb]. apply not_true_is_false. intros S.
        apply same_path_eq in S. apply Hn.
        rewrite <- (join_split "/" (String y g)), S. reflexivity.
    + apply not_true_is_false. intros S. apply same_path_eq in S. apply Hn.
      rewrite <- (join_split "/" g), S. reflexivity.
  - rewrite Hm. apply filter_ext. intros c. unfold tree_path.
    destruct (group c) as [g'|] eqn:G; [|reflexivity].
    destruct (Py.truthy (Some g')) eqn:T; [|reflexivity].
    cbn [negb orb Py.or_empty].
    destruct (g' =? "Ungrouped")%string eqn:E.
    + apply String.eqb_eq in E. subst g'. reflexivity.
    + apply not_true_is_false. intros S. apply same_path_eq in S.
      assert (E' : g' = "Ungrouped"%string).
      { rewrite <- (join_split "/" g'), <- S. reflexivity. }
      subst g'. discriminate E.
Qed.

End GroupTree.

(** * What reaches the registry *)

Section StoreFrame.
Context {R : Runtime}.

Lemma same_store_refl (s : Session) : same_store s s.
Proof. repeat split. Qed.

Lemma same_store_trans (a b c : Session) :
  same_store a b -> same_store b c -> same_store a c.
Proof. unfold same_store. intros (A1 & A2 & A3) (B1 & B2 & B3). repeat split; congruence. Qed.

Lemma on_ui_same_store (f : SSHManagerUI -> SSHManagerUI) :
  (forall u, ssh_manager (f u) = ssh_manager u) -> keeps same_store (on_ui f).
Proof. intros H s. repeat split. apply H. Qed.

Lemma on_env_same_store {A} (m : M Env A) :
  (forall e, key_file (final_state (m e)) = key_file e
             /\ config_file (final_state (m e)) = config_file e) ->
  keeps same_store (on_env m).
Proof.
  intros H s. unfold on_env. rewrite zoom_final.
  split; [reflexivity|apply H].
Qed.

Lemma show_message_same_store (msg : string) : keeps same_store (show_message msg).
Proof. apply on_ui_same_store. reflexivity. Qed.

Lemma print_same_store (line : string) : keeps same_store (on_env (print line)).
Proof. apply on_env_same_store. intros e. split; reflexivity. Qed.

Lemma connect_same_store (prog flag failed closed : string) (c : SSHConfig) :
  keeps same_store (connect prog flag failed closed c).
Proof.
  unfold connect.
  apply keeps_bind; [exact same_store_trans| |intros []].
  { apply on_env_same_store. intros e. split; reflexivity. }
  apply keeps_bind; [exact same_store_trans| |intros p].
  { apply on_env_same_store. intros e. unfold pop_proc.
    destruct (procs e); split; reflexivity. }
  destruct p as [code|why].
  - destruct (code =? 0); [apply show_message_same_store|].
    destruct (code =? 6); apply show_message_same_store.
  - apply keeps_bind; [exact same_store_trans|apply print_same_store|intros []].
    destruct (Py.truthy (password c)).
    + repeat (apply keeps_bind;
              [exact same_store_trans|apply print_same_store|intros []]).
      apply print_same_store.
    + apply keeps_ret, same_store_refl.
Qed.

End StoreFrame.

Ltac store_frame :=
  repeat first
    [ apply keeps_ret; exact same_store_refl
    | apply keeps_raise; exact same_store_refl
    | apply keeps_gets; exact same_store_refl
    | apply keeps_or_raise; exact same_store_refl
    | apply show_message_same_store
    | apply connect_same_store
    | apply on_ui_same_store; intros ?; reflexivity
    | apply keeps_bind; [exact same_store_trans| |intros ?]
    | match goal with
      | |- keeps _ (if ?c then _ else _) => destruct c
      | |- keeps _ (match ?x with _ => _ end) => destruct x
      end ].

Section StoreFrameKeys.
Context {R : Runtime}.

Lemma tick_message_same_store : keeps same_store tick_message.
Proof.
  unfold tick_message. apply on_ui_same_store. intros u.
  destruct (message u); [reflexivity|].
  destruct (0 <? message_timeout u); [|reflexivity].
  cbv zeta. destruct (_ =? 0); reflexivity.
Qed.

Lemma draw_same_store (m : Mode) : keeps same_store (draw m).
Proof.
  destruct m; unfold draw, draw_list, draw_add_form, draw_confirm_delete,
    _build_display_items.
  - apply keeps_bind; [exact same_store_trans| |intros ?].
    + store_frame.
    + apply tick_message_same_store.
  - store_frame.
  - store_frame.
  - apply keeps_bind; [exact same_store_trans| |intros dc].
    + store_frame.
    + destruct dc; [apply tick_message_same_store|store_frame].
Qed.

Lemma handle_list_input_same_store (k : Z) : keeps same_store (handle_list_input k).
Proof.
  unfold handle_list_input, selected_item, start_edit, as_config,
    connect_to_ssh, connect_to_sftp.
  cbv zeta. store_frame.
Qed.

Lemma handle_add_input_same_store (k : Z) :
  k <> KEY_ENTER -> keeps same_store (handle_add_input k).
Proof.
  intros Hk. apply Z.eqb_neq in Hk.
  unfold handle_add_input, current_input_field. rewrite Hk. store_frame.
Qed.

Lemma handle_confirm_delete_same_store (k : Z) :
  k <> ord "y" -> keeps same_store (handle_confirm_delete k).
Proof.
  intros Hk. apply Z.eqb_neq in Hk.
  unfold handle_confirm_delete. rewrite Hk. store_frame.
Qed.

Lemma turn_same_store (i : input) :
  (forall k, i = Key k -> k <> KEY_ENTER /\ k <> ord "y") ->
  keeps same_store (turn i).
Proof.
  intros Hi. unfold turn.
  apply keeps_bind; [exact same_store_trans|store_frame|intros m].
  apply keeps_bind; [exact same_store_trans|apply draw_same_store|intros []].
  destruct i as [k|].
  - destruct (Hi k eq_refl) as (H1 & H2). destruct m; cbn [handle].
    + apply handle_list_input_same_store.
    + now apply handle_add_input_same_store.
    + now apply handle_add_input_same_store.
    + now apply handle_confirm_delete_same_store.
  - store_frame.
Qed.

(** X24. Only Enter and [y] reach the registry.  Whatever the mode and the
    session, a run of inputs among which there is neither the Enter key nor
    the key [y] leaves the registry in memory, the registry file and the
    key file as they were, however the run ends: moving about, opening and
    leaving the form, typing, asking for a deletion, connecting, quitting
    and interrupts change none of them. *)
Theorem only_enter_and_y_reach_registry (inputs : list input) (s : Session) :
  (forall k, In (Key k) inputs -> k <> KEY_ENTER /\ k <> ord "y") ->
  ssh_manager (ui (final_state (run inputs s))) = ssh_manager (ui s)
  /\ key_file (senv (final_state (run inputs s))) = key_file (senv s)
  /\ config_file (senv (final_state (run inputs s))) = config_file (senv s).
Proof.
  intros H. change (same_store s (final_state (run inputs s))).
  revert s. change (keeps same_store (run inputs)).
  induction inputs as [|i rest IH]; cbn [run].
  - apply keeps_ret, same_store_refl.
  - apply keeps_bind; [exact same_store_trans| |intros running].
    + apply turn_same_store. intros k ->. apply H. now left.
    + destruct running; [|apply keeps_ret, same_store_refl].
      apply IH. intros k Hk. apply H. now right.
Qed.

End StoreFrameKeys.

(** * Parents and counts *)

Section Parents.

Lemma fold_parents (l : list string) :
  forall (cur : string) (out : list string) (pre : list string),
    cur <> EmptyString ->
    pre <> [] ->
    cur = Py.join "/" pre ->
    snd (fold_left
           (fun (acc : string * list string) part =>
              let current :=
                match fst acc with
                | EmptyString => part
                | cur => cur ++ "/" ++ part
                end%string in
              (current, snd acc ++ [current]))
           l (cur, out))
    = out ++ map (fun q => Py.join "/" (pre ++ q)) (prefixes l).
Proof.
  induction l as [|part l IH]; intros cur out pre Hc Hp E.
  - simpl. now rewrite app_nil_r.
  - destruct cur as [|a cur]; [congruence|].
    assert (E' : (String a cur ++ "/" ++ part)%string
                 = Py.join "/" (pre ++ [part]))
      by (rewrite join_snoc by exact Hp; now rewrite <- E).
    cbn [fold_left fst snd prefixes map]. cbv zeta.
    etransitivity.
    { apply (IH _ _ (pre ++ [part])); [discriminate|now destruct pre|exact E']. }
    rewrite <- app_assoc. cbn [app]. rewrite <- E'. f_equal. f_equal.
    rewrite map_map. apply map_ext. intros q.
    now rewrite <- app_assoc.
Qed.

Lemma first_segment (c : ascii) (s : string) :
  c <> "/"%char ->
  exists seg rest, Py.split "/" (String c s) = String c seg :: rest.
Proof.
  intros Hc. apply Ascii.eqb_neq in Hc. cbn [Py.split]. rewrite Hc.
  destruct (Py.split "/" s); eauto.
Qed.

(** X23. The parents of a group.  For a group path that is not empty and
    does not begin with a slash, [get_parent_groups] returns the paths made
    of its first segment, its first two segments, and so on, up to all
    segments but the last, joined by slashes, shortest first. *)
Theorem parent_groups_are_prefixes (p : string) :
  Py.truthy (Some p) = true ->
  Py.startswith "/" p = false ->
  get_parent_groups (Some p)
  = map (Py.join "/") (prefixes (Py.but_last (Py.split "/" p))).
Proof.
  intros Ht Hs. unfold get_parent_groups. rewrite Ht.
  destruct p as [|c p]; [discriminate Ht|].
  assert (Hc : c <> "/"%char).
  { intros ->. unfold Py.startswith in Hs. simpl in Hs. now destruct p. }
  destruct (first_segment c p Hc) as (seg & rest & E). rewrite E.
  unfold Py.but_last. destruct rest as [|r rest]; [reflexivity|].
  change (removelast (String c seg :: r :: rest))
    with (String c seg :: removelast (r :: rest)).
  cbn [fold_left fst snd prefixes map app]. cbv zeta.
  rewrite (fold_parents _ _ _ [String c seg]);
    [|discriminate|discriminate|reflexivity].
  cbn [app]. rewrite map_map. reflexivity.
Qed.

(** X25. No listed group is empty.  Every group that [get_all_groups]
    returns has at least one profile of its own, so the count shown with
    its entry in the listing is at least 1. *)
Theorem listed_group_not_empty (cs : list SSHConfig) (g : string) :
  In g (get_all_groups cs) ->
  get_group_configs cs (Some g) <> [] /\ 1 <= count_group_items cs (Some g).
Proof.
  intros H. apply get_all_groups_In in H. destruct H as (c & Hc & Hg & Ht).
  assert (Hne : get_group_configs cs (Some g) <> []).
  { unfold get_group_configs.
    destruct g as [|x g]; [congruence|]. cbn [Py.truthy negb].
    apply (filter_has _ _ c Hc). rewrite Hg. apply String.eqb_refl. }
  split; [exact Hne|].
  unfold count_group_items, Py.len.
  destruct (get_group_configs cs (Some g)); [congruence|].
  cbn [List.length]. lia.
Qed.

End Parents.

Lemma group_tree_fails_iff_conflict_witness :
  conflict [vpn; lab]
  /\ get_group_tree [vpn; lab] = None
  /\ get_group_tree [web; lab; vpn] = None.
Proof.
  assert (H1 : conflict [vpn; lab]).
  { exists vpn, lab. split; [now left|]. split; [right; now left|].
    exists ["lab"%string]. split; [discriminate|reflexivity]. }
  assert (H2 : conflict [web; lab; vpn]).
  { exists vpn, lab. split; [right; right; now left|]. split; [right; now left|].
    exists ["lab"%string]. split; [discriminate|reflexivity]. }
  split; [exact H1|]. split.
  - exact (proj2 (group_tree_fails_iff_conflict [vpn; lab]) H1).
  - exact (proj2 (group_tree_fails_iff_conflict [web; lab; vpn]) H2).
Defined.

Lemma group_tree_leaves_witness :
  get_group_tree [api; cache; web]
  = Some (Node [("a"%string, Node [("b"%string, Leaf [api]); ("c"%string, Leaf [cache])]);
                ("Ungrouped"%string, Leaf [web])])
  /\ members ["a"%string; "b"%string]
       (Node [("a"%string, Node [("b"%string, Leaf [api]); ("c"%string, Leaf [cache])]);
              ("Ungrouped"%string, Leaf [web])])
     = get_group_configs [api; cache; web] (Some "a/b"%string).
Proof.
  split; [reflexivity|].
  destruct (group_tree_leaves [api; cache; web] _ eq_refl) as (H & _).
  apply (H "a/b"%string); [reflexivity|discriminate].
Defined.

Lemma parent_groups_are_prefixes_witness :
  Py.truthy (Some "a/b/c"%string) = true
  /\ Py.startswith "/" "a/b/c" = false
  /\ get_parent_groups (Some "a/b/c"%string)
     = map (Py.join "/") [["a"%string]; ["a"%string; "b"%string]].
Proof.
  split; [reflexivity|]. split; [reflexivity|].
  exact (parent_groups_are_prefixes "a/b/c" eq_refl eq_refl).
Defined.

Lemma only_enter_and_y_reach_registry_witness :
  (forall k, In (Key k) browsing_keys -> k <> KEY_ENTER /\ k <> ord "y")
  /\ ssh_manager (ui (final_state (run browsing_keys (sample_session [web; db] []))))
     = ssh_manager (ui (sample_session [web; db] []))
  /\ config_file (senv (final_state (run browsing_keys (sample_session [web; db] []))))
     = config_file (senv (sample_session [web; db] [])).
Proof.
  assert (H : forall k, In (Key k) browsing_keys -> k <> KEY_ENTER /\ k <> ord "y").
  { intros k Hk. unfold browsing_keys in Hk. cbn [In] in Hk.
    repeat (destruct Hk as [Hk|Hk];
            [try discriminate Hk; injection Hk as <-; split; discriminate|]).
    destruct Hk. }
  split; [exact H|].
  destruct (only_enter_and_y_reach_registry browsing_keys
              (sample_session [web; db] []) H) as (H1 & _ & H3).
  split; [exact H1|exact H3].
Defined.

Lemma listed_group_not_empty_witness :
  In "a/b"%string (get_all_groups [api; cache; web])
  /\ 1 <= count_group_items [api; cache; web] (Some "a/b"%string).
Proof.
  assert (H : In "a/b"%string (get_all_groups [api; cache; web])) by (left; reflexivity).
  split; [exact H|].
  exact (proj2 (listed_group_not_empty [api; cache; web] "a/b" H)).
Defined.

(** * Deleting the last entry *)

Section DeleteLast.
Context {R : Runtime}.

Lemma filter_ascending {A} (key : A -> string) (f : A -> bool) (l : list A) :
  ascending key l -> ascending key (filter f l).
Proof.
  unfold ascending. induction 1 as [|x xs Hs IH Hx]; simpl; [constructor|].
  destruct (f x); auto. constructor; auto.
  rewrite Forall_forall in *. intros y Hy. apply filter_In in Hy.
  apply Hx. tauto.
Qed.

Lemma get_child_groups_ascending (cs : list SSHConfig) (gp : option string) :
  ascending (fun g => g) (get_child_groups cs gp).
Proof.
  unfold get_child_groups, get_all_groups, Py.sorted_set.
  destruct gp as [p|]; [destruct (Py.truthy (Some p))|];
    apply filter_ascending, sorted_ascending.
Qed.

Lemma filter_comm {A} (f g : A -> bool) (l : list A) :
  filter f (filter g l) = filter g (filter f l).
Proof.
  induction l as [|x l IH]; simpl; auto.
  destruct (f x) eqn:F, (g x) eqn:G; simpl; rewrite ?F, ?G, IH; reflexivity.
Qed.

Lemma get_group_configs_others (nm : string) (cs : list SSHConfig)
    (gp : option string) :
  get_group_configs (others nm cs) gp = others nm (get_group_configs cs gp).
Proof.
  unfold get_group_configs, others.
  destruct (negb (Py.truthy gp)); apply filter_comm.
Qed.

Lemma others_one_less (c : SSHConfig) (l : list SSHConfig) :
  NoDup (map name l) -> In c l ->
  S (List.length (others (name c) l)) = List.length l.
Proof.
  induction l as [|x l IH]; intros Hn Hin; [destruct Hin|].
  inversion Hn as [|? ? Hx Hl]; subst.
  unfold others in *. cbn [filter].
  destruct (name x =? name c)%string eqn:E.
  - apply String.eqb_eq in E. cbn [negb List.length]. f_equal.
    fold (others (name c) l). rewrite others_absent; [reflexivity|].
    now rewrite <- E.
  - cbn [negb List.length]. f_equal. apply IH; auto.
    destruct Hin as [->|Hin]; auto.
    now rewrite String.eqb_refl in E.
Qed.

Lemma prefix_longer (a b : string) :
  String.prefix (a ++ String "/" b) a = false.
Proof.
  destruct (String.prefix (a ++ String "/" b) a) eqn:E; auto.
  apply prefix_inv in E. apply (f_equal String.length) in E.
  rewrite !length_append in E. simpl in E. lia.
Qed.

(** Removing a profile shown in a group leaves the child groups of that
    group as they were. *)
Lemma child_groups_after_remove (cs : list SSHConfig) (gp : option string)
    (c : SSHConfig) :
  NoDup (map name cs) ->
  In c (get_group_configs cs gp) ->
  get_child_groups (others (name c) cs) gp = get_child_groups cs gp.
Proof.
  intros Hn Hc.
  apply (ascending_unique (fun g : string => g)); auto;
    try apply get_child_groups_ascending.
  apply NoDup_Permutation; try apply get_child_groups_NoDup.
  intros g.
  assert (Hsub : In g (get_all_groups (others (name c) cs)) ->
                 In g (get_all_groups cs)).
  { rewrite !get_all_groups_In. intros (c0 & H0 & Hg).
    apply filter_In in H0. exists c0. tauto. }
  assert (Hback : forall c0, In c0 cs -> group c0 = Some g ->
                    group c <> Some g ->
                    g <> EmptyString ->
                    In g (get_all_groups (others (name c) cs))).
  { intros c0 H0 Hg Hne He. apply get_all_groups_In. exists c0.
    split; [|tauto]. apply filter_In. split; [exact H0|].
    apply negb_true_iff, String.eqb_neq. intros E.
    apply Hne. rewrite <- Hg. f_equal.
    apply (unique_keys name cs Hn); auto.
    unfold get_group_configs in Hc.
    destruct (negb (Py.truthy gp)); apply filter_In in Hc; tauto. }
  unfold get_child_groups, get_group_configs in *.
  destruct gp as [p|].
  - destruct (Py.truthy (Some p)) eqn:T; cbn [negb] in Hc;
      apply filter_In in Hc; destruct Hc as [Hc Hg];
      rewrite !filter_In.
    + destruct (group c) as [gc|] eqn:G; [|discriminate Hg].
      apply String.eqb_eq in Hg. subst gc.
      split; intros (Hin & Hf); (split; [|exact Hf]); auto.
      apply get_all_groups_In in Hin. destruct Hin as (c0 & H0 & Hg0 & He).
      apply (Hback c0 H0 Hg0); [|exact He].
      intros E. injection E as <-.
      apply andb_true_iff in Hf. destruct Hf as [Hf _].
      unfold Py.startswith in Hf.
      change (p ++ "/")%string with (p ++ String "/" EmptyString)%string in Hf.
      now rewrite prefix_longer in Hf.
    + split; intros (Hin & Hf); (split; [|exact Hf]); auto.
      apply get_all_groups_In in Hin. destruct Hin as (c0 & H0 & Hg0 & He).
      apply (Hback c0 H0 Hg0); [|exact He].
      intros E. rewrite E in Hg. destruct g; [congruence|discriminate Hg].
  - cbn [Py.truthy negb] in Hc. apply filter_In in Hc. destruct Hc as [Hc Hg].
    rewrite !filter_In.
    split; intros (Hin & Hf); (split; [|exact Hf]); auto.
    apply get_all_groups_In in Hin. destruct Hin as (c0 & H0 & Hg0 & He).
    apply (Hback c0 H0 Hg0); [|exact He].
    intros E. rewrite E in Hg. destruct g; [congruence|discriminate Hg].
Qed.

Lemma NoDup_names_filter_group (cs : list SSHConfig) (gp : option string) :
  NoDup (map name cs) -> NoDup (map name (get_group_configs cs gp)).
Proof.
  intros H. unfold get_group_configs.
  destruct (negb (Py.truthy gp)); now apply NoDup_names_filter.
Qed.

Lemma sorted_length {A} (key : A -> string) (l : list A) :
  List.length (Py.sorted key l) = List.length l.
Proof. apply Permutation_length, sorted_perm. Qed.

(** Removing a shown profile makes the listing one entry shorter. *)
Lemma listing_one_shorter (cs : list SSHConfig) (path : list string)
    (c : SSHConfig) :
  NoDup (map name cs) ->
  In c (get_group_configs cs (current_group path)) ->
  Py.len (build_items (others (name c) cs) path) = Py.len (build_items cs path) - 1.
Proof.
  intros Hn Hc. unfold Py.len, build_items.
  rewrite !length_app, !length_map, !sorted_length.
  rewrite (child_groups_after_remove cs _ c Hn Hc).
  rewrite get_group_configs_others.
  pose proof (others_one_less c _ (NoDup_names_filter_group cs _ Hn) Hc) as H.
  lia.
Qed.

(** [d] on a profile asks for confirmation. *)
Lemma d_key_asks (s : Session) (label : string) (c : SSHConfig) :
  Py.index (display_items (ui s)) (current_index (ui s))
  = Some (label, type_config, data_config c) ->
  handle_list_input (ord "d") s
  = Ok true
      (mkSession
         (set_delete_confirm (Some c) (set_mode mode_confirm_delete (ui s)))
         (senv s)).
Proof.
  intros Hi. pose proof (index_nonempty _ _ _ Hi) as Hn.
  unfold handle_list_input, bind at 1 2 3, gets at 1 2 3.
  replace ((ord "d" =? KEY_UP) && _) with false by reflexivity.
  replace ((ord "d" =? KEY_DOWN) && _) with false by reflexivity.
  replace (ord "d" =? KEY_ENTER) with false by reflexivity.
  replace (ord "d" =? ord "a") with false by reflexivity.
  replace ((ord "d" =? ord "e") && _) with false by reflexivity.
  replace (ord "d" =? ord "d") with true by reflexivity.
  rewrite Hn. cbn [negb andb].
  unfold bind at 1, bind at 1, selected_item, bind at 1, gets at 1, bind at 1,
    gets at 1.
  rewrite Hi. reflexivity.
Qed.

(** What the footer of the confirmation leaves alone. *)
Lemma tick_message_fields (s : Session) :
  exists s1,
    tick_message s = Ok tt s1
    /\ senv s1 = senv s
    /\ ssh_manager (ui s1) = ssh_manager (ui s)
    /\ delete_confirm (ui s1) = delete_confirm (ui s)
    /\ display_items (ui s1) = display_items (ui s)
    /\ current_index (ui s1) = current_index (ui s)
    /\ current_path (ui s1) = current_path (ui s).
Proof.
  pose proof (tick_message_same_ui s) as H.
  unfold tick_message, on_ui, modify in *. eexists. split; [reflexivity|].
  unfold same_but_message in H. cbn [final_state ui senv] in *.
  split; [reflexivity|].
  repeat split.
  - now apply (f_equal ssh_manager) in H.
  - now apply (f_equal delete_confirm) in H.
  - now apply (f_equal display_items) in H.
  - now apply (f_equal current_index) in H.
  - now apply (f_equal current_path) in H.
Qed.

(** [y] in the confirmation, when the save goes through. *)
Lemma y_key_removes (s : Session) (c : SSHConfig) :
  delete_confirm (ui s) = Some c ->
  writes_succeed (senv s) ->
  exists s',
    handle_confirm_delete (ord "y") s = Ok true s'
    /\ mode (ui s') = mode_list
    /\ delete_confirm (ui s') = None
    /\ configs (ssh_manager (ui s')) = others (name c) (configs (ssh_manager (ui s)))
    /\ current_path (ui s') = current_path (ui s)
    /\ message (ui s') = ("Deleted connection: " ++ name c)%string
    /\ current_index (ui s')
       = if Py.len (display_items (ui s)) <=? current_index (ui s)
         then Z.max 0 (Py.len (display_items (ui s)) - 1)
         else current_index (ui s).
Proof.
  intros Hd Hw.
  destruct (remove_config_succeeds (name c) (world_of s) Hw)
    as (w & Hr & Hc & _ & _).
  unfold handle_confirm_delete. simpl.
  unfold bind at 1, gets at 1. rewrite Hd.
  unfold bind at 1, or_raise, ret at 1.
  unfold bind at 1, on_manager, zoom. rewrite Hr.
  eexists. split; [reflexivity|].
  simpl.
  destruct (Py.len (display_items (ui s)) <=? current_index (ui s));
    simpl; repeat split; exact Hc.
Qed.

Lemma turn_in_confirm (s s1 : Session) (k : Z) (c : SSHConfig) :
  mode (ui s) = mode_confirm_delete ->
  delete_confirm (ui s) = Some c ->
  tick_message s = Ok tt s1 ->
  turn (Key k) s = handle_confirm_delete k s1.
Proof.
  intros Hm Hd Ht. unfold turn, bind at 1, gets at 1. rewrite Hm.
  cbn [draw handle]. unfold draw_confirm_delete, bind, gets. rewrite Hd, Ht.
  reflexivity.
Qed.

Lemma index_past_end {A} (l : list A) : Py.index l (Py.len l) = None.
Proof.
  unfold Py.index.
  replace (Py.len l <? Py.len l) with false by (symmetry; apply Z.ltb_irrefl).
  rewrite andb_false_r.
  replace (Py.len l <? 0) with false
    by (symmetry; apply Z.ltb_ge; unfold Py.len; lia).
  now rewrite andb_false_r.
Qed.

(** The keys that look at the selected entry raise when there is none. *)
Lemma selection_key_raises (s : Session) (k : Z) :
  In k [KEY_ENTER; ord "e"; ord "d"; ord "c"; ord "s"] ->
  Py.index (display_items (ui s)) (current_index (ui s)) = None ->
  (Py.len (display_items (ui s)) =? 0) = false ->
  handle_list_input k s = Raise IndexError s.
Proof.
  intros Hk Hi Hn.
  assert (Hsel : selected_item s = Raise IndexError s)
    by (unfold selected_item, bind, gets; now rewrite Hi).
  unfold handle_list_input, bind at 1 2 3, gets at 1 2 3.
  rewrite Hn. cbn [negb].
  cbn [In] in Hk.
  destruct Hk as [<-|[<-|[<-|[<-|[<-|[]]]]]];
    repeat match goal with
           | |- context [(?a =? ?b) && ?x] =>
               replace ((a =? b) && x) with false by reflexivity
           | |- context [(?a =? ?b)] =>
               first [ replace (a =? b) with false by reflexivity
                     | replace (a =? b) with true by reflexivity ]
           end;
    cbn [andb]; unfold bind at 1, bind at 1; rewrite Hsel; reflexivity.
Qed.

(** X26. Deleting the last entry.  In list mode, with unique names, when
    the selected entry is a profile, is the last one of the listing and is
    not the only one, the keys [d] and [y] (the save going through) remove
    that profile and return to the list with the selection where it was:
    the handler compares it with the listing drawn before the removal.  The
    listing drawn next is one entry shorter, so the selection is past its
    end, and each of the keys Enter, [e], [d], [c] and [s] then raises
    [IndexError]. *)
Theorem delete_last_entry (s : Session) (label : string) (c : SSHConfig) :
  mode (ui s) = mode_list ->
  NoDup (map name (configs (ssh_manager (ui s)))) ->
  Py.index (build_items (configs (ssh_manager (ui s))) (current_path (ui s)))
           (current_index (ui s))
  = Some (label, type_config, data_config c) ->
  current_index (ui s)
  = Py.len (build_items (configs (ssh_manager (ui s))) (current_path (ui s))) - 1 ->
  1 <= current_index (ui s) ->
  writes_succeed (senv s) ->
  exists s',
    run [Key (ord "d"); Key (ord "y")] s = Ok true s'
    /\ mode (ui s') = mode_list
    /\ configs (ssh_manager (ui s'))
       = others (name c) (configs (ssh_manager (ui s)))
    /\ current_index (ui s') = current_index (ui s)
    /\ Py.len (build_items (configs (ssh_manager (ui s'))) (current_path (ui s')))
       = current_index (ui s')
    /\ forall k, In k [KEY_ENTER; ord "e"; ord "d"; ord "c"; ord "s"] ->
         exists s'', run [Key (ord "d"); Key (ord "y"); Key k] s
                     = Raise IndexError s''.
Proof.
  intros Hm Hn Hi Hlast Hpos Hw.
  destruct (draw_list_fields s) as (d1 & Hd1 & Hit1 & Hm1 & Hs1 & He1 & Hp1 & Hx1).
  assert (Hi1 : Py.index (display_items (ui d1)) (current_index (ui d1))
                = Some (label, type_config, data_config c))
    by now rewrite Hit1, Hx1.
  pose proof (d_key_asks d1 label c Hi1) as T1.
  rewrite <- (turn_in_list s d1 _ Hm Hd1) in T1.
  set (a := mkSession
              (set_delete_confirm (Some c) (set_mode mode_confirm_delete (ui d1)))
              (senv d1)) in *.
  destruct (tick_message_fields a) as (a1 & Ht & Ae & As & Ad & Ai & Ax & Ap).
  cbn [a ui senv ssh_manager delete_confirm display_items current_index
       current_path set_delete_confirm set_mode] in Ae, As, Ad, Ai, Ax, Ap.
  assert (Hwa : writes_succeed (senv a1)) by now rewrite Ae, He1.
  destruct (y_key_removes a1 c Ad Hwa)
    as (b & Hy & Bm & Bd & Bc & Bp & Bmsg & Bx).
  pose proof (turn_in_confirm a a1 (ord "y") c eq_refl eq_refl Ht) as T2.
  rewrite Hy in T2.
  assert (Hin : In c (get_group_configs (configs (ssh_manager (ui s)))
                                        (current_group (current_path (ui s))))).
  { apply index_In in Hi. unfold build_items in Hi.
    apply in_app_or in Hi. destruct Hi as [Hi|Hi].
    { destruct (current_path (ui s)); [destruct Hi|].
      destruct Hi as [Hi|[]]; discriminate Hi. }
    apply in_app_or in Hi. destruct Hi as [Hi|Hi].
    { apply in_map_iff in Hi. destruct Hi as (g & E & _). discriminate E. }
    apply in_map_iff in Hi. destruct Hi as (c' & E & Hc').
    injection E as _ <-.
    eapply Permutation_in; [apply sorted_perm|exact Hc']. }
  assert (Hrange : (Py.len (display_items (ui a1)) <=? current_index (ui a1)) = false).
  { rewrite Ai, Ax, Hit1, Hx1. apply Z.leb_gt. lia. }
  rewrite Hrange in Bx.
  assert (Bidx : current_index (ui b) = current_index (ui s))
    by now rewrite Bx, Ax, Hx1.
  assert (Bcs : configs (ssh_manager (ui b))
                = others (name c) (configs (ssh_manager (ui s))))
    by now rewrite Bc, As, Hs1.
  assert (Bpath : current_path (ui b) = current_path (ui s))
    by now rewrite Bp, Ap, Hp1.
  assert (Blen : Py.len (build_items (configs (ssh_manager (ui b)))
                                     (current_path (ui b)))
                 = current_index (ui b)).
  { rewrite Bcs, Bpath, Bidx, (listing_one_shorter _ _ c Hn Hin). lia. }
  exists b. split.
  { rewrite (run_cons_true _ _ _ _ T1). now apply run_cons_true with (rest := []). }
  split; [exact Bm|]. split; [exact Bcs|]. split; [exact Bidx|].
  split; [exact Blen|].
  intros k Hk.
  destruct (draw_list_fields b) as (d3 & Hd3 & Hit3 & Hm3 & Hs3 & He3 & Hp3 & Hx3).
  exists d3.
  rewrite (run_cons_true _ _ _ _ T1), (run_cons_true _ _ _ _ T2).
  cbn [run]. unfold bind at 1.
  rewrite (turn_in_list b d3 k Bm Hd3).
  rewrite (selection_key_raises d3 k Hk); [reflexivity| |].
  - rewrite Hit3, Hx3, <- Blen. apply index_past_end.
  - rewrite Hit3, Blen, Bidx. apply Z.eqb_neq. lia.
Qed.

End DeleteLast.

Lemma delete_last_entry_witness :
  NoDup (map name (configs (ssh_manager (ui last_selected))))
  /\ Py.index (build_items [web; db] []) 1 = Some (config_item web)
  /\ writes_succeed (senv last_selected)
  /\ exists s',
       run [Key (ord "d"); Key (ord "y")] last_selected = Ok true s'
       /\ configs (ssh_manager (ui s')) = [db]
       /\ current_index (ui s') = 1
       /\ exists s'',
            run [Key (ord "d"); Key (ord "y"); Key KEY_ENTER] last_selected
            = Raise IndexError s''.
Proof.
  assert (Hn : NoDup (map name (configs (ssh_manager (ui last_selected))))).
  { repeat constructor; cbn; intuition discriminate. }
  assert (Hw : writes_succeed (senv last_selected)) by constructor.
  split; [exact Hn|]. split; [reflexivity|]. split; [exact Hw|].
  destruct (delete_last_entry last_selected "web (10.0.0.5)" web
              eq_refl Hn eq_refl eq_refl ltac:(discriminate) Hw)
    as (s' & H & _ & Hc & Hi & _ & Hk).
  exists s'. split; [exact H|]. split; [exact Hc|]. split; [exact Hi|].
  apply Hk. now left.
Defined.

(** * File transfer sessions *)

Section Sftp.
Context {R : Runtime}.

(** The lines printed when the client cannot be started. *)
Lemma failure_notes_printed (l1 l2 l3 l4 l5 : string) (b : bool) (st : Session) :
  (on_env (print l1) ;;;
   (if b then
      on_env (print l2) ;;; on_env (print l3) ;;;
      on_env (print l4) ;;; on_env (print l5)
    else ret tt)) st
  = Ok tt
      (mkSession (ui st)
         (mkEnv (dir_ok (senv st)) (key_file (senv st)) (config_file (senv st))
                (nonces (senv st)) (writes (senv st)) (procs (senv st))
                (launched (senv st))
                (stdout (senv st)
                 ++ l1 :: (if b then [l2; l3; l4; l5] else [])))).
Proof.
  destruct b; unfold bind, on_env, zoom, print, modify, ret;
    cbn [senv ui dir_ok key_file config_file nonces writes procs launched stdout];
    rewrite <- ?app_assoc; reflexivity.
Qed.

(** X27. A file transfer session.  With a profile selected, [s] launches
    the sftp client once, with the port given by [-P], and returns to the
    loop whatever happens; the interface object changes in its message
    only, and the two files are untouched.  When the client ends, the
    message says how.  When it cannot be started, nothing is raised: the
    failure is printed, followed by four lines about sshpass if the profile
    has a password, and the message still announces the session. *)
Theorem sftp_changes_message_only (s : Session) (label : string) (c : SSHConfig) :
  Py.index (display_items (ui s)) (current_index (ui s))
  = Some (label, type_config, data_config c) ->
  exists s',
    handle_list_input (ord "s") s = Ok true s'
    /\ same_but_message (ui s) (ui s')
    /\ key_file (senv s') = key_file (senv s)
    /\ config_file (senv s') = config_file (senv s)
    /\ launched (senv s') = launched (senv s) ++ [client_command "sftp" "-P" c]
    /\ (forall code rest, procs (senv s) = Exited code :: rest ->
          stdout (senv s') = stdout (senv s)
          /\ message (ui s')
             = if code =? 0 then "SFTP connection closed"
               else if code =? 6
                    then "Authentication failed - check username and password"
                    else ("SFTP connection failed with exit code "
                            ++ Py.str_of_int code)%string)
    /\ (forall why rest, procs (senv s) = LaunchFailed why :: rest ->
          message (ui s')
          = ("Starting SFTP session with " ++ host c ++ "...")%string
          /\ stdout (senv s')
             = stdout (senv s)
               ++ ("SFTP connection failed: " ++ why)%string
                  :: (if Py.truthy (password c)
                      then ["Note: Make sure 'sshpass' is installed on your system.";
                            "On Ubuntu/Debian: sudo apt-get install sshpass";
                            "On Fedora: sudo dnf install sshpass";
                            "On Arch: sudo pacman -S sshpass"]%string
                      else [])).
Proof.
  intros Hi. pose proof (index_nonempty _ _ _ Hi) as Hn.
  unfold handle_list_input, bind at 1 2 3, gets at 1 2 3.
  replace ((ord "s" =? KEY_UP) && _) with false by reflexivity.
  replace ((ord "s" =? KEY_DOWN) && _) with false by reflexivity.
  replace (ord "s" =? KEY_ENTER) with false by reflexivity.
  replace (ord "s" =? ord "a") with false by reflexivity.
  replace ((ord "s" =? ord "e") && _) with false by reflexivity.
  replace ((ord "s" =? ord "d") && _) with false by reflexivity.
  replace (ord "s" =? ord "q") with false by reflexivity.
  replace ((ord "s" =? ord "c") && _) with false by reflexivity.
  rewrite Hn. replace ((ord "s" =? ord "s") && negb false) with true by reflexivity.
  unfold bind at 1, selected_item, bind at 1, gets at 1, bind at 1, gets at 1.
  rewrite Hi. unfold or_raise, ret at 1.
  unfold bind at 1, bind at 1, as_config, ret at 1.
  unfold bind at 1, show_message at 1, on_ui at 1, modify.
  unfold connect_to_sftp, connect, bind at 1, on_env at 1, zoom, modify.
  cbn [senv ui].
  unfold bind at 1, on_env at 1, zoom, pop_proc. cbn [senv ui procs add_launched].
  destruct (procs (senv s)) as [|[code|why] rest] eqn:Hp.
  - eexists. split; [reflexivity|]. cbn [ui senv].
    do 4 (split; [reflexivity|]).
    split; intros ? ? E; discriminate E.
  - destruct (code =? 0) eqn:E0; [|destruct (code =? 6) eqn:E6];
      (eexists; split; [reflexivity|]; cbn [ui senv];
       do 4 (split; [reflexivity|]);
       split; intros ? ? E; inversion E; subst; rewrite ?E0, ?E6;
       split; reflexivity).
  - rewrite failure_notes_printed.
    eexists. split; [reflexivity|]. cbn [ui senv].
    do 4 (split; [reflexivity|]).
    split; intros ? ? E; inversion E; subst; split; reflexivity.
Qed.

End Sftp.

Lemma sftp_changes_message_only_witness :
  Py.index (display_items (ui no_sshpass_session)) 0 = Some (config_item db)
  /\ exists s',
       handle_list_input (ord "s") no_sshpass_session = Ok true s'
       /\ launched (senv s')
          = [(["sshpass"; "-e"; "sftp"; "-o"; "StrictHostKeyChecking=no";
               "-P"; "5432"; "admin@10.0.0.9"]%string, Some "hunter2"%string)]
       /\ message (ui s') = "Starting SFTP session with 10.0.0.9..."%string
       /\ List.length (stdout (senv s')) = 5%nat.
Proof.
  split; [reflexivity|].
  destruct (sftp_changes_message_only no_sshpass_session "db (10.0.0.9)" db eq_refl)
    as (s' & H & _ & _ & _ & Hl & _ & Hf).
  destruct (Hf _ _ eq_refl) as (Hm & Ho).
  exists s'. split; [exact H|]. split; [exact Hl|]. split; [exact Hm|].
  now rewrite Ho.
Defined.
